(** * ptinstaller: the Pythonista Tools installer

    A shallow embedding of [src/ptinstaller.py]: the listing parser
    ([PythonistaToolsRepo.get_tools_from_md]), the two installers
    ([GitHubRepoInstaller], [GistInstaller]) and the install / uninstall
    orchestration ([PythonistaToolsInstaller]).

    Text is modelled as [string] (8-bit characters); dictionaries as
    [gmap]; the mutable process state (parse cache, file system, network
    log, user interface) as one record threaded through a state-and-
    exception monad. *)

From Stdlib Require Import Ascii String.
From stdpp Require Import gmap strings list.

Local Open Scope string_scope.
Local Open Scope list_scope.

(** Text is appended by computation, as lists are. *)
Arguments String.append !s1 s2 : simpl nomatch.

(** ** Python's [re] on the fragment the program uses

    The four patterns of the source only repeat single characters, so the
    engine has greedy single-character repetition with backtracking into
    the continuation, numbered capture groups and the [^] anchor. *)
Module Re.

Inductive cset : Type :=
| Any                                 (* .      every character but newline *)
| Only (c : ascii)                    (* a literal character *)
| NoneOf (l : list ascii)             (* [^...] *)
| Between (l : list (ascii * ascii)). (* [a-z...] a union of ranges *)

Definition newline : ascii := "010"%char.

Definition in_range (c : ascii) (r : ascii * ascii) : bool :=
  (nat_of_ascii (fst r) <=? nat_of_ascii c)%nat
  && (nat_of_ascii c <=? nat_of_ascii (snd r))%nat.

Definition member (cs : cset) (c : ascii) : bool :=
  match cs with
  | Any => negb (Ascii.eqb c newline)
  | Only d => Ascii.eqb c d
  | NoneOf l => negb (existsb (Ascii.eqb c) l)
  | Between l => existsb (in_range c) l
  end.

Inductive node : Type :=
| One (cs : cset)
| Star (cs : cset)      (* cs*  greedy *)
| Plus (cs : cset)      (* cs+  greedy *)
| Opt (cs : cset)       (* cs?  greedy *)
| Open (g : nat)        (* (    start of group g *)
| Close (g : nat)       (* )    end of group g *)
| Bol.                  (* ^ *)

Definition regex : Type := list node.

(** Literal text of a pattern. *)
Fixpoint lit (s : string) : regex :=
  match s with
  | EmptyString => []
  | String c s' => One (Only c) :: lit s'
  end.

(** Capture state: the groups still open, with the text read since they
    were opened, and the groups already closed. *)
Record caps : Type := Caps {
  opened : list (nat * string);
  closed : list (nat * string)
}.

Definition no_caps : caps := Caps [] [].

Definition feed (a : ascii) (c : caps) : caps :=
  Caps (map (fun gt => (fst gt, snd gt +:+ String a EmptyString)) (opened c))
       (closed c).

Definition open_group (g : nat) (c : caps) : caps :=
  Caps ((g, EmptyString) :: opened c) (closed c).

Fixpoint assoc (g : nat) (l : list (nat * string)) : option string :=
  match l with
  | [] => None
  | (h, t) :: l' => if Nat.eqb g h then Some t else assoc g l'
  end.

Definition close_group (g : nat) (c : caps) : caps :=
  match assoc g (opened c) with
  | Some t => Caps (filter (fun gt => fst gt ≠ g) (opened c)) ((g, t) :: closed c)
  | None => c
  end.

(** A successful match: the captures, the text left after it, and the
    last character before that text. *)
Record found : Type := Found {
  captures : caps;
  tail : string;
  last : option ascii
}.

Definition at_bol (multiline : bool) (prev : option ascii) : bool :=
  match prev with
  | None => true
  | Some a => multiline && Ascii.eqb a newline
  end.

Section Engine.
Variable multiline : bool.

(** Greedy repetition: take one more character first, and give the
    continuation [k] the shorter prefix only if that fails. *)
Fixpoint greedy (cs : cset) (k : option ascii -> string -> caps -> option found)
    (prev : option ascii) (s : string) (c : caps) : option found :=
  match s with
  | String a s' =>
      if member cs a then
        match greedy cs k (Some a) s' (feed a c) with
        | Some m => Some m
        | None => k prev s c
        end
      else k prev s c
  | EmptyString => k prev s c
  end.

Fixpoint run (r : regex) (prev : option ascii) (s : string) (c : caps)
    : option found :=
  match r with
  | [] => Some (Found c s prev)
  | One cs :: r' =>
      match s with
      | String a s' => if member cs a then run r' (Some a) s' (feed a c) else None
      | EmptyString => None
      end
  | Star cs :: r' => greedy cs (run r') prev s c
  | Plus cs :: r' =>
      match s with
      | String a s' =>
          if member cs a then greedy cs (run r') (Some a) s' (feed a c) else None
      | EmptyString => None
      end
  | Opt cs :: r' =>
      match s with
      | String a s' =>
          if member cs a then
            match run r' (Some a) s' (feed a c) with
            | Some m => Some m
            | None => run r' prev s c
            end
          else run r' prev s c
      | EmptyString => run r' prev s c
      end
  | Open g :: r' => run r' prev s (open_group g c)
  | Close g :: r' => run r' prev s (close_group g c)
  | Bol :: r' => if at_bol multiline prev then run r' prev s c else None
  end.

End Engine.

(** Number of groups of a pattern, and the tuple [m.groups()]. *)
Definition group_count (r : regex) : nat :=
  List.length (List.filter (fun n => match n with Open _ => true | _ => false end) r).

Definition group (m : found) (g : nat) : string :=
  match assoc g (closed (captures m)) with
  | Some t => t
  | None => EmptyString
  end.

Definition groups (r : regex) (m : found) : list string :=
  map (group m) (seq 1 (group_count r)).

(** [re.match(r, s)]: a match anchored at the start of [s]. *)
Definition re_match (multiline : bool) (r : regex) (s : string) : option found :=
  run multiline r None s no_caps.

(** [re.findall(r, s)] for a pattern with two groups or more: the tuple
    of groups of each match, leftmost matches first, without overlap.
    [skip] counts the characters of the last match that are still to be
    stepped over; after an empty match the scan moves on by one
    character. *)
Fixpoint scan (multiline : bool) (r : regex) (prev : option ascii) (s : string)
    (skip : nat) : list (list string) :=
  match skip with
  | S n =>
      match s with
      | String a s' => scan multiline r (Some a) s' n
      | EmptyString => []
      end
  | O =>
      match run multiline r prev s no_caps with
      | Some m =>
          groups r m ::
          match s with
          | String a s' =>
              scan multiline r (Some a) s'
                   (String.length s - String.length (tail m) - 1)
          | EmptyString => []
          end
      | None =>
          match s with
          | String a s' => scan multiline r (Some a) s' 0
          | EmptyString => []
          end
      end
  end.

Definition findall (multiline : bool) (r : regex) (s : string) : list (list string) :=
  scan multiline r None s 0.

End Re.

Import Re.

Definition digit_lower_upper : cset :=
  Between [("0", "9"); ("a", "z"); ("A", "Z")]%char.
Definition hex_lower : cset := Between [("0", "9"); ("a", "f")]%char.

(** [GitHubRepoInstaller.PATTERN_USER_REPO]: [^https?://github.com/]
    (the dot is the regex dot), group 1 [.+], a slash, group 2 [.+]. *)
Definition PATTERN_USER_REPO : regex :=
  [Bol] ++ lit "http" ++ [Opt (Only "s")] ++ lit "://github" ++ [One Any]
  ++ lit "com/" ++ [Open 1; Plus Any; Close 1] ++ lit "/"
  ++ [Open 2; Plus Any; Close 2].

(** [GistInstaller.PATTERN_GIST_ID]: the text [http], group 1 [s?], the
    text [://gist.github.com/] (each dot is the regex dot), group 2
    [[0-9a-zA-Z]*], a slash, group 3 [[0-9a-f]*]. *)
Definition PATTERN_GIST_ID : regex :=
  lit "http" ++ [Open 1; Opt (Only "s"); Close 1] ++ lit "://gist" ++ [One Any]
  ++ lit "github" ++ [One Any] ++ lit "com/"
  ++ [Open 2; Star digit_lower_upper; Close 2] ++ lit "/"
  ++ [Open 3; Star hex_lower; Close 3].

(** [PythonistaToolsRepo.PATTERN_NAME_URL_DESCRIPTION], compiled with
    [re.MULTILINE]: [^], a bar, [ +], group 1 [[^]]+] in brackets, [ *],
    group 2 [[^]]*] in brackets, [[^|]+], a bar and a space, group 3
    [.*], a space and a bar. *)
Definition PATTERN_NAME_URL_DESCRIPTION : regex :=
  [Bol] ++ lit "|" ++ [Plus (Only " ")] ++ lit "["
  ++ [Open 1; Plus (NoneOf ["]"%char]); Close 1] ++ lit "]"
  ++ [Star (Only " ")] ++ lit "["
  ++ [Open 2; Star (NoneOf ["]"%char]); Close 2] ++ lit "]"
  ++ [Plus (NoneOf ["|"%char])] ++ lit "| "
  ++ [Open 3; Star Any; Close 3] ++ lit " |".

(** [PythonistaToolsRepo.PATTERN_NAME_URL], compiled with [re.MULTILINE]:
    [^], group 1 [[^]]+] in brackets, a colon, [ *], group 2 [.*]. *)
Definition PATTERN_NAME_URL : regex :=
  [Bol] ++ lit "[" ++ [Open 1; Plus (NoneOf ["]"%char]); Close 1] ++ lit "]:"
  ++ [Star (Only " ")] ++ [Open 2; Star Any; Close 2].

(** ** Strings *)

(** Whitespace of [unicode.strip()] among the first 256 code points. *)
Definition is_space (a : ascii) : bool :=
  let n := nat_of_ascii a in
  ((9 <=? n)%nat && (n <=? 13)%nat) || ((28 <=? n)%nat && (n <=? 32)%nat)
  || (n =? 133)%nat || (n =? 160)%nat.

Fixpoint lstrip (s : string) : string :=
  match s with
  | String a s' => if is_space a then lstrip s' else s
  | EmptyString => EmptyString
  end.

Fixpoint rstrip (s : string) : string :=
  match s with
  | String a s' =>
      match rstrip s' with
      | EmptyString => if is_space a then EmptyString else String a EmptyString
      | t => String a t
      end
  | EmptyString => EmptyString
  end.

Definition strip (s : string) : string := rstrip (lstrip s).

Fixpoint startswith (s pre : string) : bool :=
  match pre, s with
  | EmptyString, _ => true
  | String a pre', String b s' => Ascii.eqb a b && startswith s' pre'
  | String _ _, EmptyString => false
  end.

Fixpoint endswith_char (s : string) (a : ascii) : bool :=
  match s with
  | EmptyString => false
  | String b EmptyString => Ascii.eqb a b
  | String _ s' => endswith_char s' a
  end.

Fixpoint drop_chars (n : nat) (s : string) : string :=
  match n, s with
  | S n', String _ s' => drop_chars n' s'
  | _, _ => s
  end.

(** [s.split(sep, 1)[-1]] for a non-empty [sep]: the text after the first
    occurrence of [sep], or [s] itself when [sep] does not occur. *)
Fixpoint after_first (sep s : string) : option string :=
  if startswith s sep then Some (drop_chars (String.length sep) s)
  else match s with
       | String _ s' => after_first sep s'
       | EmptyString => None
       end.

Definition split1_last (s sep : string) : string :=
  match after_first sep s with
  | Some t => t
  | None => s
  end.

(** ** The tool registry of one listing document *)

Record tool : Type := Tool { url : string; description : string }.

Definition set_url (u : string) (t : tool) : tool := Tool u (description t).
Definition set_description (d : string) (t : tool) : tool := Tool (url t) d.

(** The local variables of [get_tools_from_md] that the two loops
    assign: the working dictionary and [url]. The loop targets named
    [url] rebind the parameter [url] of the function. *)
Record locals : Type := Locals { tools_dict : gmap string tool; url_var : string }.

(** Body of the first loop, for one tuple [(name, url, description)]. *)
Definition row_step (l : locals) (row : list string) : locals :=
  let name := nth 0 row "" in
  let url := nth 1 row "" in
  let description := nth 2 row "" in
  Locals (<[name := Tool url (strip description)]> (tools_dict l)) url.

(** Body of the inner loop over [tools_dict.items()], for one tool. *)
Definition substitute (name url : string) (tool_content : tool) : tool :=
  let tool_content :=
    match tool_content with
    | Tool its_url _ =>
        if decide (its_url = name) then set_url url tool_content else tool_content
    end in
  if decide (description tool_content = "[" +:+ name +:+ "]")
  then set_description url tool_content
  else tool_content.

(** Body of the second loop, for one tuple [(name, url)]. *)
Definition definition_step (l : locals) (def : list string) : locals :=
  let name := nth 0 def "" in
  let url := nth 1 def "" in
  match tools_dict l !! name with
  | Some t => Locals (<[name := set_url url t]> (tools_dict l)) url
  | None => Locals (substitute name url <$> tools_dict l) url
  end.

Definition has_url (kv : string * tool) : Prop := url (snd kv) ≠ "".

#[global] Instance has_url_dec kv : Decision (has_url kv).
Proof. unfold has_url. apply _. Defined.

(** The parse of a document text [md], started with the parameter [url]:
    the final locals and the filtered dictionary. *)
Definition parse_md (md url : string) : locals * gmap string tool :=
  let l := foldl row_step (Locals ∅ url) (findall true PATTERN_NAME_URL_DESCRIPTION md) in
  let l := foldl definition_step l (findall true PATTERN_NAME_URL md) in
  (l, filter has_url (tools_dict l)).

(** ** Python values that are not text *)

Set Warnings "-register-all".

(** What [json.loads] returns. An object is kept as its list of members,
    keys distinct. *)
Inductive json : Type :=
| JNull
| JBool (b : bool)
| JNum (n : Z)
| JStr (s : string)
| JArr (items : list json)
| JObj (members : list (string * json)).

Fixpoint member_of (key : string) (members : list (string * json)) : option json :=
  match members with
  | [] => None
  | (k, v) :: rest => if String.eqb key k then Some v else member_of key rest
  end.

(** What [get_github_user_repo] returns: [None], or the attribute
    [m.groups] of the match object, which is a bound method and not the
    tuple that calling it would give. *)
Inductive user_repo : Type :=
| NoMatch
| BoundGroups (m : found)
| Groups (items : list string).

Definition truthy_user_repo (v : user_repo) : bool :=
  match v with
  | NoMatch => false
  | BoundGroups _ => true
  | Groups items => negb (Nat.eqb (List.length items) 0)
  end.

Inductive exn : Type :=
| TypeError | ValueError | KeyError | AttributeError | UnicodeEncodeError
| IOError | OSError | ConnectionError | BadZipfile
| InvalidGistURLError | MultipleFilesInGistError | NoFilesInGistError
| GistDownloadError.

#[global] Instance exn_eq_dec : EqDecision exn.
Proof. solve_decision. Defined.

(** ** The file system

    A node is a directory or a regular file, stored under the list of
    the names that lead to it from the root directory, innermost first.
    A path is walked one component at a time: [.] stays in the
    directory, [..] goes to its parent, and the parent of the root is the
    root. Relative paths are taken from the root; there are no symbolic
    links. *)
Inductive fnode : Type := Dir | File (data : string).

Fixpoint components_from (cur p : string) : list string :=
  match p with
  | EmptyString => match cur with EmptyString => [] | _ => [cur] end
  | String a p' =>
      if Ascii.eqb a "/" then
        match cur with
        | EmptyString => components_from EmptyString p'
        | _ => cur :: components_from EmptyString p'
        end
      else components_from (cur +:+ String a EmptyString) p'
  end.

Definition components (p : string) : list string := components_from EmptyString p.

(** The components of a path, innermost first; for a path without [.]
    and [..] this is the key of what it names in the file system. *)
Definition key (p : string) : list string := rev (components p).

(** A NUL character in a path: the system calls of Python 2 refuse such
    a path with [TypeError]. *)
Definition has_nul (p : string) : bool :=
  existsb (Ascii.eqb "000") (list_ascii_of_string p).

Definition is_dot (c : string) : bool := String.eqb c "." || String.eqb c "..".

(** A path that is not empty, holds no NUL character and has no
    component [.] or [..]. *)
Definition ordinary_path (p : string) : bool :=
  negb (String.eqb p "") && negb (has_nul p)
  && forallb (fun c => negb (is_dot c)) (components p).

(** An ordinary path that is not the root. *)
Definition plain_path (p : string) : bool :=
  negb (Nat.eqb (List.length (components p)) 0) && ordinary_path p.

(** Every directory from [k] up to the root is there. *)
Fixpoint dir_at (d : gmap (list string) fnode) (k : list string) : bool :=
  match k with
  | [] => true
  | _ :: parent =>
      match d !! k with
      | Some Dir => dir_at d parent
      | _ => false
      end
  end.

(** The node under a key; the root is always there. *)
Definition node_at (d : gmap (list string) fnode) (k : list string) : option fnode :=
  match k with
  | [] => Some Dir
  | _ => d !! k
  end.

(** Path resolution from the directory [cur]: every component is looked
    up in a directory. The key reached need not be there. *)
Fixpoint walk (d : gmap (list string) fnode) (cur : list string) (comps : list string)
    : option (list string) :=
  match comps with
  | [] => Some cur
  | c :: rest =>
      match node_at d cur with
      | Some Dir =>
          if String.eqb c "." then walk d cur rest
          else if String.eqb c ".." then walk d (List.tl cur) rest
          else walk d (c :: cur) rest
      | _ => None
      end
  end.

(** The directory that the components lead to. *)
Definition dir_key (d : gmap (list string) fnode) (comps : list string)
    : option (list string) :=
  match walk d [] comps with
  | Some k => match node_at d k with Some Dir => Some k | _ => None end
  | None => None
  end.

(** What a path names, if anything: [stat]. A regular file is not found
    under a name with a trailing slash; nothing is found under the empty
    path or a path with a NUL character. *)
Definition lookup_path (d : gmap (list string) fnode) (p : string) : option fnode :=
  if String.eqb p "" || has_nul p then None
  else
    match walk d [] (components p) with
    | Some k =>
        match node_at d k with
        | Some (File data) => if endswith_char p "/" then None else Some (File data)
        | o => o
        end
    | None => None
    end.

Arguments lookup_path : simpl never.

(** How [mkdir] ends: the directory made, [EEXIST], another [OSError],
    or the [TypeError] for a NUL character. *)
Inductive made : Type := Made | Exists | Failed | BadName.

(** [os.mkdir] of the path with the components [rev rk]. *)
Definition mkdir_at (d : gmap (list string) fnode) (rk : list string)
    : made * gmap (list string) fnode :=
  match rk with
  | [] => (Exists, d)
  | x :: parent =>
      if has_nul x then (BadName, d)
      else
        match dir_key d (rev parent) with
        | Some k =>
            if is_dot x then (Exists, d)
            else
              match d !! (x :: k) with
              | None => (Made, <[x :: k := Dir]> d)
              | Some _ => (Exists, d)
              end
        | None => (Failed, d)
        end
  end.

(** [os.path.exists] of the path with the components [rev rk]. *)
Definition exists_at (d : gmap (list string) fnode) (rk : list string) : bool :=
  match walk d [] (rev rk) with
  | Some k => bool_decide (is_Some (node_at d k))
  | None => false
  end.

(** [os.makedirs] of the path with the components [rev rk]: when the
    head is missing it is made first, an [EEXIST] from there is passed
    over, and a tail [.] ends the call; then [mkdir] of the path. *)
Fixpoint makedirs_at (d : gmap (list string) fnode) (rk : list string)
    : made * gmap (list string) fnode :=
  match rk with
  | [] => mkdir_at d rk
  | x :: parent =>
      match parent with
      | [] => mkdir_at d rk
      | _ :: _ =>
          if exists_at d parent then mkdir_at d rk
          else
            match makedirs_at d parent with
            | (Made, d') | (Exists, d') =>
                if String.eqb x "." then (Made, d') else mkdir_at d' rk
            | other => other
            end
      end
  end.

Definition below (k : list string) (entry : list string * fnode) : Prop :=
  k `suffix_of` fst entry.

#[global] Instance below_dec k entry : Decision (below k entry).
Proof. unfold below. apply _. Defined.

Definition outside (k : list string) (entry : list string * fnode) : Prop :=
  ¬ below k entry.

#[global] Instance outside_dec k entry : Decision (outside k entry).
Proof. unfold outside. apply _. Defined.

(** Not in the directory [k]: the directory itself is not in it. *)
Definition not_inside (k : list string) (entry : list string * fnode) : Prop :=
  below k entry -> fst entry = k.

#[global] Instance not_inside_dec k entry : Decision (not_inside k entry).
Proof. unfold not_inside. apply _. Defined.

(** ** Paths: [os.path] *)

(** [os.path.join(a, b)] of [posixpath]. *)
Definition join2 (path b : string) : string :=
  if startswith b "/" then b
  else if String.eqb path "" || endswith_char path "/" then path +:+ b
  else path +:+ "/" +:+ b.

Definition os_path_join (a : string) (p : list string) : string := foldl join2 a p.

Arguments join2 : simpl never.

(** [os.path.basename]: the text after the last slash. *)
Fixpoint basename_from (cur p : string) : string :=
  match p with
  | EmptyString => cur
  | String a p' =>
      if Ascii.eqb a "/" then basename_from EmptyString p'
      else basename_from (cur +:+ String a EmptyString) p'
  end.

Definition os_path_basename (p : string) : string := basename_from EmptyString p.

(** [os.path.splitext(p)[0]] for a [p] without a slash: the text before
    the last dot, unless that dot only follows leading dots. *)
Fixpoint last_dot (p : string) (i : nat) (best : option nat) : option nat :=
  match p with
  | EmptyString => best
  | String a p' => last_dot p' (S i) (if Ascii.eqb a "." then Some i else best)
  end.

Fixpoint take_chars (n : nat) (s : string) : string :=
  match n, s with
  | S n', String a s' => String a (take_chars n' s')
  | _, _ => EmptyString
  end.

Fixpoint all_dots (s : string) : bool :=
  match s with
  | EmptyString => true
  | String a s' => Ascii.eqb a "." && all_dots s'
  end.

Definition splitext_root (p : string) : string :=
  match last_dot p 0 None with
  | Some i => if all_dots (take_chars i p) then p else take_chars i p
  | None => p
  end.

Fixpoint rstrip_slash (s : string) : string :=
  match s with
  | String a s' =>
      match rstrip_slash s' with
      | EmptyString => if Ascii.eqb a "/" then EmptyString else String a EmptyString
      | t => String a t
      end
  | EmptyString => EmptyString
  end.

(** [os.path.expanduser] on a path that starts with a tilde and a slash. *)
Definition expanduser (home p : string) : string :=
  match rstrip_slash home +:+ drop_chars 1 p with
  | EmptyString => "/"
  | t => t
  end.

(** ** The process state and its surroundings *)

Inductive action : Type :=
| DoInstall (category_name tool_name tool_url : string)
| DoUninstall (category_name tool_name tool_url : string).

(** The button passed as [sender]. *)
Record button : Type := Button { title : string; btn_action : option action }.

Record world : Type := World {
  cached_tools_dict : gmap string (gmap string tool);
  disk : gmap (list string) fnode;
  requested : list string;          (* URLs given to requests.get, oldest first *)
  browsed : list string;            (* URLs given to webbrowser.open *)
  hud : list (string * string);     (* console.hud_alert(text, icon, _) *)
  stderr : list exn;                (* exceptions written to sys.stderr *)
  sender : button
}.

Definition set_cache (f : gmap string (gmap string tool) -> gmap string (gmap string tool))
    (w : world) : world :=
  World (f (cached_tools_dict w)) (disk w) (requested w) (browsed w) (hud w)
        (stderr w) (sender w).
Definition set_disk (d : gmap (list string) fnode) (w : world) : world :=
  World (cached_tools_dict w) d (requested w) (browsed w) (hud w) (stderr w) (sender w).
Definition log_request (u : string) (w : world) : world :=
  World (cached_tools_dict w) (disk w) (requested w ++ [u]) (browsed w) (hud w)
        (stderr w) (sender w).
Definition log_browse (u : string) (w : world) : world :=
  World (cached_tools_dict w) (disk w) (requested w) (browsed w ++ [u]) (hud w)
        (stderr w) (sender w).
Definition log_hud (text icon : string) (w : world) : world :=
  World (cached_tools_dict w) (disk w) (requested w) (browsed w)
        (hud w ++ [(text, icon)]) (stderr w) (sender w).
Definition log_stderr (e : exn) (w : world) : world :=
  World (cached_tools_dict w) (disk w) (requested w) (browsed w) (hud w)
        (stderr w ++ [e]) (sender w).
Definition set_sender (b : button) (w : world) : world :=
  World (cached_tools_dict w) (disk w) (requested w) (browsed w) (hud w) (stderr w) b.

(** The response of a GET: [r.text] and [r.content]. *)
Record response : Type := Response { text : string; content : string }.

(** What the program reads and cannot change. *)
Record env : Type := Env {
  http_get : string -> option response;   (* None: requests.get raises *)
  json_loads : string -> option json;     (* None: json.loads raises *)
  unzip : string -> option (list (string * string));
                                          (* members of a zip file; None: not a zip *)
  urljoin : string -> string -> string;   (* urlparse.urljoin *)
  home : string;                          (* the home directory of expanduser *)
  tmpdir : option string                  (* os.environ.get('TMPDIR') *)
}.

(** A computation changes the world and returns or raises; what it did
    before raising stays done. *)
Inductive outcome (A : Type) : Type :=
| Return (a : A)
| Raise (e : exn).
Arguments Return {A} a.
Arguments Raise {A} e.

Definition M (A : Type) : Type := world -> outcome A * world.

Definition ret {A} (a : A) : M A := fun w => (Return a, w).
Definition raise {A} (e : exn) : M A := fun w => (Raise e, w).
Definition bind {A B} (m : M A) (k : A -> M B) : M B :=
  fun w => match m w with
           | (Return a, w') => k a w'
           | (Raise e, w') => (Raise e, w')
           end.
(** [try: m except: h]. *)
Definition try_except {A} (m : M A) (h : exn -> M A) : M A :=
  fun w => match m w with
           | (Return a, w') => (Return a, w')
           | (Raise e, w') => h e w'
           end.
Definition modify (f : world -> world) : M unit := fun w => (Return tt, f w).
Definition gets {A} (f : world -> A) : M A := fun w => (Return (f w), w).
Definition lift {A} (o : outcome A) : M A := fun w => (o, w).

Notation "'let*' x ':=' m 'in' k" := (bind m (fun x => k))
  (at level 10, x pattern, m at level 100, k at level 200).
Notation "m ';;' k" := (bind m (fun _ => k))
  (at level 100, k at level 200, right associativity).

Fixpoint for_each {A} (body : A -> M unit) (l : list A) : M unit :=
  match l with
  | [] => ret tt
  | x :: l' => body x ;; for_each body l'
  end.

(** *** The capabilities, as computations *)

Definition requests_get (E : env) (u : string) : M response :=
  modify (log_request u) ;;
  match http_get E u with
  | Some r => ret r
  | None => raise ConnectionError
  end.

(** [os.path.exists(p)]: [os.stat] with its [os.error] caught; the
    [TypeError] for a NUL character is not an [os.error]. *)
Definition os_path_exists (p : string) : M bool :=
  fun w =>
    if has_nul p then (Raise TypeError, w)
    else (Return (bool_decide (is_Some (lookup_path (disk w) p))), w).

(** [os.makedirs(p)]. The head is tested with [os.path.exists] before
    anything is made. *)
Definition os_makedirs (p : string) : M unit :=
  fun w =>
    if existsb has_nul (List.tl (key p)) then (Raise TypeError, w)
    else
      match makedirs_at (disk w) (key p) with
      | (Made, d) => (Return tt, set_disk d w)
      | (BadName, d) => (Raise TypeError, set_disk d w)
      | (_, d) => (Raise OSError, set_disk d w)
      end.

(** [open(p, 'wb')], [write(data)], [close()]. *)
Definition write_file (p data : string) : M unit :=
  fun w =>
    if has_nul p then (Raise TypeError, w)
    else
      match key p with
      | [] => (Raise IOError, w)
      | x :: parent =>
          if endswith_char p "/" || is_dot x then (Raise IOError, w)
          else
            match dir_key (disk w) (rev parent) with
            | Some k =>
                match disk w !! (x :: k) with
                | Some Dir => (Raise IOError, w)
                | _ => (Return tt, set_disk (<[x :: k := File data]> (disk w)) w)
                end
            | None => (Raise IOError, w)
            end
      end.

(** [open(p, 'rb')] and [read()]. *)
Definition read_file (p : string) : M string :=
  fun w =>
    if has_nul p then (Raise TypeError, w)
    else
      match lookup_path (disk w) p with
      | Some (File data) => (Return data, w)
      | _ => (Raise IOError, w)
      end.

(** [shutil.rmtree(p)]: what is in the directory is removed, then
    [os.rmdir(p)], which refuses a last component [.] or [..] and a path
    that no longer leads to the directory. *)
Definition shutil_rmtree (p : string) : M unit :=
  fun w =>
    if has_nul p then (Raise TypeError, w)
    else if String.eqb p "" then (Raise OSError, w)
    else
      match dir_key (disk w) (components p) with
      | Some k =>
          let emptied := filter (not_inside k) (disk w) in
          match key p with
          | x :: _ =>
              if negb (is_dot x)
                 && bool_decide (dir_key emptied (components p) = Some k)
              then (Return tt, set_disk (filter (outside k) (disk w)) w)
              else (Raise OSError, set_disk emptied w)
          | [] => (Raise OSError, set_disk emptied w)
          end
      | None => (Raise OSError, w)
      end.

Definition webbrowser_open (u : string) : M unit := modify (log_browse u).
Definition console_hud_alert (text icon : string) : M unit := modify (log_hud text icon).

(** ** [PythonistaToolsRepo] *)

(** [get_tools_from_md(self, url)]. The dictionary is stored in the cache
    under the value that the variable [url] has after the two loops. *)
Definition get_tools_from_md (E : env) (url : string) : M (gmap string tool) :=
  let* cache := gets cached_tools_dict in
  match cache !! url with
  | Some tools => ret tools
  | None =>
      let* r := requests_get E url in
      let md := text r in
      match parse_md md url with
      | (l, tools) =>
          modify (set_cache <[url_var l := tools]>) ;;
          ret tools
      end
  end.

(** ** [GitHubRepoInstaller] *)

(** [return m.groups if m else None] *)
Definition get_github_user_repo (url : string) : user_repo :=
  match re_match false PATTERN_USER_REPO url with
  | Some m => BoundGroups m
  | None => NoMatch
  end.

(** [user_name, repo_name = value]: only a sequence of two items unpacks. *)
Definition unpack2 (v : user_repo) : outcome (string * string) :=
  match v with
  | Groups [a; b] => Return (a, b)
  | Groups _ => Raise ValueError
  | BoundGroups _ => Raise TypeError
  | NoMatch => Raise TypeError
  end.

Definition GitHubRepoInstaller_download (E : env) (url : string) : M string :=
  let* (user_name, repo_name) := lift (unpack2 (get_github_user_repo url)) in
  let zipfile_url :=
    urljoin E url (user_name +:+ "/" +:+ repo_name +:+ "/archive/master.zip") in
  let* tmp := lift (match tmpdir E with Some t => Return t | None => Raise KeyError end) in
  let tmp_zipfile := os_path_join tmp [repo_name +:+ "-master.zip"] in
  let* r := requests_get E zipfile_url in
  write_file tmp_zipfile (content r) ;;
  ret tmp_zipfile.

(** [zipfp.read(name)]: the data of the member called [name], the last
    one when several members have that name. *)
Fixpoint zip_read (members : list (string * string)) (name : string) : option string :=
  match members with
  | [] => None
  | (n, data) :: rest =>
      match zip_read rest name with
      | Some later => Some later
      | None => if String.eqb n name then Some data else None
      end
  end.

(** Body of the loop over [zipfp.namelist()]. *)
Definition extract_member (members : list (string * string))
    (base_dir target_folder name : string) : M unit :=
  let* data := lift (match zip_read members name with
                     | Some d => Return d
                     | None => Raise KeyError
                     end) in
  let name := split1_last name base_dir in
  if String.eqb name "" then ret tt
  else
    let fname := os_path_join target_folder [name] in
    if endswith_char fname "/" then
      let* there := os_path_exists fname in
      if there then ret tt else os_makedirs fname
    else write_file fname data.

(** [install], from [if tmp_zipfile:] on. *)
Definition extract_zipfile (E : env) (tmp_zipfile target_folder : string) : M unit :=
  if String.eqb tmp_zipfile "" then ret tt
  else
    let base_dir := splitext_root (os_path_basename tmp_zipfile) +:+ "/" in
    let* bytes := read_file tmp_zipfile in
    let* members := lift (match unzip E bytes with
                          | Some ms => Return ms
                          | None => Raise BadZipfile
                          end) in
    for_each (extract_member members base_dir target_folder) (map fst members).

Definition GitHubRepoInstaller_install (E : env) (url target_folder : string) : M unit :=
  let* tmp_zipfile := GitHubRepoInstaller_download E url in
  extract_zipfile E tmp_zipfile target_folder.

(** ** [GistInstaller] *)

(** [return m.group(3) if m else None] *)
Definition get_gist_id (url : string) : option string :=
  match re_match false PATTERN_GIST_ID url with
  | Some m => Some (group m 3)
  | None => None
  end.

(** [if gist_id:] and [if self.gist_installer.get_gist_id(tool_url):] *)
Definition truthy_id (v : option string) : bool :=
  match v with
  | Some EmptyString => false
  | Some _ => true
  | None => false
  end.

(** [value[key]] on a decoded JSON value, for a text key. *)
Definition subscript (v : json) (k : string) : outcome json :=
  match v with
  | JObj members =>
      match member_of k members with
      | Some x => Return x
      | None => Raise KeyError
      end
  | JStr _ | JArr _ => Raise TypeError
  | _ => Raise TypeError
  end.

(** [files.values()] *)
Definition dict_values (v : json) : outcome (list json) :=
  match v with
  | JObj members => Return (map snd members)
  | _ => Raise AttributeError
  end.

(** The loop that collects [py_files]. *)
Fixpoint collect_py_files (values : list json) (py_files : list json)
    : outcome (list json) :=
  match values with
  | [] => Return py_files
  | file_info :: rest =>
      match file_info with
      | JObj members =>
          match member_of "language" members with
          | Some (JStr "Python") => collect_py_files rest (py_files ++ [file_info])
          | _ => collect_py_files rest py_files
          end
      | _ => Raise AttributeError
      end
  end.

Definition GistInstaller_download (E : env) (url : string) : M (json * json) :=
  let gist_id := get_gist_id url in
  if truthy_id gist_id then
    let json_url := "https://api.github.com/gists/" +:+ default "" gist_id in
    let* files :=
      try_except
        (let* r := requests_get E json_url in
         let gist_json := text r in
         let* gist_info := lift (match json_loads E gist_json with
                                 | Some v => Return v
                                 | None => Raise ValueError
                                 end) in
         lift (subscript gist_info "files"))
        (fun _ => raise GistDownloadError) in
    let* values := lift (dict_values files) in
    let* py_files := lift (collect_py_files values []) in
    if (1 <? List.length py_files)%nat then raise MultipleFilesInGistError
    else if (List.length py_files =? 0)%nat then raise NoFilesInGistError
    else
      let file_info := nth 0 py_files JNull in
      let* filename := lift (subscript file_info "filename") in
      let* content := lift (subscript file_info "content") in
      ret (filename, content)
  else raise InvalidGistURLError.

Definition is_ascii_text (s : string) : bool :=
  forallb (fun a => (nat_of_ascii a <? 128)%nat) (list_ascii_of_string s).

(** [install]: the file is opened, and so created or emptied, before the
    content is written to it. *)
Definition GistInstaller_install (E : env) (url target_folder : string) : M unit :=
  let* (filename, content) := GistInstaller_download E url in
  let* path := lift (match filename with
                     | JStr f => Return (os_path_join target_folder [f])
                     | _ => Raise AttributeError
                     end) in
  write_file path "" ;;
  match content with
  | JStr c => if is_ascii_text c then write_file path c else raise UnicodeEncodeError
  | _ => raise TypeError
  end.

(** ** [PythonistaToolsInstaller] *)

Definition INSTALLATION_ROOT (E : env) : string := expanduser (home E) "~/Documents/bin".

Definition get_target_folder (E : env) (category_name tool_name : string) : string :=
  os_path_join (INSTALLATION_ROOT E) [category_name; tool_name].

Arguments get_target_folder : simpl never.

Definition is_tool_installed (E : env) (category_name tool_name : string) : M bool :=
  os_path_exists (get_target_folder E category_name tool_name).

Definition set_title (t : string) : M unit :=
  modify (fun w => set_sender (Button t (btn_action (sender w))) w).
Definition set_action (a : action) : M unit :=
  modify (fun w => set_sender (Button (title (sender w)) (Some a)) w).

(** [_install]; the decorator [ui.in_background] is taken to run it at
    once. *)
Definition _install (E : env) (category_name tool_name tool_url target_folder : string)
    : M unit :=
  try_except
    ((if truthy_id (get_gist_id tool_url) then
        GistInstaller_install E tool_url target_folder
      else if truthy_user_repo (get_github_user_repo tool_url) then
        GitHubRepoInstaller_install E tool_url target_folder
      else webbrowser_open tool_url) ;;
     set_title "  Uninstall  " ;;
     set_action (DoUninstall category_name tool_name tool_url) ;;
     console_hud_alert (tool_name +:+ " installed") "success")
    (fun e =>
       modify (log_stderr e) ;;
       console_hud_alert "Installation failed" "error").

Definition install (E : env) (category_name tool_name tool_url : string) : M unit :=
  set_title "  Loading  " ;;
  let target_folder := get_target_folder E category_name tool_name in
  let* there := os_path_exists target_folder in
  (if there then ret tt else os_makedirs target_folder) ;;
  _install E category_name tool_name tool_url target_folder.

Definition uninstall (E : env) (category_name tool_name tool_url : string) : M unit :=
  let target_folder := get_target_folder E category_name tool_name in
  let* there := os_path_exists target_folder in
  (if there then shutil_rmtree target_folder else ret tt) ;;
  set_title "  Install  " ;;
  set_action (DoInstall category_name tool_name tool_url) ;;
  console_hud_alert (tool_name +:+ " uninstalled") "success".

(** ** [GitHubAPI] and [PythonistaToolsRepo.get_categories] *)

Definition API_URL : string := "https://api.github.com".

(** [GitHubAPI.contents(owner, repo)]: the decoded body of the request. *)
Definition GitHubAPI_contents (E : env) (owner repo : string) : M json :=
  let* r := requests_get E
              (urljoin E API_URL ("repos/" +:+ owner +:+ "/" +:+ repo +:+ "/contents")) in
  lift (match json_loads E (text r) with
        | Some v => Return v
        | None => Raise ValueError
        end).

(** [for content in value]: the items of a list, the keys of an object,
    the characters of a text; nothing else can be iterated. *)
Definition iterate (v : json) : outcome (list json) :=
  match v with
  | JArr items => Return items
  | JObj members => Return (map (fun kv => JStr (fst kv)) members)
  | JStr s => Return (map (fun a => JStr (String a "")) (list_ascii_of_string s))
  | _ => Raise TypeError
  end.

(** [s.endswith(suffix)] *)
Definition endswith (s suffix : string) : bool :=
  (String.length suffix <=? String.length s)%nat
  && String.eqb (drop_chars (String.length s - String.length suffix) s) suffix.

(** [os.path.splitext(p)[0]] for any path: the extension is looked for
    in the part after the last slash. *)
Definition os_path_splitext_root (p : string) : string :=
  let base := os_path_basename p in
  take_chars (String.length p - String.length base) p +:+ splitext_root base.

(** A value of the dictionary of categories: [{'url': ..., 'sha': ...}]. *)
Module Category.
Record entry : Type := Entry { url : json; sha : json }.
End Category.

(** Body of the loop of [get_categories], for one [content]. *)
Definition category_step (categories : gmap string Category.entry) (content : json)
    : outcome (gmap string Category.entry) :=
  match subscript content "name" with
  | Return (JStr name) =>
      if endswith name ".md" && negb (String.eqb name "README.md") then
        match subscript content "download_url" with
        | Return download_url =>
            match subscript content "sha" with
            | Return sha =>
                Return (<[os_path_splitext_root name := Category.Entry download_url sha]>
                          categories)
            | Raise e => Raise e
            end
        | Raise e => Raise e
        end
      else Return categories
  | Return _ => Raise AttributeError
  | Raise e => Raise e
  end.

Fixpoint categories_loop (contents : list json) (categories : gmap string Category.entry)
    : outcome (gmap string Category.entry) :=
  match contents with
  | [] => Return categories
  | content :: rest =>
      match category_step categories content with
      | Return categories' => categories_loop rest categories'
      | Raise e => Raise e
      end
  end.

Definition get_categories (E : env) : M (gmap string Category.entry) :=
  let* contents := GitHubAPI_contents E "Pythonista-Tools" "Pythonista-Tools" in
  let* items := lift (iterate contents) in
  lift (categories_loop items ∅).

(** ** Some worlds to run the program in *)

Definition nl : string := String newline EmptyString.

Definition no_button : button := Button "" None.

(** A process that has just started, on a disk [d]. *)
Definition fresh (d : gmap (list string) fnode) : world :=
  World ∅ d [] [] [] [] no_button.

(** A network that serves the one document [md] at [u]. *)
Definition serving (u md : string) : env :=
  Env (fun v => if String.eqb v u then Some (Response md md) else None)
      (fun _ => None) (fun _ => None) (fun _ rel => rel) "/home/me" (Some "/tmp").


(** The row and the two definition lines of the example, in three
    layouts: definitions after the row, before it, and after it with a
    table header and blank lines around. *)
Definition row8 : string := "| [Foo][f] ... | [g] |".
Definition def8f : string := "[f]: http://x".
Definition def8g : string := "[g]: http://y".

Definition doc8 : string := row8 +:+ nl +:+ def8f +:+ nl +:+ def8g.
Definition doc8_defs_first : string := def8g +:+ nl +:+ def8f +:+ nl +:+ row8 +:+ nl.
Definition doc8_with_header : string :=
  "# Tools" +:+ nl +:+ nl +:+ "| Script | Description |" +:+ nl
  +:+ "|--------|-------------|" +:+ nl +:+ row8 +:+ nl +:+ nl
  +:+ def8f +:+ nl +:+ def8g +:+ nl.

(** A listing whose only row names the label [f], without a definition
    line for it, and the same listing with the definition. *)
Definition row_foo : string := "| [Foo][f] ... | A tool |".
Definition doc_undefined : string := row_foo +:+ nl.
Definition doc_defined : string := row_foo +:+ nl +:+ nl +:+ "[f]: http://x" +:+ nl.

Definition listing_url : string :=
  "https://raw.githubusercontent.com/Pythonista-Tools/Pythonista-Tools/master/Cat.md".

(** Every dictionary in the cache holds tools with a url only. *)
Definition cache_sound (w : world) : Prop :=
  forall u tools name t,
    cached_tools_dict w !! u = Some tools -> tools !! name = Some t -> url t <> "".

(** The worlds of a process that has called [get_tools_from_md] any
    number of times, on any network, since its cache was created empty. *)
Inductive parsed_only : world -> Prop :=
| parsed_start w : cached_tools_dict w = ∅ -> parsed_only w
| parsed_call E u w : parsed_only w -> parsed_only (snd (get_tools_from_md E u w)).

(** *** Gists *)

Definition is_object (v : json) : bool :=
  match v with
  | JObj _ => true
  | _ => false
  end.

(** A file of a gist that is declared with the language [Python]. *)
Definition is_python_file (file_info : json) : bool :=
  match file_info with
  | JObj members =>
      match member_of "language" members with
      | Some (JStr "Python") => true
      | _ => false
      end
  | _ => false
  end.

Definition gist_api : string := "https://api.github.com/gists/".
Definition gist_prefix : string := "https://gist.github.com/".

(** The url names the gist [gist_id], and the network serves its
    metadata: a JSON object whose member [files] is an object of file
    descriptions [members]. *)
Definition serves_gist (E : env) (url gist_id : string) (members : list (string * json))
    : Prop :=
  get_gist_id url = Some gist_id /\ gist_id <> ""
  /\ exists r gist_info,
       http_get E (gist_api +:+ gist_id) = Some r
       /\ json_loads E (text r) = Some gist_info
       /\ subscript gist_info "files" = Return (JObj members)
       /\ forallb is_object (map snd members) = true.

Definition gist_file (filename language content : string) : string * json :=
  (filename, JObj [("filename", JStr filename); ("language", JStr language);
                   ("content", JStr content)]).

(** A network that serves one gist, [abcdef1234567890], with the given
    files. *)
Definition gist_url : string := "https://gist.github.com/bob/abcdef1234567890".

Definition serving_gist (files : list (string * json)) : env :=
  Env (fun v => if String.eqb v (gist_api +:+ "abcdef1234567890")
                then Some (Response "{...}" "{...}") else None)
      (fun t => if String.eqb t "{...}" then Some (JObj [("files", JObj files)]) else None)
      (fun _ => None) (fun _ rel => rel) "/home/me" (Some "/tmp").

Definition two_python_files : list (string * json) :=
  [gist_file "a.py" "Python" "print 1"; gist_file "b.py" "Python" "print 2"].
Definition no_python_file : list (string * json) :=
  [gist_file "README.md" "Markdown" "# a"; gist_file "a.PY" "python" "print 1"].

Definition itunes_url : string := "https://itunes.apple.com/us/app/pythonista/id528579881".

(** What [uninstall] does to the button and the alerts once the folder
    is gone. *)
Definition uninstalled (c t u : string) (w : world) : world :=
  log_hud (t +:+ " uninstalled") "success"
    (set_sender (Button "  Install  " (Some (DoInstall c t u))) w).

(** A disk where a regular file stands at the target folder of
    [("cat", "tool")]. *)
Definition disk_with_file : gmap (list string) fnode :=
  <[ ["tool"; "cat"; "bin"; "Documents"; "me"; "home"] := File "data" ]>
    (<[ ["cat"; "bin"; "Documents"; "me"; "home"] := Dir ]>
       (<[ ["bin"; "Documents"; "me"; "home"] := Dir ]>
          (<[ ["Documents"; "me"; "home"] := Dir ]>
             (<[ ["me"; "home"] := Dir ]> (<[ ["home"] := Dir ]> ∅))))).

(** A disk where the target folder of [("cat", "tool")] is a directory
    that holds one file. *)
Definition disk_with_tool : gmap (list string) fnode :=
  <[ ["main.py"; "tool"; "cat"; "bin"; "Documents"; "me"; "home"] := File "print 1" ]>
    (<[ ["tool"; "cat"; "bin"; "Documents"; "me"; "home"] := Dir ]>
       (<[ ["cat"; "bin"; "Documents"; "me"; "home"] := Dir ]>
          (<[ ["bin"; "Documents"; "me"; "home"] := Dir ]>
             (<[ ["Documents"; "me"; "home"] := Dir ]>
                (<[ ["me"; "home"] := Dir ]> (<[ ["home"] := Dir ]> ∅)))))).

(** *** Archives *)


Definition archive_with_lib_entry (d0 d1 d2 d3 : string) : list (string * string) :=
  [("tool-master/", d0); ("tool-master/main.py", d1); ("tool-master/lib/", d2);
   ("tool-master/lib/util.py", d3)].




(** Surroundings where the bytes [PK] are a zip file with the given
    members, and a disk with that file downloaded and an empty folder
    [/t] to extract it to. *)
Definition unzipping (members : list (string * string)) : env :=
  Env (fun _ => None) (fun _ => None)
      (fun bytes => if String.eqb bytes "PK" then Some members else None)
      (fun _ rel => rel) "/home/me" (Some "/tmp").

Definition disk_before_extract : gmap (list string) fnode :=
  <[ ["t"] := Dir ]>
    (<[ ["tool-master.zip"; "tmp"] := File "PK" ]> (<[ ["tmp"] := Dir ]> ∅)).

(** A listing where the definition line has the name of the tool [Foo]
    as its label, and [Bar] has that name as its label and, in
    brackets, as its description; and the same listing without the
    definition line. *)
Definition rows_foo_bar : string :=
  "| [Foo][] ... | The tool |" +:+ nl +:+ "| [Bar][Foo] ... | [Foo] |" +:+ nl.
Definition doc_named : string := rows_foo_bar +:+ nl +:+ "[Foo]: http://x" +:+ nl.
Definition doc_named_without : string := rows_foo_bar +:+ nl.

(** Two dictionaries with the same names and descriptions, and the same
    urls but for the tool [name]. *)
Definition agree_but_url (name : string) (d d' : gmap string tool) : Prop :=
  forall k,
    match d !! k, d' !! k with
    | Some t, Some t' => description t = description t' /\ (k <> name -> url t = url t')
    | None, None => True
    | _, _ => False
    end.

(** A listing of two tools with empty label slots, where only [Bar] has
    a definition line. *)
Definition doc_implicit : string :=
  "| [Foo][] ... | A tool |" +:+ nl +:+ "| [Bar][] ... | Another |" +:+ nl +:+ nl
  +:+ "[Bar]: https://github.com/bob/bar" +:+ nl.

(** *** More conditions and worlds for the properties below *)

(** The member [files] of the metadata of the gist [gist_id], when the
    request, the decoding and the subscript all succeed: what the [try]
    block of [download] computes. *)
Definition gist_files (E : env) (gist_id : string) : option json :=
  match http_get E (gist_api +:+ gist_id) with
  | Some r =>
      match json_loads E (text r) with
      | Some gist_info =>
          match subscript gist_info "files" with
          | Return files => Some files
          | Raise _ => None
          end
      | None => None
      end
  | None => None
  end.

(** A name of one path component: not empty, without a slash. *)
Definition simple_name (n : string) : bool :=
  negb (String.eqb n "")
  && forallb (fun a => negb (Ascii.eqb a "/")) (list_ascii_of_string n).

(** A name of one path component that is not [.] or [..] and holds no
    NUL character. *)
Definition ordinary_name (n : string) : bool :=
  simple_name n && negb (is_dot n) && negb (has_nul n).

(** A network where the gist API does not answer, and one where it
    answers with something that is not JSON. *)
Definition gist_api_down : env :=
  Env (fun _ => None) (fun _ => None) (fun _ => None) (fun _ rel => rel)
      "/home/me" (Some "/tmp").
Definition gist_api_garbled : env :=
  Env (fun _ => Some (Response "<html>" "<html>")) (fun _ => None) (fun _ => None)
      (fun _ rel => rel) "/home/me" (Some "/tmp").

(** A network where the metadata of the gist has a list for [files]. *)
Definition gist_api_files_list : env :=
  Env (fun _ => Some (Response "{...}" "{...}"))
      (fun _ => Some (JObj [("files", JArr [])])) (fun _ => None)
      (fun _ rel => rel) "/home/me" (Some "/tmp").

(** A listing without a table row and without a definition line. *)
Definition doc_prose : string := "# Tools" +:+ nl +:+ nl +:+ "Nothing here yet." +:+ nl.

(** An archive with a member whose name, after the wrapper directory,
    starts with a slash. *)
Definition archive_with_absolute_name : list (string * string) :=
  [("tool-master/", ""); ("tool-master//home/me/Documents/site.py", "import os")].

(** The url of the listing of the repository, and a network that
    answers it with the given decoded value. *)
Definition contents_url (E : env) : string :=
  urljoin E API_URL "repos/Pythonista-Tools/Pythonista-Tools/contents".

Definition serving_contents (v : json) : env :=
  Env (fun u => if String.eqb u "https://api.github.com/repos/Pythonista-Tools/Pythonista-Tools/contents"
                then Some (Response "[...]" "[...]") else None)
      (fun _ => Some v) (fun _ => None)
      (fun base rel => base +:+ "/" +:+ rel) "/home/me" (Some "/tmp").

Definition content_entry (name download_url sha : string) : json :=
  JObj [("name", JStr name); ("path", JStr name); ("sha", JStr sha);
        ("download_url", JStr download_url); ("type", JStr "file")].

Definition repository_contents : list json :=
  [content_entry "Games.md" "https://raw/Games.md" "a1";
   content_entry "README.md" "https://raw/README.md" "b2";
   content_entry "LICENSE" "https://raw/LICENSE" "c3";
   content_entry "Utilities.md" "https://raw/Utilities.md" "d4"].

(** A description of a file of the repository: an object with a text
    [name], a [download_url] and a [sha]. *)
Definition is_entry (content : json) : bool :=
  match subscript content "name", subscript content "download_url",
        subscript content "sha" with
  | Return (JStr _), Return _, Return _ => true
  | _, _, _ => false
  end.

(** The category that [content] is stored under, if it is stored. *)
Definition category_key (content : json) : option string :=
  match subscript content "name" with
  | Return (JStr name) =>
      if endswith name ".md" && negb (String.eqb name "README.md")
      then Some (os_path_splitext_root name) else None
  | _ => None
  end.

(** Where an entry of the dictionary of categories comes from. *)
Definition from_entry (items : list json) (k : string) (e : Category.entry) : Prop :=
  exists content name,
    In content items
    /\ subscript content "name" = Return (JStr name)
    /\ endswith name ".md" = true /\ name <> "README.md"
    /\ os_path_splitext_root name = k
    /\ subscript content "download_url" = Return (Category.url e)
    /\ subscript content "sha" = Return (Category.sha e).

(** A decoded answer that is not a list and has something to iterate
    over, or cannot be iterated at all: what the API answers with when
    it refuses, an object with a message. *)
Definition not_a_listing (v : json) : bool :=
  match v with
  | JArr _ => false
  | JObj [] => false
  | JStr EmptyString => false
  | _ => true
  end.

Definition api_refusal : json :=
  JObj [("message", JStr "API rate limit exceeded"); ("documentation_url", JStr "https://d")].

Definition one_python_file : list (string * json) :=
  [gist_file "README.md" "Markdown" "# a"; gist_file "tool.py" "Python" "print 1"].

(** A disk with an empty target folder for [("cat", "tool")]. *)
Definition disk_with_empty_tool : gmap (list string) fnode :=
  <[ ["tool"; "cat"; "bin"; "Documents"; "me"; "home"] := Dir ]>
    (<[ ["cat"; "bin"; "Documents"; "me"; "home"] := Dir ]>
       (<[ ["bin"; "Documents"; "me"; "home"] := Dir ]>
          (<[ ["Documents"; "me"; "home"] := Dir ]>
             (<[ ["me"; "home"] := Dir ]> (<[ ["home"] := Dir ]> ∅))))).

(** The world [w'] differs from [w] at most in the disk and in the log
    of requests. *)
Definition same_interface (w w' : world) : Prop :=
  cached_tools_dict w' = cached_tools_dict w /\ browsed w' = browsed w
  /\ hud w' = hud w /\ stderr w' = stderr w /\ sender w' = sender w.

(** Every path that names something on the disk [d] still does on [d'],
    and a directory is still a directory. *)
Definition keeps_paths (d d' : gmap (list string) fnode) : Prop :=
  forall q n, lookup_path d q = Some n ->
    exists n', lookup_path d' q = Some n' /\ (n = Dir -> n' = Dir).

(** A computation that, from every world, changes at most the disk and
    the log of requests, and removes nothing from the disk. *)
Definition framed {A} (m : M A) : Prop :=
  forall w, same_interface w (snd (m w)) /\ keeps_paths (disk w) (disk (snd (m w))).

(** The installer that [_install] dispatches to, by the url. *)
Definition dispatch (E : env) (tool_url target_folder : string) : M unit :=
  if truthy_id (get_gist_id tool_url) then
    GistInstaller_install E tool_url target_folder
  else if truthy_user_repo (get_github_user_repo tool_url) then
    GitHubRepoInstaller_install E tool_url target_folder
  else webbrowser_open tool_url.

(** *** Runs of characters under a repetition *)


(** Text fed to the open groups, one character after the other. *)
Fixpoint feed_all (u : string) (c : caps) : caps :=
  match u with
  | EmptyString => c
  | String a u' => feed_all u' (feed a c)
  end.

Fixpoint last_char (prev : option ascii) (u : string) : option ascii :=
  match u with
  | EmptyString => prev
  | String a u' => last_char (Some a) u'
  end.

Definition all_in (cs : cset) (u : string) : bool :=
  forallb (member cs) (list_ascii_of_string u).

(** The text [rest] does not go on with a character of [cs]. *)
Definition stops (cs : cset) (rest : string) : bool :=
  match rest with
  | EmptyString => true
  | String b _ => negb (member cs b)
  end.

(** ** The source classifier *)

Lemma greedy_stops cs k prev rest c :
  stops cs rest = true -> greedy cs k prev rest c = k prev rest c.
Proof.
  destruct rest as [|b rest]; simpl; [reflexivity|].
  intros H. apply negb_true_iff in H. rewrite H. reflexivity.
Qed.

(** A greedy repetition takes the whole run [u] when the continuation
    accepts what follows. *)
Lemma greedy_takes_all cs k u : forall prev rest c m,
  all_in cs u = true -> stops cs rest = true ->
  k (last_char prev u) rest (feed_all u c) = Some m ->
  greedy cs k prev (u +:+ rest) c = Some m.
Proof.
  induction u as [|a u IH]; intros prev rest c m Hall Hstop Hk.
  - simpl in *. rewrite greedy_stops; assumption.
  - unfold all_in in Hall. simpl in Hall. apply andb_true_iff in Hall as [Ha Hu].
    simpl. rewrite Ha. rewrite (IH (Some a) rest (feed a c) m); auto.
Qed.

Lemma append_assoc (a b c : string) : (a +:+ b) +:+ c = a +:+ (b +:+ c).
Proof. induction a as [|x a IH]; simpl; [reflexivity | rewrite IH; reflexivity]. Qed.

Lemma feed_all_caps u : forall c,
  feed_all u c =
  Caps (map (fun gt => (fst gt, snd gt +:+ u)) (opened c)) (closed c).
Proof.
  induction u as [|a u IH]; intros [op cl]; simpl.
  - f_equal. induction op as [|[g t] op IHop]; simpl; [reflexivity|].
    rewrite <- IHop at 1.
    f_equal. f_equal. clear. induction t; simpl; congruence.
  - rewrite IH. simpl. f_equal. rewrite map_map. apply map_ext.
    intros [g t]. simpl. rewrite append_assoc. reflexivity.
Qed.


Lemma gist_pattern_empty_id user rest :
  all_in digit_lower_upper user = true -> stops hex_lower rest = true ->
  exists m, re_match false PATTERN_GIST_ID (gist_prefix +:+ user +:+ "/" +:+ rest) = Some m
            /\ group m 3 = "".
Proof.
  intros Huser Hrest.
  unfold re_match, gist_prefix. simpl.
  eexists. split.
  - erewrite greedy_takes_all; [reflexivity | assumption | reflexivity |].
    rewrite feed_all_caps. simpl.
    rewrite greedy_stops by assumption. reflexivity.
  - reflexivity.
Qed.

(** C9, as the code has it. For every URL
    [https://gist.github.com/<user>/] with an empty gist-id segment and
    a [user] made of ASCII letters and digits only (nothing, or a
    character that is not a lower-case hex digit, after the slash), the
    gist pattern matches, [get_gist_id] returns the empty string, and
    [download] raises [InvalidGistURLError] with the world, and so the
    log of requests, as it was. *)
Theorem empty_gist_id_is_invalid (E : env) (user rest : string) (w : world) :
  all_in digit_lower_upper user = true ->
  stops hex_lower rest = true ->
  let url := gist_prefix +:+ user +:+ "/" +:+ rest in
  is_Some (re_match false PATTERN_GIST_ID url)
  /\ get_gist_id url = Some ""
  /\ GistInstaller_download E url w = (Raise InvalidGistURLError, w).
Proof.
  intros Huser Hrest url.
  destruct (gist_pattern_empty_id user rest Huser Hrest) as (m & Hm & Hg).
  fold url in Hm.
  assert (Hid : get_gist_id url = Some "").
  { unfold get_gist_id. rewrite Hm, Hg. reflexivity. }
  split; [rewrite Hm; eexists; reflexivity|].
  split; [exact Hid|].
  unfold GistInstaller_download. rewrite Hid. reflexivity.
Qed.

Lemma empty_gist_id_is_invalid_witness :
  get_gist_id "https://gist.github.com/bob/" = Some ""
  /\ GistInstaller_download (serving "" "") "https://gist.github.com/bob/" (fresh ∅)
     = (Raise InvalidGistURLError, fresh ∅).
Proof.
  exact (proj2 (empty_gist_id_is_invalid (serving "" "") "bob" "" (fresh ∅)
                  eq_refl eq_refl)).
Defined.

(** C9, as it is written, fails: the user name [bob-smith] has a
    hyphen, which the pattern does not take, so the pattern does not
    match [https://gist.github.com/bob-smith/] and [get_gist_id] returns
    [None], not the empty string. *)
Lemma hyphenated_user_has_no_gist_id :
  ~ (forall (E : env) (user : string) (w : world),
       let url := gist_prefix +:+ user +:+ "/" in
       is_Some (re_match false PATTERN_GIST_ID url)
       /\ get_gist_id url = Some ""
       /\ GistInstaller_download E url w = (Raise InvalidGistURLError, w)).
Proof.
  intros H. destruct (H (serving "" "") "bob-smith" (fresh ∅)) as (_ & Hid & _).
  assert (Hnone : get_gist_id (gist_prefix +:+ "bob-smith" +:+ "/") = None)
    by (vm_compute; reflexivity).
  rewrite Hnone in Hid. discriminate Hid.
Qed.

(** [download] of the repository installer unpacks what
    [get_github_user_repo] returns, which is never a pair. *)
Lemma repository_download_raises (E : env) (url : string) (w : world) :
  GitHubRepoInstaller_download E url w = (Raise TypeError, w).
Proof.
  unfold GitHubRepoInstaller_download, bind, lift, get_github_user_repo.
  destruct (re_match false PATTERN_USER_REPO url); reflexivity.
Qed.

(** C3. On [https://github.com/alice/tool] the repository matcher
    captures [alice] and [tool], but [get_github_user_repo] returns the
    bound method [m.groups] and not that pair, so the unpacking in
    [download] raises [TypeError]; on
    [https://gist.github.com/bob/abcdef1234567890] [get_gist_id] returns
    the hex segment; on an iTunes link both matchers return [None]. *)
Theorem classifier_examples :
  (exists m, get_github_user_repo "https://github.com/alice/tool" = BoundGroups m
             /\ groups PATTERN_USER_REPO m = ["alice"; "tool"])
  /\ get_github_user_repo "https://github.com/alice/tool" <> Groups ["alice"; "tool"]
  /\ unpack2 (get_github_user_repo "https://github.com/alice/tool") = Raise TypeError
  /\ (forall E w, GitHubRepoInstaller_install E "https://github.com/alice/tool" "/t" w
                  = (Raise TypeError, w))
  /\ get_gist_id "https://gist.github.com/bob/abcdef1234567890" = Some "abcdef1234567890"
  /\ get_gist_id itunes_url = None
  /\ get_github_user_repo itunes_url = NoMatch.
Proof.
  split; [eexists; split; reflexivity|].
  split; [discriminate|].
  split; [reflexivity|].
  split; [|repeat split; reflexivity].
  intros E w. unfold GitHubRepoInstaller_install, bind.
  rewrite repository_download_raises. reflexivity.
Qed.

(** One definition line: a label that is the name of a collected tool
    sets that tool's url and nothing else; the substitution over all
    tools runs only for a label that is no tool's name. *)
Lemma definition_step_cases (l : locals) (name url : string) :
  match tools_dict l !! name with
  | Some t =>
      tools_dict (definition_step l [name; url])
      = <[name := Tool url (description t)]> (tools_dict l)
      /\ forall other, other <> name ->
           tools_dict (definition_step l [name; url]) !! other = tools_dict l !! other
  | None =>
      tools_dict (definition_step l [name; url]) = substitute name url <$> tools_dict l
  end.
Proof.
  unfold definition_step. simpl.
  destruct (tools_dict l !! name) as [t|] eqn:Hn; simpl; [|reflexivity].
  split; [reflexivity|].
  intros other Hne. rewrite lookup_insert_ne; congruence.
Qed.

(** ** The listing parser *)

Lemma get_tools_from_md_miss (E : env) (u : string) (w : world) (r : response) :
  cached_tools_dict w !! u = None -> http_get E u = Some r ->
  get_tools_from_md E u w
  = (Return (snd (parse_md (text r) u)),
     set_cache <[url_var (fst (parse_md (text r) u)) := snd (parse_md (text r) u)]>
               (log_request u w)).
Proof.
  intros Hmiss Hget. unfold get_tools_from_md, bind, gets, requests_get, modify, ret.
  simpl. rewrite Hmiss. unfold bind, modify. simpl. rewrite Hget. simpl.
  destruct (parse_md (text r) u) as [l tools]. reflexivity.
Qed.

Lemma get_tools_from_md_hit (E : env) (u : string) (w : world) (tools : gmap string tool) :
  cached_tools_dict w !! u = Some tools ->
  get_tools_from_md E u w = (Return tools, w).
Proof.
  intros Hhit. unfold get_tools_from_md, bind, gets, ret. simpl. rewrite Hhit. reflexivity.
Qed.

Lemma get_tools_from_md_down (E : env) (u : string) (w : world) :
  cached_tools_dict w !! u = None -> http_get E u = None ->
  get_tools_from_md E u w = (Raise ConnectionError, log_request u w).
Proof.
  intros Hmiss Hget. unfold get_tools_from_md, bind, gets, requests_get, modify, raise.
  simpl. rewrite Hmiss. unfold bind. simpl. rewrite Hget. reflexivity.
Qed.

(** C8. A document with the row [| [Foo][f] ... | [g] |] and the lines
    [[f]: http://x] and [[g]: http://y], fetched on a cache miss, parses
    to the single entry [Foo] with url [http://x] and description
    [http://y]. *)
Theorem foo_resolved_through_both_labels (E : env) (u : string) (w : world) (r : response) :
  cached_tools_dict w !! u = None -> http_get E u = Some r ->
  text r = doc8 \/ text r = doc8_defs_first \/ text r = doc8_with_header ->
  findall true PATTERN_NAME_URL_DESCRIPTION (text r) = [["Foo"; "f"; "[g]"]]
  /\ fst (get_tools_from_md E u w) = Return {[ "Foo" := Tool "http://x" "http://y" ]}.
Proof.
  intros Hmiss Hget Hdoc.
  rewrite (get_tools_from_md_miss E u w r Hmiss Hget). simpl.
  destruct Hdoc as [-> | [-> | ->]]; split; vm_compute; reflexivity.
Qed.

Lemma foo_resolved_through_both_labels_witness :
  fst (get_tools_from_md (serving "http://listing/Cat.md" doc8) "http://listing/Cat.md" (fresh ∅))
  = Return {[ "Foo" := Tool "http://x" "http://y" ]}.
Proof.
  exact (proj2 (foo_resolved_through_both_labels
                  (serving "http://listing/Cat.md" doc8) "http://listing/Cat.md" (fresh ∅)
                  (Response doc8 doc8) eq_refl eq_refl (or_introl eq_refl))).
Defined.

Lemma parse_md_lookup (md v name : string) (t : tool) :
  snd (parse_md md v) !! name = Some t
  <-> tools_dict (fst (parse_md md v)) !! name = Some t /\ url t <> "".
Proof.
  unfold parse_md. simpl. rewrite map_lookup_filter_Some. unfold has_url. simpl.
  reflexivity.
Qed.

Lemma get_tools_from_md_cases (E : env) (u : string) (w : world) :
  (exists tools, cached_tools_dict w !! u = Some tools
                 /\ get_tools_from_md E u w = (Return tools, w))
  \/ (cached_tools_dict w !! u = None /\ http_get E u = None
       /\ get_tools_from_md E u w = (Raise ConnectionError, log_request u w))
  \/ (exists r, cached_tools_dict w !! u = None /\ http_get E u = Some r
                 /\ get_tools_from_md E u w
                    = (Return (snd (parse_md (text r) u)),
                       set_cache <[url_var (fst (parse_md (text r) u))
                                   := snd (parse_md (text r) u)]> (log_request u w))).
Proof.
  destruct (cached_tools_dict w !! u) as [tools|] eqn:Hc.
  - left. exists tools. split; [reflexivity|]. apply get_tools_from_md_hit, Hc.
  - right. destruct (http_get E u) as [r|] eqn:Hg.
    + right. exists r. repeat split; try assumption. apply get_tools_from_md_miss; assumption.
    + left. repeat split; try assumption. apply get_tools_from_md_down; assumption.
Qed.

Lemma get_tools_from_md_sound (E : env) (u : string) (w : world) :
  cache_sound w -> cache_sound (snd (get_tools_from_md E u w)).
Proof.
  intros Hs.
  destruct (get_tools_from_md_cases E u w)
    as [(tools & _ & ->) | [(_ & _ & ->) | (r & _ & _ & ->)]]; simpl; try exact Hs.
  intros v tools name t. unfold cache_sound in Hs. simpl.
  destruct (decide (url_var (fst (parse_md (text r) u)) = v)) as [<-|Hne].
  - rewrite lookup_insert_eq. intros [= <-] Hn. apply parse_md_lookup in Hn. tauto.
  - rewrite lookup_insert_ne by assumption. apply Hs.
Qed.

Lemma parsed_only_sound (w : world) : parsed_only w -> cache_sound w.
Proof.
  induction 1 as [w Hw | E u w _ IH].
  - intros u tools name t. rewrite Hw, lookup_empty. discriminate.
  - apply get_tools_from_md_sound, IH.
Qed.

(** The variable [url] ends as the url of the last definition line. *)
Lemma url_var_last_definition (l : locals) (defs : list (list string)) (name v : string) :
  url_var (foldl definition_step l (defs ++ [[name; v]])) = v.
Proof.
  rewrite foldl_app. simpl. unfold definition_step. simpl.
  destruct (tools_dict (foldl _ l defs) !! name); reflexivity.
Qed.

(** X12. After a parse of a document with a definition line, the result
    is in the cache under the url of the last definition line; when that
    is not the url of the document, nothing is cached under the url of
    the document and the next call for it fetches it again. *)
Lemma cache_miss_repeats (E : env) (u : string) (w : world) (r : response)
    (defs : list (list string)) (name v : string) :
  cached_tools_dict w !! u = None -> http_get E u = Some r ->
  findall true PATTERN_NAME_URL (text r) = defs ++ [[name; v]] -> v <> u ->
  let w1 := snd (get_tools_from_md E u w) in
  cached_tools_dict w1 !! u = None
  /\ cached_tools_dict w1 !! v = Some (snd (parse_md (text r) u))
  /\ requested (snd (get_tools_from_md E u w1)) = requested w ++ [u; u].
Proof.
  intros Hmiss Hget Hdefs Hne w1. subst w1.
  rewrite (get_tools_from_md_miss E u w r Hmiss Hget).
  assert (Hkey : url_var (fst (parse_md (text r) u)) = v).
  { unfold parse_md. simpl. rewrite Hdefs. apply url_var_last_definition. }
  rewrite Hkey. cbn [snd].
  set (w1 := set_cache _ (log_request u w)).
  assert (Hmiss1 : cached_tools_dict w1 !! u = None)
    by (subst w1; simpl; rewrite lookup_insert_ne; assumption).
  split; [exact Hmiss1|]. split; [apply lookup_insert_eq|].
  rewrite (get_tools_from_md_miss E u w1 r Hmiss1 Hget). simpl.
  rewrite <- app_assoc. reflexivity.
Qed.

(** C2. On the listing [doc_defined] the first call stores its result
    under [http://x], the url of the last definition line, and nothing
    under the url of the document; the second call with the document's
    url therefore misses the cache and fetches the document again. What
    it returns is equal to the first result as long as the network
    serves the same text. *)
Theorem second_parse_fetches_again :
  let E := serving listing_url doc_defined in
  let first := get_tools_from_md E listing_url (fresh ∅) in
  let second := get_tools_from_md E listing_url (snd first) in
  fst first = Return {[ "Foo" := Tool "http://x" "A tool" ]}
  /\ cached_tools_dict (snd first) !! listing_url = None
  /\ cached_tools_dict (snd first) !! "http://x" = Some {[ "Foo" := Tool "http://x" "A tool" ]}
  /\ requested (snd first) = [listing_url]
  /\ requested (snd second) = [listing_url; listing_url]
  /\ fst second = fst first.
Proof.
  repeat split; vm_compute; reflexivity.
Qed.

(** ** The gist installer *)

Lemma collect_py_files_objects (values : list json) : forall py_files,
  forallb is_object values = true ->
  collect_py_files values py_files = Return (py_files ++ List.filter is_python_file values).
Proof.
  induction values as [|v values IH]; intros acc Hobj; simpl.
  - rewrite app_nil_r. reflexivity.
  - simpl in Hobj. apply andb_true_iff in Hobj as [Hv Hrest].
    destruct v as [| | | |items|members]; try discriminate. simpl.
    destruct (member_of "language" members) as [lang|]; [|apply IH, Hrest].
    destruct lang as [| | |lang| |]; try (apply IH, Hrest).
    destruct (String.eqb lang "Python") eqn:Hl.
    + apply String.eqb_eq in Hl. subst lang. rewrite IH by assumption.
      rewrite <- app_assoc. reflexivity.
    + assert (Hne : lang <> "Python") by (apply String.eqb_neq, Hl).
      clear Hl.
      repeat (destruct lang as [|[[] [] [] [] [] [] [] []] lang];
              try (apply IH, Hrest); try congruence).
Qed.

Lemma download_counts_python_files (E : env) (url gist_id : string)
    (members : list (string * json)) (w : world) :
  serves_gist E url gist_id members ->
  let n := List.length (List.filter is_python_file (map snd members)) in
  n <> 1 ->
  GistInstaller_download E url w
  = (Raise (if Nat.eqb n 0 then NoFilesInGistError else MultipleFilesInGistError),
     log_request (gist_api +:+ gist_id) w).
Proof.
  intros (Hid & Hne & r & info & Hget & Hjson & Hfiles & Hobj) n Hn.
  unfold GistInstaller_download. rewrite Hid.
  assert (Ht : truthy_id (Some gist_id) = true) by (destruct gist_id; [congruence|reflexivity]).
  rewrite Ht. simpl default.
  unfold bind at 1. unfold try_except, bind, requests_get, modify, lift, ret, raise.
  unfold gist_api in *. simpl in Hget |- *. rewrite Hget. simpl. rewrite Hjson. simpl. rewrite Hfiles. simpl.
  rewrite (collect_py_files_objects _ [] Hobj). simpl. fold n.
  destruct n as [|[|n]]; [reflexivity | congruence | reflexivity].
Qed.

(** C5. When the gist of [url] is served and its file set has no file
    declared with the language [Python], [install] raises
    [NoFilesInGistError]; with more than one such file it raises
    [MultipleFilesInGistError]. In both cases the world afterwards is
    the world before with the request to the gist API logged: nothing on
    the disk has changed. *)
Theorem gist_needs_exactly_one_python_file (E : env) (url gist_id target_folder : string)
    (members : list (string * json)) (w : world) :
  serves_gist E url gist_id members ->
  let n := List.length (List.filter is_python_file (map snd members)) in
  n <> 1 ->
  GistInstaller_install E url target_folder w
  = (Raise (if Nat.eqb n 0 then NoFilesInGistError else MultipleFilesInGistError),
     log_request (gist_api +:+ gist_id) w)
  /\ disk (snd (GistInstaller_install E url target_folder w)) = disk w.
Proof.
  intros Hs n Hn.
  assert (Hi : GistInstaller_install E url target_folder w
               = (Raise (if Nat.eqb n 0 then NoFilesInGistError else MultipleFilesInGistError),
                  log_request (gist_api +:+ gist_id) w)).
  { unfold GistInstaller_install, bind.
    rewrite (download_counts_python_files E url gist_id members w Hs Hn). reflexivity. }
  rewrite Hi. split; reflexivity.
Qed.

Lemma serves_gist_example (files : list (string * json)) :
  forallb is_object (map snd files) = true ->
  serves_gist (serving_gist files) gist_url "abcdef1234567890" files.
Proof.
  intros Hobj. split; [vm_compute; reflexivity|]. split; [discriminate|].
  exists (Response "{...}" "{...}"), (JObj [("files", JObj files)]).
  repeat split; try reflexivity. exact Hobj.
Qed.

Lemma gist_needs_exactly_one_python_file_witness :
  GistInstaller_install (serving_gist two_python_files) gist_url "/t" (fresh ∅)
  = (Raise MultipleFilesInGistError, log_request (gist_api +:+ "abcdef1234567890") (fresh ∅))
  /\ GistInstaller_install (serving_gist no_python_file) gist_url "/t" (fresh ∅)
     = (Raise NoFilesInGistError, log_request (gist_api +:+ "abcdef1234567890") (fresh ∅)).
Proof.
  split.
  - apply (gist_needs_exactly_one_python_file (serving_gist two_python_files) gist_url
             "abcdef1234567890" "/t" two_python_files (fresh ∅)).
    + apply serves_gist_example. reflexivity.
    + simpl. lia.
  - apply (gist_needs_exactly_one_python_file (serving_gist no_python_file) gist_url
             "abcdef1234567890" "/t" no_python_file (fresh ∅)).
    + apply serves_gist_example. reflexivity.
    + simpl. lia.
Defined.

(** ** The file system *)

Lemma dir_at_insert_fresh (d : gmap (list string) fnode) (k' : list string) (n : fnode) :
  d !! k' = None -> forall k, dir_at d k = true -> dir_at (<[k' := n]> d) k = true.
Proof.
  intros Hfresh k. induction k as [|x k IH]; simpl; [reflexivity|].
  destruct (d !! (x :: k)) as [[|data]|] eqn:Hk; try discriminate.
  intros Hd. rewrite lookup_insert_ne by congruence. rewrite Hk. apply IH, Hd.
Qed.

Lemma dir_at_node (d : gmap (list string) fnode) (k : list string) :
  dir_at d k = true -> node_at d k = Some Dir.
Proof.
  destruct k as [|x k]; simpl; [reflexivity|].
  destruct (d !! (x :: k)) as [[|data]|]; intros H; (reflexivity || discriminate H).
Qed.

Lemma dir_at_suffix (d : gmap (list string) fnode) (l k : list string) :
  dir_at d (l ++ k) = true -> dir_at d k = true.
Proof.
  induction l as [|x l IH]; simpl; [auto|].
  destruct (d !! (x :: l ++ k)) as [[|data]|]; try discriminate. exact IH.
Qed.

Lemma is_dot_false (c : string) :
  is_dot c = false -> String.eqb c "." = false /\ String.eqb c ".." = false.
Proof. unfold is_dot. intros H. apply orb_false_iff in H. exact H. Qed.

Lemma forallb_rev_same {A} (f : A -> bool) (l : list A) :
  forallb f (rev l) = forallb f l.
Proof.
  induction l as [|x l IH]; simpl; [reflexivity|].
  rewrite forallb_app, IH. simpl. rewrite andb_true_r. apply andb_comm.
Qed.

(** Without [.] and [..] a walk is a descent: it arrives when every
    directory on the way is there. *)
Lemma walk_dotless (d : gmap (list string) fnode) : forall comps cur x parent,
  forallb (fun c => negb (is_dot c)) comps = true -> dir_at d cur = true ->
  rev comps = x :: parent ->
  walk d cur comps
  = if dir_at d (parent ++ cur) then Some (x :: parent ++ cur) else None.
Proof.
  induction comps as [|c rest IH]; intros cur x parent Hdots Hcur Hrev; [discriminate Hrev|].
  simpl in Hdots. apply andb_true_iff in Hdots as [Hc Hrest].
  apply negb_true_iff in Hc. apply is_dot_false in Hc as [Hc1 Hc2].
  cbn [walk]. rewrite (dir_at_node d cur Hcur), Hc1, Hc2.
  destruct rest as [|r rest'].
  - simpl in Hrev. injection Hrev as <- <-. simpl. rewrite Hcur. reflexivity.
  - destruct (rev (r :: rest')) as [|x' parent'] eqn:Hr.
    { apply (f_equal (@List.length string)) in Hr. rewrite length_rev in Hr. discriminate Hr. }
    change (rev (c :: r :: rest')) with (rev (r :: rest') ++ [c]) in Hrev.
    rewrite Hr in Hrev. simpl in Hrev. injection Hrev as <- <-.
    rewrite <- app_assoc. simpl.
    destruct (dir_at d (c :: cur)) eqn:Hdc.
    + apply (IH (c :: cur) x' parent' Hrest Hdc eq_refl).
    + assert (Hno : dir_at d (parent' ++ c :: cur) = false).
      { destruct (dir_at d (parent' ++ c :: cur)) eqn:Hd; [|reflexivity].
        apply dir_at_suffix in Hd. congruence. }
      rewrite Hno. cbn [walk].
      simpl in Hdc. rewrite Hcur in Hdc. cbn [node_at].
      destruct (d !! (c :: cur)) as [[|data]|]; [discriminate Hdc | reflexivity | reflexivity].
Qed.

Lemma dir_key_dotless (d : gmap (list string) fnode) (comps : list string) :
  forallb (fun c => negb (is_dot c)) comps = true ->
  dir_key d comps = if dir_at d (rev comps) then Some (rev comps) else None.
Proof.
  intros Hdots. unfold dir_key. destruct (rev comps) as [|x parent] eqn:Hrev.
  - assert (comps = []) as ->.
    { destruct comps as [|c l]; [reflexivity|].
      apply (f_equal (@List.length string)) in Hrev. rewrite length_rev in Hrev.
      discriminate Hrev. }
    reflexivity.
  - rewrite (walk_dotless d comps [] x parent Hdots eq_refl Hrev), app_nil_r.
    simpl. destruct (dir_at d parent) eqn:Hp.
    + cbn [node_at]. destruct (d !! (x :: parent)) as [[|data]|]; reflexivity.
    + destruct (d !! (x :: parent)) as [[|data]|]; reflexivity.
Qed.

Lemma has_nul_append (s1 s2 : string) : has_nul (s1 +:+ s2) = has_nul s1 || has_nul s2.
Proof.
  unfold has_nul. induction s1 as [|a s1 IH]; [reflexivity|].
  cbn [String.append list_ascii_of_string existsb]. rewrite IH. apply orb_assoc.
Qed.

Lemma components_from_no_nul (p : string) : forall cur,
  has_nul cur = false -> has_nul p = false ->
  forallb (fun c => negb (has_nul c)) (components_from cur p) = true.
Proof.
  induction p as [|a p IH]; intros cur Hcur Hp.
  - destruct cur; [reflexivity|]. simpl. rewrite Hcur. reflexivity.
  - assert (Ha : Ascii.eqb "000" a = false /\ has_nul p = false).
    { unfold has_nul in Hp. cbn [list_ascii_of_string existsb] in Hp.
      apply orb_false_iff in Hp. exact Hp. }
    destruct Ha as [Ha Hp']. cbn [components_from].
    destruct (Ascii.eqb a "/").
    + destruct cur; [apply IH; [reflexivity | exact Hp']|].
      cbn [forallb]. rewrite Hcur. apply IH; [reflexivity | exact Hp'].
    + apply IH; [|exact Hp'].
      rewrite has_nul_append, Hcur. unfold has_nul.
      cbn [list_ascii_of_string existsb orb]. rewrite Ha. reflexivity.
Qed.

Lemma components_no_nul (p : string) :
  has_nul p = false -> forallb (fun c => negb (has_nul c)) (components p) = true.
Proof. intros H. apply components_from_no_nul; [reflexivity | exact H]. Qed.

Lemma ordinary_path_facts (p : string) :
  ordinary_path p = true ->
  String.eqb p "" = false /\ has_nul p = false
  /\ forallb (fun c => negb (is_dot c)) (components p) = true.
Proof.
  unfold ordinary_path. intros H.
  apply andb_true_iff in H as [H Hdots]. apply andb_true_iff in H as [Hne Hnul].
  apply negb_true_iff in Hne, Hnul. auto.
Qed.

Lemma plain_path_ordinary (p : string) : plain_path p = true -> ordinary_path p = true.
Proof. unfold plain_path. intros H. apply andb_true_iff in H as [_ H]. exact H. Qed.

(** What an ordinary path names: the node under its key, when the
    directories above it are there. *)
Lemma lookup_path_ordinary (d : gmap (list string) fnode) (p : string) :
  ordinary_path p = true ->
  lookup_path d p
  = match key p with
    | [] => Some Dir
    | _ :: parent =>
        if dir_at d parent then
          match d !! key p with
          | Some (File data) => if endswith_char p "/" then None else Some (File data)
          | o => o
          end
        else None
    end.
Proof.
  intros Hord. apply ordinary_path_facts in Hord as (Hne & Hnul & Hdots).
  unfold lookup_path, key. rewrite Hne, Hnul. cbn [orb].
  destruct (rev (components p)) as [|x parent] eqn:Hrev.
  - assert (components p = []) as ->.
    { destruct (components p) as [|c l]; [reflexivity|].
      apply (f_equal (@List.length string)) in Hrev. rewrite length_rev in Hrev.
      discriminate Hrev. }
    reflexivity.
  - rewrite (walk_dotless d _ [] x parent Hdots eq_refl Hrev), app_nil_r.
    destruct (dir_at d parent); reflexivity.
Qed.


Lemma lookup_path_dir_at (d : gmap (list string) fnode) (p : string) :
  ordinary_path p = true -> lookup_path d p = Some Dir -> dir_at d (key p) = true.
Proof.
  intros Hord. rewrite (lookup_path_ordinary d p Hord).
  destruct (key p) as [|x parent] eqn:Hk; [reflexivity|].
  destruct (dir_at d parent) eqn:Hd; [|discriminate].
  simpl. destruct (d !! (x :: parent)) as [[|data]|]; try discriminate.
  - intros _. exact Hd.
  - destruct (endswith_char p "/"); discriminate.
Qed.

Lemma lookup_path_new_dir (d : gmap (list string) fnode) (p : string) (x : string)
    (parent : list string) :
  ordinary_path p = true ->
  key p = x :: parent -> dir_at d parent = true -> d !! (x :: parent) = None ->
  lookup_path (<[x :: parent := Dir]> d) p = Some Dir.
Proof.
  intros Hord Hk Hd Hfresh. rewrite (lookup_path_ordinary _ p Hord), Hk.
  rewrite (dir_at_insert_fresh d (x :: parent) Dir Hfresh parent Hd).
  rewrite lookup_insert_eq. reflexivity.
Qed.

(** ** [mkdir] and [makedirs] *)


Lemma mkdir_at_made (d d' : gmap (list string) fnode) (x : string) (parent : list string) :
  forallb (fun c => negb (is_dot c)) parent = true ->
  mkdir_at d (x :: parent) = (Made, d') ->
  dir_at d parent = true /\ d !! (x :: parent) = None /\ d' = <[x :: parent := Dir]> d.
Proof.
  intros Hdots. unfold mkdir_at. destruct (has_nul x); [discriminate|].
  rewrite dir_key_dotless by (rewrite forallb_rev_same; exact Hdots).
  rewrite rev_involutive. destruct (dir_at d parent); [|discriminate].
  destruct (is_dot x); [discriminate|].
  destruct (d !! (x :: parent)) as [n|]; [discriminate|].
  intros [= <-]. auto.
Qed.

Lemma mkdir_at_not_bad (d : gmap (list string) fnode) (rk : list string) :
  forallb (fun c => negb (has_nul c)) rk = true -> fst (mkdir_at d rk) <> BadName.
Proof.
  destruct rk as [|x parent]; [discriminate|]. simpl. intros H.
  apply andb_true_iff in H as [Hx _]. apply negb_true_iff in Hx. rewrite Hx.
  destruct (dir_key d (rev parent)); [|discriminate].
  destruct (is_dot x); [discriminate|].
  destruct (d !! (x :: l)); discriminate.
Qed.

Lemma makedirs_at_not_bad (rk : list string) : forall d,
  forallb (fun c => negb (has_nul c)) rk = true -> fst (makedirs_at d rk) <> BadName.
Proof.
  induction rk as [|x parent IH]; intros d Hn; [discriminate|].
  cbn [makedirs_at]. destruct parent as [|y above]; [apply mkdir_at_not_bad, Hn|].
  destruct (exists_at d (y :: above)); [apply mkdir_at_not_bad, Hn|].
  assert (Hp : forallb (fun c => negb (has_nul c)) (y :: above) = true).
  { simpl in Hn. apply andb_true_iff in Hn as [_ Hn]. exact Hn. }
  specialize (IH d Hp).
  destruct (makedirs_at d (y :: above)) as [[| | |] d1]; cbn [fst] in IH |- *;
    try discriminate; try congruence;
    (destruct (String.eqb x "."); [discriminate | apply mkdir_at_not_bad, Hn]).
Qed.

(** When [makedirs] makes an ordinary path its last step is the [mkdir]
    of the path itself. *)
Lemma makedirs_at_made (d d' : gmap (list string) fnode) (x : string)
    (parent : list string) :
  is_dot x = false ->
  makedirs_at d (x :: parent) = (Made, d') ->
  exists d1, mkdir_at d1 (x :: parent) = (Made, d').
Proof.
  intros Hdot. apply is_dot_false in Hdot as [Hdot _].
  cbn [makedirs_at]. destruct parent as [|y above]; [intros H; exists d; exact H|].
  destruct (exists_at d (y :: above)); [intros H; exists d; exact H|].
  destruct (makedirs_at d (y :: above)) as [[| | |] d1]; try discriminate;
    rewrite Hdot; intros H; exists d1; exact H.
Qed.



Lemma ordinary_key_facts (p : string) (x : string) (parent : list string) :
  ordinary_path p = true -> key p = x :: parent ->
  has_nul x = false /\ is_dot x = false
  /\ forallb (fun c => negb (has_nul c)) (x :: parent) = true
  /\ forallb (fun c => negb (is_dot c)) parent = true.
Proof.
  intros Hord Hk. apply ordinary_path_facts in Hord as (_ & Hnul & Hdots).
  apply components_no_nul in Hnul.
  rewrite <- (forallb_rev_same _ (components p)) in Hnul.
  rewrite <- (forallb_rev_same _ (components p)) in Hdots.
  fold (key p) in Hnul, Hdots. rewrite Hk in Hnul, Hdots.
  pose proof Hnul as Hall. simpl in Hnul, Hdots.
  apply andb_true_iff in Hnul as [Hx _]. apply andb_true_iff in Hdots as [Hd Hp].
  apply negb_true_iff in Hx, Hd. auto.
Qed.

(** What [os.makedirs] does with an ordinary path, case by case. *)
Lemma os_makedirs_cases (p : string) (w : world) :
  ordinary_path p = true ->
  (fst (os_makedirs p w) = Return tt
   /\ lookup_path (disk (snd (os_makedirs p w))) p = Some Dir
   /\ snd (os_makedirs p w) = set_disk (disk (snd (os_makedirs p w))) w)
  \/ (fst (os_makedirs p w) = Raise OSError
       /\ snd (os_makedirs p w) = set_disk (disk (snd (os_makedirs p w))) w).
Proof.
  intros Hord. unfold os_makedirs. destruct (key p) as [|x parent] eqn:Hk.
  - right. split; reflexivity.
  - destruct (ordinary_key_facts p x parent Hord Hk) as (Hx & Hdot & Hall & Hdots).
    assert (Hp : existsb has_nul (List.tl (x :: parent)) = false).
    { simpl in Hall |- *. apply andb_true_iff in Hall as [_ Hall].
      clear -Hall. induction parent as [|y l IH]; [reflexivity|].
      simpl in Hall |- *. apply andb_true_iff in Hall as [Hy Hl].
      apply negb_true_iff in Hy. rewrite Hy. apply IH, Hl. }
    rewrite Hp.
    pose proof (makedirs_at_not_bad (x :: parent) (disk w) Hall) as Hbad.
    destruct (makedirs_at (disk w) (x :: parent)) as [[| | |] d'] eqn:Hm; simpl in Hbad |- *.
    + left. repeat split.
      destruct (makedirs_at_made _ _ _ _ Hdot Hm) as [d1 Hd1].
      destruct (mkdir_at_made _ _ _ _ Hdots Hd1) as (Hdir & Hfresh & ->).
      apply lookup_path_new_dir; assumption.
    + right. split; reflexivity.
    + right. split; reflexivity.
    + congruence.
Qed.

(** ** Writing and removing *)

Lemma write_file_ordinary (p data : string) (w : world) :
  ordinary_path p = true ->
  write_file p data w
  = match key p with
    | [] => (Raise IOError, w)
    | _ :: parent =>
        if dir_at (disk w) parent && negb (endswith_char p "/") then
          match disk w !! key p with
          | Some Dir => (Raise IOError, w)
          | _ => (Return tt, set_disk (<[key p := File data]> (disk w)) w)
          end
        else (Raise IOError, w)
    end.
Proof.
  intros Hord. unfold write_file.
  destruct (ordinary_path_facts p Hord) as (_ & Hnul & _). rewrite Hnul.
  destruct (key p) as [|x parent] eqn:Hk; [reflexivity|].
  destruct (ordinary_key_facts p x parent Hord Hk) as (_ & Hdot & _ & Hdots).
  rewrite Hdot, orb_false_r.
  rewrite dir_key_dotless by (rewrite forallb_rev_same; exact Hdots).
  rewrite rev_involutive.
  destruct (endswith_char p "/"); [rewrite andb_false_r; reflexivity|].
  rewrite andb_true_r. destruct (dir_at (disk w) parent); reflexivity.
Qed.


Lemma dir_at_filter_not_inside (d : gmap (list string) fnode) (k : list string) :
  forall l, l `suffix_of` k ->
  dir_at (filter (not_inside k) d) l = dir_at d l.
Proof.
  induction l as [|x l IH]; intros Hl; [reflexivity|]. cbn [dir_at].
  assert (Hsame : filter (not_inside k) d !! (x :: l) = d !! (x :: l)).
  { destruct (d !! (x :: l)) as [n|] eqn:Hd.
    - apply map_lookup_filter_Some. split; [exact Hd|].
      unfold not_inside, below. simpl. intros Hb.
      apply (anti_symm suffix); assumption.
    - apply map_lookup_filter_None. left. exact Hd. }
  rewrite Hsame. destruct (d !! (x :: l)) as [[|data]|]; try reflexivity.
  apply IH. etransitivity; [|exact Hl]. apply suffix_cons_r. reflexivity.
Qed.

(** [shutil.rmtree] of an ordinary path that is not the root removes
    the directory and all that is in it, or raises and changes nothing. *)
Lemma shutil_rmtree_plain (p : string) (w : world) :
  plain_path p = true ->
  shutil_rmtree p w
  = match lookup_path (disk w) p with
    | Some Dir => (Return tt, set_disk (filter (outside (key p)) (disk w)) w)
    | _ => (Raise OSError, w)
    end.
Proof.
  intros Hplain. pose proof (plain_path_ordinary p Hplain) as Hord.
  destruct (ordinary_path_facts p Hord) as (Hne & Hnul & Hdots).
  unfold shutil_rmtree. rewrite Hnul, Hne, (lookup_path_ordinary _ p Hord).
  rewrite (dir_key_dotless (disk w)) by exact Hdots. fold (key p).
  destruct (key p) as [|x parent] eqn:Hk.
  { unfold plain_path in Hplain. apply andb_true_iff in Hplain as [Hlen _].
    unfold key in Hk. destruct (components p) as [|c l]; [discriminate Hlen|].
    apply (f_equal (@List.length string)) in Hk. rewrite length_rev in Hk.
    discriminate Hk. }
  destruct (ordinary_key_facts p x parent Hord Hk) as (_ & Hdot & _ & _).
  destruct (dir_at (disk w) (x :: parent)) eqn:Hdx.
  - cbv zeta. rewrite Hdot. cbn [negb andb].
    rewrite (dir_key_dotless _ _ Hdots). fold (key p). rewrite Hk.
    rewrite (dir_at_filter_not_inside (disk w) (x :: parent) (x :: parent))
      by reflexivity.
    rewrite Hdx, bool_decide_eq_true_2 by reflexivity.
    cbn [dir_at] in Hdx.
    destruct (disk w !! (x :: parent)) as [[|data]|]; try discriminate Hdx.
    rewrite Hdx. reflexivity.
  - cbn [dir_at] in Hdx.
    destruct (disk w !! (x :: parent)) as [[|data]|].
    + rewrite Hdx. reflexivity.
    + destruct (dir_at (disk w) parent); [|reflexivity].
      destruct (endswith_char p "/"); reflexivity.
    + destruct (dir_at (disk w) parent); reflexivity.
Qed.

Lemma rmtree_removes (d : gmap (list string) fnode) (p : string) :
  plain_path p = true -> lookup_path (filter (outside (key p)) d) p = None.
Proof.
  intros Hplain. rewrite (lookup_path_ordinary _ p (plain_path_ordinary p Hplain)).
  destruct (key p) as [|x parent] eqn:Hkey.
  { exfalso. unfold plain_path in Hplain. apply andb_true_iff in Hplain as [Hlen _].
    unfold key in Hkey. destruct (components p) as [|c l]; [discriminate Hlen|].
    apply (f_equal (@List.length string)) in Hkey. rewrite length_rev in Hkey.
    discriminate Hkey. }
  assert (Hgone : filter (outside (x :: parent)) d !! (x :: parent) = None).
  { apply map_lookup_filter_None. right. intros n _ Hout. apply Hout.
    unfold below. simpl. reflexivity. }
  rewrite Hgone. destruct (dir_at _ parent); reflexivity.
Qed.

(** ** Installing and uninstalling *)

Section Orchestration.
Variable E : env.
Variables c t u : string.

Lemma _install_unknown (target : string) (w : world) :
  get_gist_id u = None -> get_github_user_repo u = NoMatch ->
  _install E c t u target w
  = (Return tt,
     log_hud (t +:+ " installed") "success"
       (set_sender (Button "  Uninstall  " (Some (DoUninstall c t u))) (log_browse u w))).
Proof.
  intros Hg Hr. unfold _install. rewrite Hg, Hr. reflexivity.
Qed.

Hypothesis Hnul : has_nul (get_target_folder E c t) = false.

Lemma install_steps (w : world) :
  install E c t u w
  = let w1 := set_sender (Button "  Loading  " (btn_action (sender w))) w in
    let target := get_target_folder E c t in
    match lookup_path (disk w) target with
    | Some _ => _install E c t u target w1
    | None =>
        match os_makedirs target w1 with
        | (Return _, w2) => _install E c t u target w2
        | (Raise e, w2) => (Raise e, w2)
        end
    end.
Proof.
  unfold install, bind, set_title, modify, os_path_exists, ret. rewrite Hnul. simpl.
  destruct (lookup_path (disk w) (get_target_folder E c t)) as [n|] eqn:Hl.
  - rewrite bool_decide_eq_true_2 by (eexists; reflexivity). reflexivity.
  - rewrite bool_decide_eq_false_2 by (intros [n Hn]; discriminate). reflexivity.
Qed.

Lemma is_tool_installed_steps (w : world) :
  fst (is_tool_installed E c t w)
  = Return (bool_decide (is_Some (lookup_path (disk w) (get_target_folder E c t)))).
Proof. unfold is_tool_installed, os_path_exists. rewrite Hnul. reflexivity. Qed.

Lemma uninstall_steps (w : world) :
  uninstall E c t u w
  = match lookup_path (disk w) (get_target_folder E c t) with
    | Some _ =>
        match shutil_rmtree (get_target_folder E c t) w with
        | (Return _, w1) => (Return tt, uninstalled c t u w1)
        | (Raise e, w1) => (Raise e, w1)
        end
    | None => (Return tt, uninstalled c t u w)
    end.
Proof.
  unfold uninstall, bind, set_title, set_action, console_hud_alert, modify,
    os_path_exists, ret, uninstalled. rewrite Hnul. simpl.
  destruct (lookup_path (disk w) (get_target_folder E c t)) as [n|] eqn:Hl.
  - rewrite bool_decide_eq_true_2 by (eexists; reflexivity).
    destruct (shutil_rmtree _ w) as [[[]|e] w1]; reflexivity.
  - rewrite bool_decide_eq_false_2 by (intros [n Hn]; discriminate). reflexivity.
Qed.

Lemma uninstall_absent (w : world) :
  lookup_path (disk w) (get_target_folder E c t) = None ->
  uninstall E c t u w = (Return tt, uninstalled c t u w).
Proof. intros Hl. rewrite uninstall_steps, Hl. reflexivity. Qed.

Lemma uninstall_directory (w : world) :
  plain_path (get_target_folder E c t) = true ->
  lookup_path (disk w) (get_target_folder E c t) = Some Dir ->
  uninstall E c t u w
  = (Return tt,
     uninstalled c t u
       (set_disk (filter (outside (key (get_target_folder E c t))) (disk w)) w)).
Proof.
  intros Hplain Hl. rewrite uninstall_steps, Hl, (shutil_rmtree_plain _ w Hplain), Hl.
  reflexivity.
Qed.

Lemma uninstall_file (w : world) (data : string) :
  plain_path (get_target_folder E c t) = true ->
  lookup_path (disk w) (get_target_folder E c t) = Some (File data) ->
  uninstall E c t u w = (Raise OSError, w).
Proof.
  intros Hplain Hl. rewrite uninstall_steps, Hl, (shutil_rmtree_plain _ w Hplain), Hl.
  reflexivity.
Qed.

End Orchestration.

Lemma plain_path_key (p : string) : plain_path p = true -> key p <> [].
Proof.
  unfold plain_path, key. intros H. apply andb_true_iff in H as [H _].
  destruct (components p); [discriminate|].
  simpl. intros Hrev. apply app_eq_nil in Hrev as [_ Hrev]. discriminate.
Qed.

(** C6, as the code has it. The target path is an ordinary one: no NUL
    character, no component [.] or [..]. For a url that matches neither
    pattern, [install] first makes sure that the target folder is there
    and then opens the url in the browser and reports success: when it
    returns, the url has been opened, the alert says [installed] and
    [is_tool_installed] is true. It raises, [OSError], only when the
    target folder was missing and could not be created, and the url is
    not opened then. *)
Theorem unknown_url_is_marked_installed (E : env) (c t u : string) (w : world) :
  plain_path (get_target_folder E c t) = true ->
  get_gist_id u = None -> get_github_user_repo u = NoMatch ->
  let w' := snd (install E c t u w) in
  match fst (install E c t u w) with
  | Return _ =>
      browsed w' = browsed w ++ [u]
      /\ hud w' = hud w ++ [(t +:+ " installed", "success")]
      /\ fst (is_tool_installed E c t w') = Return true
  | Raise e =>
      e = OSError /\ browsed w' = browsed w
      /\ lookup_path (disk w) (get_target_folder E c t) = None
  end.
Proof.
  intros Hplain Hg Hr w'. subst w'.
  pose proof (plain_path_ordinary _ Hplain) as Hord.
  destruct (ordinary_path_facts _ Hord) as (_ & Hnul & _).
  rewrite (install_steps E c t u Hnul). cbv zeta.
  set (w1 := set_sender _ w).
  destruct (lookup_path (disk w) (get_target_folder E c t)) as [n|] eqn:Hl.
  - rewrite (_install_unknown E c t u _ w1 Hg Hr).
    split; [reflexivity|]. split; [reflexivity|].
    rewrite (is_tool_installed_steps E c t Hnul). simpl. rewrite Hl.
    rewrite bool_decide_eq_true_2 by (eexists; reflexivity). reflexivity.
  - destruct (os_makedirs_cases (get_target_folder E c t) w1 Hord)
      as [(Hr1 & Hd & Hw) | (Hr1 & Hw)];
      destruct (os_makedirs (get_target_folder E c t) w1) as [o w2];
      simpl in *; subst o.
    + rewrite (_install_unknown E c t u _ w2 Hg Hr).
      rewrite (is_tool_installed_steps E c t Hnul). simpl. rewrite Hd.
      rewrite bool_decide_eq_true_2 by (eexists; reflexivity).
      rewrite Hw. repeat split.
    + simpl. rewrite Hw. simpl. repeat split.
Qed.

Lemma unknown_url_is_marked_installed_witness :
  let E := serving "" "" in
  plain_path (get_target_folder E "cat" "tool") = true
  /\ get_gist_id itunes_url = None /\ get_github_user_repo itunes_url = NoMatch
  /\ let w' := snd (install E "cat" "tool" itunes_url (fresh ∅)) in
     match fst (install E "cat" "tool" itunes_url (fresh ∅)) with
     | Return _ =>
         browsed w' = browsed (fresh ∅) ++ [itunes_url]
         /\ hud w' = hud (fresh ∅) ++ [("tool" +:+ " installed", "success")]
         /\ fst (is_tool_installed E "cat" "tool" w') = Return true
     | Raise e =>
         e = OSError /\ browsed w' = browsed (fresh ∅)
         /\ lookup_path (disk (fresh ∅)) (get_target_folder E "cat" "tool") = None
     end.
Proof.
  split; [vm_compute; reflexivity|].
  split; [vm_compute; reflexivity|]. split; [vm_compute; reflexivity|].
  apply unknown_url_is_marked_installed; vm_compute; reflexivity.
Defined.

(** C6, as it is written, fails: after [install] of an iTunes link on an
    empty disk the url has been opened and [is_tool_installed] is true. *)
Lemma unknown_url_leaves_directory :
  ~ (forall (E : env) (c t u : string) (w : world),
       get_gist_id u = None -> get_github_user_repo u = NoMatch ->
       browsed (snd (install E c t u w)) = browsed w ++ [u]
       /\ fst (is_tool_installed E c t (snd (install E c t u w))) = Return false).
Proof.
  intros H.
  assert (Hg : get_gist_id itunes_url = None) by (vm_compute; reflexivity).
  assert (Hr : get_github_user_repo itunes_url = NoMatch) by (vm_compute; reflexivity).
  destruct (H (serving "" "") "cat" "tool" itunes_url (fresh ∅) Hg Hr) as [_ Hno].
  assert (Hyes : fst (is_tool_installed (serving "" "") "cat" "tool"
                        (snd (install (serving "" "") "cat" "tool" itunes_url (fresh ∅))))
                 = Return true) by (vm_compute; reflexivity).
  rewrite Hyes in Hno. discriminate Hno.
Qed.

(** C7, as the code has it. The target path is an ordinary one: not
    the root, no NUL character, no component [.] or [..]. When the
    target path is missing or is a directory, whatever it holds,
    [uninstall] returns and alerts [uninstalled] with the success icon;
    afterwards [is_tool_installed] is false, and a second [uninstall]
    returns and alerts success again and leaves the disk as it is. When
    a regular file stands at the target path, [is_tool_installed] is
    true, [shutil.rmtree] raises [OSError], which [uninstall] does not
    catch, and nothing changes. *)
Theorem uninstall_of_directory_or_nothing (E : env) (c t u : string) (w : world) :
  plain_path (get_target_folder E c t) = true ->
  match lookup_path (disk w) (get_target_folder E c t) with
  | Some (File _) =>
      fst (is_tool_installed E c t w) = Return true
      /\ uninstall E c t u w = (Raise OSError, w)
  | _ =>
      let w1 := snd (uninstall E c t u w) in
      let w2 := snd (uninstall E c t u w1) in
      fst (uninstall E c t u w) = Return tt
      /\ hud w1 = hud w ++ [(t +:+ " uninstalled", "success")]
      /\ fst (is_tool_installed E c t w1) = Return false
      /\ fst (uninstall E c t u w1) = Return tt
      /\ hud w2 = hud w1 ++ [(t +:+ " uninstalled", "success")]
      /\ disk w2 = disk w1
  end.
Proof.
  intros Hplain.
  destruct (ordinary_path_facts _ (plain_path_ordinary _ Hplain)) as (_ & Hnul & _).
  assert (Hafter : forall w1,
    lookup_path (disk w1) (get_target_folder E c t) = None ->
    fst (is_tool_installed E c t (uninstalled c t u w1)) = Return false
    /\ fst (uninstall E c t u (uninstalled c t u w1)) = Return tt
    /\ hud (snd (uninstall E c t u (uninstalled c t u w1)))
       = hud (uninstalled c t u w1) ++ [(t +:+ " uninstalled", "success")]
    /\ disk (snd (uninstall E c t u (uninstalled c t u w1))) = disk (uninstalled c t u w1)).
  { intros w1 Hl.
    assert (Hl' : lookup_path (disk (uninstalled c t u w1)) (get_target_folder E c t) = None)
      by exact Hl.
    rewrite (is_tool_installed_steps E c t Hnul), (uninstall_absent E c t u Hnul _ Hl'), Hl'.
    rewrite bool_decide_eq_false_2 by (intros [n Hn]; discriminate).
    repeat split. }
  destruct (lookup_path (disk w) (get_target_folder E c t)) as [[|data]|] eqn:Hl.
  - rewrite (uninstall_directory E c t u Hnul w Hplain Hl). cbv zeta.
    split; [reflexivity|]. split; [reflexivity|].
    apply Hafter. simpl. apply rmtree_removes, Hplain.
  - split; [|apply (uninstall_file E c t u Hnul w data Hplain Hl)].
    rewrite (is_tool_installed_steps E c t Hnul), Hl.
    rewrite bool_decide_eq_true_2 by (eexists; reflexivity). reflexivity.
  - rewrite (uninstall_absent E c t u Hnul w Hl). cbv zeta.
    split; [reflexivity|]. split; [reflexivity|].
    apply Hafter. exact Hl.
Qed.

Lemma uninstall_of_directory_or_nothing_witness :
  let E := serving "" "" in
  let w := fresh disk_with_tool in
  plain_path (get_target_folder E "cat" "tool") = true
  /\ lookup_path (disk w) (get_target_folder E "cat" "tool") = Some Dir
  /\ match lookup_path (disk w) (get_target_folder E "cat" "tool") with
     | Some (File _) =>
         fst (is_tool_installed E "cat" "tool" w) = Return true
         /\ uninstall E "cat" "tool" "" w = (Raise OSError, w)
     | _ =>
         let w1 := snd (uninstall E "cat" "tool" "" w) in
         let w2 := snd (uninstall E "cat" "tool" "" w1) in
         fst (uninstall E "cat" "tool" "" w) = Return tt
         /\ hud w1 = hud w ++ [("tool" +:+ " uninstalled", "success")]
         /\ fst (is_tool_installed E "cat" "tool" w1) = Return false
         /\ fst (uninstall E "cat" "tool" "" w1) = Return tt
         /\ hud w2 = hud w1 ++ [("tool" +:+ " uninstalled", "success")]
         /\ disk w2 = disk w1
     end.
Proof.
  split; [vm_compute; reflexivity|]. split; [vm_compute; reflexivity|].
  apply uninstall_of_directory_or_nothing. vm_compute; reflexivity.
Defined.

(** C7, as it is written, fails: with a regular file at the target path
    [is_tool_installed] is true and [uninstall] raises [OSError]. *)
Lemma uninstall_raises_on_regular_file :
  ~ (forall (E : env) (c t u : string) (w : world),
       fst (uninstall E c t u w) = Return tt
       /\ fst (is_tool_installed E c t (snd (uninstall E c t u w))) = Return false).
Proof.
  intros H.
  destruct (H (serving "" "") "cat" "tool" "" (fresh disk_with_file)) as [Hok _].
  assert (Hraise : fst (uninstall (serving "" "") "cat" "tool" "" (fresh disk_with_file))
                   = Raise OSError) by (vm_compute; reflexivity).
  rewrite Hraise in Hok. discriminate Hok.
Qed.

(** ** Paths *)

Lemma components_from_slash (t : string) : forall cur n,
  components_from cur (t +:+ String "/" n) = components_from cur t ++ components n.
Proof.
  induction t as [|a t IH]; intros cur n; simpl.
  - destruct cur; reflexivity.
  - destruct (Ascii.eqb a "/").
    + destruct cur; rewrite IH; reflexivity.
    + apply IH.
Qed.

Lemma endswith_char_split (t : string) (a : ascii) :
  endswith_char t a = true -> exists t', t = t' +:+ String a "".
Proof.
  induction t as [|b t IH]; simpl; [discriminate|].
  destruct t as [|c t].
  - intros H. apply Ascii.eqb_eq in H. subst b. exists "". reflexivity.
  - intros H. destruct (IH H) as [t' Ht']. exists (String b t'). simpl. rewrite <- Ht'.
    reflexivity.
Qed.

Lemma endswith_char_append (s n : string) (a : ascii) :
  n <> "" -> endswith_char (s +:+ n) a = endswith_char n a.
Proof.
  intros Hn. induction s as [|b s IH]; simpl; [reflexivity|].
  destruct (s +:+ n) eqn:Hsn; [|exact IH].
  destruct s; simpl in Hsn; [contradiction | discriminate].
Qed.

Lemma components_join2 (t rel : string) :
  startswith rel "/" = false ->
  components (join2 t rel) = components t ++ components rel.
Proof.
  intros Hrel. unfold join2. rewrite Hrel.
  destruct (String.eqb t "") eqn:Ht.
  - apply String.eqb_eq in Ht. subst t. reflexivity.
  - simpl. destruct (endswith_char t "/") eqn:He.
    + destruct (endswith_char_split t "/" He) as [t' ->].
      rewrite append_assoc. simpl. unfold components.
      rewrite !components_from_slash. simpl. rewrite app_nil_r. reflexivity.
    + unfold components. simpl. apply components_from_slash.
Qed.

Lemma key_join2 (t rel : string) :
  startswith rel "/" = false -> key (join2 t rel) = key rel ++ key t.
Proof.
  intros Hrel. unfold key. rewrite components_join2 by assumption. apply rev_app_distr.
Qed.

Lemma endswith_join2 (t rel : string) (a : ascii) :
  startswith rel "/" = false -> rel <> "" ->
  endswith_char (join2 t rel) a = endswith_char rel a.
Proof.
  intros Hrel Hne. unfold join2. rewrite Hrel.
  destruct (String.eqb t "" || endswith_char t "/").
  - apply endswith_char_append, Hne.
  - rewrite endswith_char_append by discriminate.
    apply (endswith_char_append "/" rel a Hne).
Qed.

(** ** The repository archive installer *)

Lemma ordinary_join2 (t rel : string) :
  ordinary_path t = true -> startswith rel "/" = false -> has_nul rel = false ->
  forallb (fun c => negb (is_dot c)) (components rel) = true ->
  ordinary_path (join2 t rel) = true.
Proof.
  intros Ht Hrel Hnul Hdots. apply ordinary_path_facts in Ht as (Hne & Htn & Htd).
  unfold ordinary_path. rewrite components_join2, forallb_app, Htd, Hdots by assumption.
  rewrite andb_true_r. apply andb_true_iff. split.
  - apply negb_true_iff. unfold join2. rewrite Hrel, Hne. cbn [orb].
    destruct t as [|a t]; [discriminate Hne|].
    destruct (endswith_char (String a t) "/"); reflexivity.
  - apply negb_true_iff. unfold join2. rewrite Hrel.
    destruct (String.eqb t "" || endswith_char t "/");
      rewrite !has_nul_append, Htn, Hnul; reflexivity.
Qed.





Lemma for_each_cons {A} (body : A -> M unit) (x : A) (l : list A) (w : world) :
  for_each body (x :: l) w
  = match body x w with
    | (Return _, w') => for_each body l w'
    | (Raise e, w') => (Raise e, w')
    end.
Proof. reflexivity. Qed.

Lemma extract_member_steps (members : list (string * string))
    (base_dir target_folder name data : string) (w : world) :
  zip_read members name = Some data ->
  extract_member members base_dir target_folder name w
  = let rel := split1_last name base_dir in
    if String.eqb rel "" then (Return tt, w)
    else if endswith_char (join2 target_folder rel) "/" then
      match os_path_exists (join2 target_folder rel) w with
      | (Return true, w') => (Return tt, w')
      | (Return false, w') => os_makedirs (join2 target_folder rel) w'
      | (Raise e, w') => (Raise e, w')
      end
    else write_file (join2 target_folder rel) data w.
Proof.
  intros Hread. unfold extract_member, bind, lift. rewrite Hread. cbv zeta.
  unfold os_path_join. cbn [foldl].
  destruct (String.eqb (split1_last name base_dir) ""); [reflexivity|].
  destruct (endswith_char (join2 target_folder (split1_last name base_dir)) "/");
    [|reflexivity].
  destruct (os_path_exists (join2 target_folder (split1_last name base_dir)) w)
    as [[[|]|e] w']; reflexivity.
Qed.


(** One turn of the loop over the members: the data read, and the name
    without the wrapper directory. *)
Ltac next_member data name rel :=
  rewrite for_each_cons, (extract_member_steps _ _ _ _ data) by reflexivity;
  change (split1_last name "tool-master/") with rel; cbv zeta.


(** The members of the archive, one at a time, on a folder that holds
    some of them already. *)
Section Extraction.
Variables (target_folder d1 d3 : string) (d : gmap (list string) fnode).
Hypothesis Hord : ordinary_path target_folder = true.
Hypothesis Hdir : dir_at d (key target_folder) = true.
Hypothesis Hmain : d !! ("main.py" :: key target_folder) = None.
Hypothesis Hlib : d !! ("lib" :: key target_folder) = None.
Hypothesis Hutil : d !! ("util.py" :: "lib" :: key target_folder) = None.






End Extraction.






(** The order of the entries matters: with [lib/util.py] listed before
    [lib/] the extraction raises [IOError] at [lib/util.py]. *)
Lemma extraction_needs_directory_first :
  fst (extract_zipfile
         (unzipping [("tool-master/", ""); ("tool-master/main.py", "print 1");
                     ("tool-master/lib/util.py", "print 2"); ("tool-master/lib/", "")])
         "/tmp/tool-master.zip" "/t" (fresh disk_before_extract))
  = Raise IOError.
Proof. vm_compute; reflexivity. Qed.

(** ** Labels of definition lines *)

Lemma greedy_inv (Q : caps -> Prop) (P : found -> Prop) (cs : cset)
    (k : option ascii -> string -> caps -> option found) :
  (forall a c, Q c -> Q (feed a c)) ->
  (forall prev s c m, Q c -> k prev s c = Some m -> P m) ->
  forall s prev c m, Q c -> greedy cs k prev s c = Some m -> P m.
Proof.
  intros Hfeed Hk. induction s as [|a s IH]; intros prev c m Hq; simpl.
  - apply Hk, Hq.
  - destruct (member cs a); [|apply Hk, Hq].
    destruct (greedy cs k (Some a) s (feed a c)) as [m'|] eqn:Hg.
    + intros [= <-]. apply (IH (Some a) (feed a c) m' (Hfeed a c Hq) Hg).
    + apply Hk, Hq.
Qed.

Lemma scan_Forall (P : list string -> Prop) (ml : bool) (r : regex) :
  (forall prev s m, run ml r prev s no_caps = Some m -> P (groups r m)) ->
  forall s prev skip, Forall P (scan ml r prev s skip).
Proof.
  intros Hrun. induction s as [|a s IH]; intros prev skip.
  - destruct skip; simpl; [|constructor].
    destruct (run ml r prev "" no_caps) eqn:Hr; constructor; eauto.
  - destruct skip; simpl; [|apply IH].
    destruct (run ml r prev (String a s) no_caps) eqn:Hr; [constructor; eauto|]; apply IH.
Qed.

(** The label of a definition line has at least one character. *)
Lemma definition_label_not_empty (prev : option ascii) (s : string) (m : found) :
  run true PATTERN_NAME_URL prev s no_caps = Some m -> group m 1 <> "".
Proof.
  unfold PATTERN_NAME_URL. simpl.
  destruct (at_bol true prev); [|discriminate].
  destruct s as [|a s]; [discriminate|]. destruct (Ascii.eqb a "["); [|discriminate].
  destruct s as [|b s]; [discriminate|].
  destruct (negb (Ascii.eqb b "]" || false)); [|discriminate].
  intros Hg.
  eapply (greedy_inv
            (fun c => exists t, t <> "" /\ opened c = [(1, t)] /\ closed c = [])
            (fun m => group m 1 <> "")); [ | | | exact Hg].
  - intros x [op cl] (t & Ht & Hop & Hcl). simpl in *. subst.
    exists (t +:+ String x ""). repeat split. destruct t; [congruence | discriminate].
  - clear. intros prev s [op cl] m (t & Ht & Hop & Hcl). simpl in *. subst.
    unfold close_group. simpl.
    destruct s as [|a s]; [discriminate|]. destruct (Ascii.eqb a "]"); [|discriminate].
    destruct s as [|b s]; [discriminate|]. destruct (Ascii.eqb b ":"); [|discriminate].
    intros Hg.
    eapply (greedy_inv (fun c => assoc 1 (closed c) = Some t)
                       (fun m => group m 1 <> "")); [ | | | exact Hg].
    + intros x c Hc. exact Hc.
    + intros prev1 s1 c1 m1 Hc1 Hg1.
      eapply (greedy_inv (fun c => assoc 1 (closed c) = Some t)
                         (fun m => group m 1 <> "")); [ | | | exact Hg1].
      * intros x c' Hc'. exact Hc'.
      * intros prev2 s2 c2 m2 Hc2 [= <-]. unfold group, close_group. simpl.
        destruct (assoc 2 (opened c2)); simpl; rewrite Hc2; exact Ht.
      * exact Hc1.
    + reflexivity.
  - exists (String b ""). repeat split. discriminate.
Qed.

Lemma definition_labels_not_empty (md : string) :
  Forall (fun def => nth 0 def "" <> "") (findall true PATTERN_NAME_URL md).
Proof.
  apply scan_Forall. intros prev s m Hrun.
  apply (definition_label_not_empty prev s m Hrun).
Qed.

Lemma rows_keep_other_names (name : string) (rows : list (list string)) : forall l,
  Forall (fun row => nth 0 row "" <> name) rows ->
  tools_dict (foldl row_step l rows) !! name = tools_dict l !! name.
Proof.
  induction rows as [|row rows IH]; intros l Hrows; simpl; [reflexivity|].
  inversion Hrows as [|? ? Hrow Hrest]; subst.
  rewrite IH by assumption. unfold row_step. simpl.
  apply lookup_insert_ne. exact Hrow.
Qed.

Lemma definitions_keep_empty_url (name : string) (defs : list (list string)) : forall l t,
  tools_dict l !! name = Some t -> url t = "" ->
  Forall (fun def => nth 0 def "" <> "") defs ->
  Forall (fun def => nth 0 def "" <> name) defs ->
  exists t', tools_dict (foldl definition_step l defs) !! name = Some t' /\ url t' = "".
Proof.
  induction defs as [|def defs IH]; intros l t Hl Hurl Hne Hname; simpl.
  - exists t. split; assumption.
  - inversion Hne as [|? ? Hne1 Hne2]; inversion Hname as [|? ? Hname1 Hname2]; subst.
    unfold definition_step at 2.
    destruct (tools_dict l !! nth 0 def "") as [other|] eqn:Hdef.
    + apply (IH _ t); try assumption. simpl.
      rewrite lookup_insert_ne by assumption. exact Hl.
    + apply (IH _ (substitute (nth 0 def "") (nth 1 def "") t)); try assumption.
      * simpl. rewrite lookup_fmap, Hl. reflexivity.
      * unfold substitute. destruct t as [its_url its_description].
        simpl in Hurl. subst its_url.
        destruct (decide ("" = nth 0 def "")) as [Heq|_]; [congruence|].
        destruct (decide _); reflexivity.
Qed.

(** A tool whose last row leaves the label slot empty, and whose name no
    definition line defines, is not in the result. *)
Lemma tool_without_definition_is_dropped (md v name desc : string)
    (before after : list (list string)) :
  findall true PATTERN_NAME_URL_DESCRIPTION md = before ++ [name; ""; desc] :: after ->
  Forall (fun row => nth 0 row "" <> name) after ->
  Forall (fun def => nth 0 def "" <> name) (findall true PATTERN_NAME_URL md) ->
  snd (parse_md md v) !! name = None.
Proof.
  intros Hrows Hafter Hdefs. unfold parse_md. simpl. rewrite Hrows.
  rewrite foldl_app. simpl.
  set (l1 := foldl row_step _ after).
  assert (Hl1 : tools_dict l1 !! name = Some (Tool "" (strip desc))).
  { subst l1. rewrite rows_keep_other_names by assumption.
    unfold row_step. simpl. apply lookup_insert_eq. }
  destruct (definitions_keep_empty_url name (findall true PATTERN_NAME_URL md) l1
              (Tool "" (strip desc)) Hl1 eq_refl (definition_labels_not_empty md) Hdefs)
    as (t' & Ht' & Hurl).
  apply map_lookup_filter_None. right. intros t Ht Hhas.
  rewrite Ht' in Ht. injection Ht as <-. apply Hhas. exact Hurl.
Qed.

(** X19. Every tool in the mapping that [get_tools_from_md] returns
    has a non-empty url, from the cache of a process that filled it by
    such calls only, or from a parse, and the call raises only when the
    document is not in the cache and cannot be fetched. A tool whose
    last row leaves the label slot empty and whose name has no
    definition line is not in the parse. *)
Theorem returned_tools_have_a_url (E : env) (u : string) (w : world) :
  parsed_only w ->
  match fst (get_tools_from_md E u w) with
  | Return tools => forall name t, tools !! name = Some t -> url t <> ""
  | Raise _ => cached_tools_dict w !! u = None /\ http_get E u = None
  end
  /\ (forall md v name desc before after,
        findall true PATTERN_NAME_URL_DESCRIPTION md
        = before ++ [name; ""; desc] :: after ->
        Forall (fun row => nth 0 row "" <> name) after ->
        Forall (fun def => nth 0 def "" <> name) (findall true PATTERN_NAME_URL md) ->
        snd (parse_md md v) !! name = None).
Proof.
  intros Hp. split; [|apply tool_without_definition_is_dropped].
  pose proof (parsed_only_sound w Hp) as Hs.
  destruct (get_tools_from_md_cases E u w)
    as [(tools & Hc & ->) | [(Hc & Hg & ->) | (r & _ & _ & ->)]]; simpl.
  - intros name t. apply (Hs u tools name t Hc).
  - split; assumption.
  - intros name t Hn. apply parse_md_lookup in Hn. tauto.
Qed.

Lemma returned_tools_have_a_url_witness :
  parsed_only (fresh ∅)
  /\ match fst (get_tools_from_md (serving listing_url doc_implicit) listing_url (fresh ∅)) with
     | Return tools => forall name t, tools !! name = Some t -> url t <> ""
     | Raise _ => cached_tools_dict (fresh ∅) !! listing_url = None
                  /\ http_get (serving listing_url doc_implicit) listing_url = None
     end
  /\ snd (parse_md doc_implicit listing_url) !! "Foo" = None.
Proof.
  split; [apply parsed_start; reflexivity|].
  destruct (returned_tools_have_a_url (serving listing_url doc_implicit) listing_url
              (fresh ∅) (parsed_start (fresh ∅) eq_refl)) as (H1 & H3).
  split; [exact H1|].
  apply (H3 doc_implicit listing_url "Foo" "A tool" [] [["Bar"; ""; "Another"]]).
  - vm_compute; reflexivity.
  - repeat constructor. discriminate.
  - assert (Hd : findall true PATTERN_NAME_URL doc_implicit
                 = [["Bar"; "https://github.com/bob/bar"]]) by (vm_compute; reflexivity).
    rewrite Hd. repeat constructor. discriminate.
Defined.

(** ** More about the patterns *)

Lemma greedy_inv_member (Q : caps -> Prop) (P : found -> Prop) (cs : cset)
    (k : option ascii -> string -> caps -> option found) :
  (forall a c, member cs a = true -> Q c -> Q (feed a c)) ->
  (forall prev s c m, Q c -> k prev s c = Some m -> P m) ->
  forall s prev c m, Q c -> greedy cs k prev s c = Some m -> P m.
Proof.
  intros Hfeed Hk. induction s as [|a s IH]; intros prev c m Hq; simpl.
  - apply Hk, Hq.
  - destruct (member cs a) eqn:Ha; [|apply Hk, Hq].
    destruct (greedy cs k (Some a) s (feed a c)) as [m'|] eqn:Hg.
    + intros [= <-]. apply (IH (Some a) (feed a c) m' (Hfeed a c Ha Hq) Hg).
    + apply Hk, Hq.
Qed.

(** A match of [r1 ++ r2] ends with a match of [r2] from some state. *)
Lemma run_app_tail (ml : bool) (r1 r2 : regex) : forall prev s c m,
  run ml (r1 ++ r2) prev s c = Some m ->
  exists prev' s' c', run ml r2 prev' s' c' = Some m.
Proof.
  induction r1 as [|n r1 IH]; intros prev s c m; [eauto|].
  assert (Hg : forall cs s prev c m, True ->
             greedy cs (run ml (r1 ++ r2)) prev s c = Some m ->
             exists prev' s' c', run ml r2 prev' s' c' = Some m).
  { intros cs. apply (greedy_inv (fun _ => True)
                        (fun m => exists prev' s' c', run ml r2 prev' s' c' = Some m));
      [auto | intros p1 s1 c1 m1 _; apply IH]. }
  simpl. destruct n as [cs|cs|cs|cs|g|g|].
  - destruct s as [|a s]; [discriminate|]. destruct (member cs a); [apply IH|discriminate].
  - apply (Hg cs s prev c m I).
  - destruct s as [|a s]; [discriminate|]. destruct (member cs a); [|discriminate].
    apply (Hg cs _ _ _ m I).
  - destruct s as [|a s]; [apply IH|]. destruct (member cs a); [|apply IH].
    destruct (run ml (r1 ++ r2) (Some a) s (feed a c)) as [m'|] eqn:Hr.
    + intros [= <-]. apply (IH _ _ _ _ Hr).
    + apply IH.
  - apply IH.
  - apply IH.
  - destruct (at_bol ml prev); [apply IH|discriminate].
Qed.

Lemma assoc_feed (g : nat) (a : ascii) (l : list (nat * string)) :
  assoc g (map (fun gt => (fst gt, snd gt +:+ String a "")) l)
  = option_map (fun t => t +:+ String a "") (assoc g l).
Proof.
  induction l as [|[h t] l IH]; simpl; [reflexivity|].
  destruct (Nat.eqb g h); [reflexivity | exact IH].
Qed.

Lemma all_in_snoc (cs : cset) (t : string) (a : ascii) :
  all_in cs t = true -> member cs a = true -> all_in cs (t +:+ String a "") = true.
Proof.
  unfold all_in. induction t as [|b t IH]; simpl; intros Ht Ha.
  - rewrite Ha. reflexivity.
  - apply andb_true_iff in Ht as [Hb Ht]. rewrite Hb. simpl. apply IH; assumption.
Qed.

(** X1. Whatever the url, a gist id that [get_gist_id] returns is made
    of the characters [0-9a-f] only. *)
Theorem gist_id_is_hex (url gist_id : string) :
  get_gist_id url = Some gist_id -> all_in hex_lower gist_id = true.
Proof.
  unfold get_gist_id, re_match.
  destruct (run false PATTERN_GIST_ID None url no_caps) as [m|] eqn:Hrun; [|discriminate].
  intros [= <-].
  change PATTERN_GIST_ID
    with (take 30 PATTERN_GIST_ID ++ [Open 3; Star hex_lower; Close 3]) in Hrun.
  apply run_app_tail in Hrun as (prev & s & c & Hrun). simpl in Hrun.
  eapply (greedy_inv_member
            (fun c => exists t, assoc 3 (opened c) = Some t /\ all_in hex_lower t = true)
            (fun m => all_in hex_lower (group m 3) = true)); [ | | | exact Hrun].
  - intros a c1 Ha (t & Ht & Hhex). exists (t +:+ String a "").
    unfold feed. simpl. rewrite assoc_feed, Ht. split; [reflexivity|].
    apply all_in_snoc; assumption.
  - intros prev1 s1 c1 m1 (t & Ht & Hhex) [= <-].
    unfold group, close_group. rewrite Ht. simpl. exact Hhex.
  - exists "". split; reflexivity.
Qed.

Lemma gist_id_is_hex_witness :
  get_gist_id gist_url = Some "abcdef1234567890"
  /\ all_in hex_lower "abcdef1234567890" = true.
Proof.
  split; [vm_compute; reflexivity|].
  apply (gist_id_is_hex gist_url). vm_compute; reflexivity.
Defined.

(** ** More about the gist installer *)

Lemma download_after_files (E : env) (url gist_id : string) (w : world) :
  get_gist_id url = Some gist_id -> gist_id <> "" ->
  GistInstaller_download E url w
  = match gist_files E gist_id with
    | None => (Raise GistDownloadError, log_request (gist_api +:+ gist_id) w)
    | Some files =>
        match dict_values files with
        | Return values =>
            match collect_py_files values [] with
            | Return py_files =>
                (if (1 <? List.length py_files)%nat then Raise MultipleFilesInGistError
                 else if (List.length py_files =? 0)%nat then Raise NoFilesInGistError
                 else
                   match subscript (nth 0 py_files JNull) "filename" with
                   | Return filename =>
                       match subscript (nth 0 py_files JNull) "content" with
                       | Return content => Return (filename, content)
                       | Raise e => Raise e
                       end
                   | Raise e => Raise e
                   end,
                 log_request (gist_api +:+ gist_id) w)
            | Raise e => (Raise e, log_request (gist_api +:+ gist_id) w)
            end
        | Raise e => (Raise e, log_request (gist_api +:+ gist_id) w)
        end
    end.
Proof.
  intros Hid Hne. unfold GistInstaller_download, gist_files. rewrite Hid.
  assert (Ht : truthy_id (Some gist_id) = true) by (destruct gist_id; [congruence|reflexivity]).
  rewrite Ht. simpl default.
  unfold bind at 1. unfold try_except, bind, requests_get, modify, lift, ret, raise.
  unfold gist_api. simpl.
  destruct (http_get E _) as [r|]; simpl; [|reflexivity].
  destruct (json_loads E (text r)) as [info|]; simpl; [|reflexivity].
  destruct (subscript info "files") as [files|e]; simpl; [|reflexivity].
  destruct (dict_values files) as [values|e]; simpl; [|reflexivity].
  destruct (collect_py_files values []) as [py_files|e]; simpl; [|reflexivity].
  destruct (1 <? List.length py_files)%nat; [reflexivity|].
  destruct (List.length py_files =? 0)%nat; [reflexivity|].
  destruct (subscript (nth 0 py_files JNull) "filename"); simpl; [|reflexivity].
  destruct (subscript (nth 0 py_files JNull) "content"); reflexivity.
Qed.

(** X2. For a url with a gist id: when the request for the metadata
    fails, or its body is not JSON, or the decoded value has no member
    [files], [install] raises [GistDownloadError] and changes nothing
    but the log of requests. *)
Theorem gist_metadata_failure (E : env) (url gist_id target_folder : string) (w : world) :
  get_gist_id url = Some gist_id -> gist_id <> "" ->
  gist_files E gist_id = None ->
  GistInstaller_install E url target_folder w
  = (Raise GistDownloadError, log_request (gist_api +:+ gist_id) w).
Proof.
  intros Hid Hne Hfiles. unfold GistInstaller_install, bind.
  rewrite (download_after_files E url gist_id w Hid Hne), Hfiles. reflexivity.
Qed.

Lemma gist_metadata_failure_witness :
  GistInstaller_install gist_api_down gist_url "/t" (fresh ∅)
  = (Raise GistDownloadError, log_request (gist_api +:+ "abcdef1234567890") (fresh ∅))
  /\ GistInstaller_install gist_api_garbled gist_url "/t" (fresh ∅)
     = (Raise GistDownloadError, log_request (gist_api +:+ "abcdef1234567890") (fresh ∅)).
Proof.
  split.
  - apply gist_metadata_failure; [vm_compute; reflexivity | discriminate | reflexivity].
  - apply gist_metadata_failure; [vm_compute; reflexivity | discriminate | reflexivity].
Defined.

(** X3. The [try] block ends once [files] is read: when [files] is not
    an object, [install] raises [AttributeError], not
    [GistDownloadError], and changes nothing but the log of requests. *)
Theorem gist_files_not_an_object (E : env) (url gist_id target_folder : string)
    (files : json) (w : world) :
  get_gist_id url = Some gist_id -> gist_id <> "" ->
  gist_files E gist_id = Some files -> is_object files = false ->
  GistInstaller_install E url target_folder w
  = (Raise AttributeError, log_request (gist_api +:+ gist_id) w).
Proof.
  intros Hid Hne Hfiles Hobj. unfold GistInstaller_install, bind.
  rewrite (download_after_files E url gist_id w Hid Hne), Hfiles.
  destruct files; try discriminate Hobj; reflexivity.
Qed.

Lemma gist_files_not_an_object_witness :
  GistInstaller_install gist_api_files_list gist_url "/t" (fresh ∅)
  = (Raise AttributeError, log_request (gist_api +:+ "abcdef1234567890") (fresh ∅)).
Proof.
  apply (gist_files_not_an_object gist_api_files_list gist_url "abcdef1234567890" "/t"
           (JArr []));
    [vm_compute; reflexivity | discriminate | reflexivity | reflexivity].
Defined.

(** ** More about paths and the file system *)

Lemma dir_at_insert_keep (d : gmap (list string) fnode) (k' : list string) (n : fnode) :
  d !! k' <> Some Dir -> forall k, dir_at d k = true -> dir_at (<[k' := n]> d) k = true.
Proof.
  intros Hnot k. induction k as [|x k IH]; simpl; [reflexivity|].
  destruct (d !! (x :: k)) as [[|data]|] eqn:Hk; try discriminate.
  intros Hd. rewrite lookup_insert_ne by congruence. rewrite Hk. apply IH, Hd.
Qed.

Lemma append_end (s : string) : s +:+ "" = s.
Proof. induction s as [|a s IH]; simpl; congruence. Qed.

Lemma components_from_simple (n : string) : forall cur,
  forallb (fun a => negb (Ascii.eqb a "/")) (list_ascii_of_string n) = true ->
  cur +:+ n <> "" -> components_from cur n = [cur +:+ n].
Proof.
  induction n as [|a n IH]; intros cur Hn Hne; simpl in *.
  - rewrite append_end in *. destruct cur; [contradiction Hne|]; reflexivity.
  - apply andb_true_iff in Hn as [Ha Hn]. apply negb_true_iff in Ha. rewrite Ha.
    rewrite IH.
    + rewrite append_assoc. reflexivity.
    + exact Hn.
    + rewrite append_assoc. simpl. destruct cur; discriminate.
Qed.

Lemma simple_name_facts (n : string) :
  simple_name n = true ->
  n <> "" /\ startswith n "/" = false /\ endswith_char n "/" = false /\ key n = [n].
Proof.
  unfold simple_name. intros H. apply andb_true_iff in H as [Hne Hall].
  apply negb_true_iff, String.eqb_neq in Hne.
  split; [exact Hne|]. split; [|split].
  - destruct n as [|a n]; [congruence|]. cbn [list_ascii_of_string forallb] in Hall.
    apply andb_true_iff in Hall as [Ha _]. apply negb_true_iff in Ha.
    change (startswith (String a n) "/") with (Ascii.eqb "/" a && startswith n "").
    rewrite Ascii.eqb_sym, Ha. reflexivity.
  - clear Hne. induction n as [|a n IH]; [reflexivity|].
    cbn [list_ascii_of_string forallb] in Hall.
    apply andb_true_iff in Hall as [Ha Hn]. apply negb_true_iff in Ha.
    destruct n as [|b n].
    + change (endswith_char (String a "") "/") with (Ascii.eqb "/" a).
      rewrite Ascii.eqb_sym. exact Ha.
    + change (endswith_char (String a (String b n)) "/")
        with (endswith_char (String b n) "/").
      apply IH, Hn.
  - unfold key, components. rewrite components_from_simple; [reflexivity | exact Hall |].
    exact Hne.
Qed.

Lemma ordinary_name_facts (n : string) :
  ordinary_name n = true ->
  simple_name n = true /\ has_nul n = false
  /\ forallb (fun c => negb (is_dot c)) (components n) = true.
Proof.
  unfold ordinary_name. intros H.
  apply andb_true_iff in H as [H Hnul]. apply andb_true_iff in H as [Hs Hdot].
  apply negb_true_iff in Hnul. split; [exact Hs|]. split; [exact Hnul|].
  pose proof (simple_name_facts n Hs) as (_ & _ & _ & Hk).
  rewrite <- forallb_rev_same. fold (key n). rewrite Hk. simpl. rewrite Hdot. reflexivity.
Qed.

Lemma ordinary_join_name (target n : string) :
  ordinary_path target = true -> ordinary_name n = true ->
  ordinary_path (join2 target n) = true.
Proof.
  intros Ht Hn. apply ordinary_name_facts in Hn as (Hs & Hnul & Hdots).
  apply simple_name_facts in Hs as (_ & Hstart & _ & _).
  apply ordinary_join2; assumption.
Qed.

(** [open(p, 'wb')] and [write] under an existing directory, where no
    directory has the name of the file. *)
Lemma write_file_at (target rel x : string) (above : list string) (data : string)
    (w : world) :
  ordinary_path (join2 target rel) = true ->
  startswith rel "/" = false -> rel <> "" -> endswith_char rel "/" = false ->
  key rel = x :: above ->
  dir_at (disk w) (above ++ key target) = true ->
  disk w !! (x :: above ++ key target) <> Some Dir ->
  write_file (join2 target rel) data w
  = (Return tt, set_disk (<[x :: above ++ key target := File data]> (disk w)) w).
Proof.
  intros Hord Hrel Hne Hend Hkey Hdir Hnot. rewrite (write_file_ordinary _ _ _ Hord).
  rewrite key_join2, Hkey by assumption. simpl.
  rewrite Hdir, endswith_join2, Hend by assumption. simpl.
  destruct (disk w !! (x :: above ++ key target)) as [[|old]|]; [congruence| |]; reflexivity.
Qed.

Lemma serves_gist_files (E : env) (url gist_id : string) (members : list (string * json)) :
  serves_gist E url gist_id members -> gist_files E gist_id = Some (JObj members).
Proof.
  intros (_ & _ & r & info & Hget & Hjson & Hfiles & _).
  unfold gist_files. rewrite Hget, Hjson, Hfiles. reflexivity.
Qed.

(** X4. When the gist of [url] is served and exactly one of its files
    is declared [Python], with a file name of one path component that is
    not [.] or [..] and holds no NUL character, and a content of ASCII
    text, [install] into an existing target folder with an ordinary path
    writes that content to the file of that name in the folder,
    replacing a file of the same name, and changes nothing else on the
    disk. *)
Theorem gist_install_writes_the_file (E : env) (url gist_id target_folder : string)
    (members : list (string * json)) (file_info : json) (filename content : string)
    (w : world) :
  serves_gist E url gist_id members ->
  List.filter is_python_file (map snd members) = [file_info] ->
  subscript file_info "filename" = Return (JStr filename) ->
  subscript file_info "content" = Return (JStr content) ->
  ordinary_name filename = true -> is_ascii_text content = true ->
  ordinary_path target_folder = true ->
  lookup_path (disk w) target_folder = Some Dir ->
  disk w !! (filename :: key target_folder) <> Some Dir ->
  GistInstaller_install E url target_folder w
  = (Return tt,
     set_disk (<[filename :: key target_folder := File content]> (disk w))
              (log_request (gist_api +:+ gist_id) w)).
Proof.
  intros Hs Hpy Hname Hcontent Hordn Hascii Hord Htarget Hnot.
  pose proof (serves_gist_files E url gist_id members Hs) as Hfiles.
  destruct Hs as (Hid & Hne & r & info & _ & _ & _ & Hobj).
  pose proof (ordinary_join_name target_folder filename Hord Hordn) as Hjoin.
  apply ordinary_name_facts in Hordn as (Hsimple & _ & _).
  apply simple_name_facts in Hsimple as (Hn1 & Hn2 & Hn3 & Hn4).
  apply (lookup_path_dir_at _ _ Hord) in Htarget.
  unfold GistInstaller_install. unfold bind at 1.
  rewrite (download_after_files E url gist_id w Hid Hne), Hfiles. simpl dict_values.
  cbv iota. rewrite (collect_py_files_objects _ [] Hobj). simpl app. rewrite Hpy.
  simpl. rewrite Hname, Hcontent. unfold bind, lift. rewrite Hascii.
  set (w0 := log_request _ w).
  rewrite (write_file_at target_folder filename filename [] "" w0) by assumption.
  rewrite (write_file_at target_folder filename filename [] content) ; try assumption.
  - simpl. rewrite insert_insert_eq. reflexivity.
  - simpl. apply dir_at_insert_keep; assumption.
  - simpl. rewrite lookup_insert_eq. discriminate.
Qed.

Lemma gist_install_writes_the_file_witness :
  GistInstaller_install (serving_gist one_python_file) gist_url
    "/home/me/Documents/bin/cat/tool" (fresh disk_with_empty_tool)
  = (Return tt,
     set_disk (<["tool.py" :: key "/home/me/Documents/bin/cat/tool" := File "print 1"]>
                 disk_with_empty_tool)
              (log_request (gist_api +:+ "abcdef1234567890") (fresh disk_with_empty_tool))).
Proof.
  apply (gist_install_writes_the_file (serving_gist one_python_file) gist_url
           "abcdef1234567890" "/home/me/Documents/bin/cat/tool" one_python_file
           (snd (gist_file "tool.py" "Python" "print 1")) "tool.py" "print 1"
           (fresh disk_with_empty_tool)).
  - apply serves_gist_example. reflexivity.
  - reflexivity.
  - reflexivity.
  - reflexivity.
  - reflexivity.
  - reflexivity.
  - vm_compute; reflexivity.
  - vm_compute; reflexivity.
  - vm_compute. discriminate.
Defined.

(** ** What the installers leave alone *)

Lemma same_interface_refl (w : world) : same_interface w w.
Proof. repeat split. Qed.

Lemma same_interface_trans (w1 w2 w3 : world) :
  same_interface w1 w2 -> same_interface w2 w3 -> same_interface w1 w3.
Proof.
  intros (H1 & H2 & H3 & H4 & H5) (G1 & G2 & G3 & G4 & G5).
  repeat split; congruence.
Qed.

Lemma keeps_paths_refl (d : gmap (list string) fnode) : keeps_paths d d.
Proof. intros q n H. exists n. split; [exact H | auto]. Qed.

Lemma keeps_paths_some (d d' : gmap (list string) fnode) (q : string) :
  keeps_paths d d' -> is_Some (lookup_path d q) -> is_Some (lookup_path d' q).
Proof. intros Hk [n Hn]. destruct (Hk q n Hn) as (n' & Hn' & _). eauto. Qed.

Lemma keeps_paths_trans (d1 d2 d3 : gmap (list string) fnode) :
  keeps_paths d1 d2 -> keeps_paths d2 d3 -> keeps_paths d1 d3.
Proof.
  intros H1 H2 q n Hq. destruct (H1 q n Hq) as (n1 & Hq1 & Hd1).
  destruct (H2 q n1 Hq1) as (n2 & Hq2 & Hd2). exists n2. split; [exact Hq2 | auto].
Qed.

Lemma walk_keep (d d' : gmap (list string) fnode) :
  (forall k, node_at d k = Some Dir -> node_at d' k = Some Dir) ->
  forall comps cur r, walk d cur comps = Some r -> walk d' cur comps = Some r.
Proof.
  intros Hdirs. induction comps as [|c rest IH]; intros cur r; [auto|].
  cbn [walk]. destruct (node_at d cur) as [[|data]|] eqn:Hn; try discriminate.
  rewrite (Hdirs cur Hn).
  destruct (String.eqb c "."); [apply IH|].
  destruct (String.eqb c ".."); apply IH.
Qed.

(** A file written where no directory stands hides nothing. *)
Lemma keeps_paths_insert_file (d : gmap (list string) fnode) (k : list string)
    (data : string) :
  k <> [] -> d !! k <> Some Dir -> keeps_paths d (<[k := File data]> d).
Proof.
  intros Hk Hnot q n. unfold lookup_path.
  destruct (String.eqb q "" || has_nul q); [discriminate|].
  destruct (walk d [] (components q)) as [r|] eqn:Hw; [|discriminate].
  rewrite (walk_keep d (<[k := File data]> d)) with (r := r); [| |exact Hw].
  - destruct r as [|y r']; [intros Hq; exists n; auto|]. cbn [node_at].
    destruct (decide (k = y :: r')) as [<-|Hneq].
    + rewrite lookup_insert_eq. destruct (d !! k) as [[|old]|]; [congruence| |discriminate].
      destruct (endswith_char q "/"); [discriminate|].
      intros [= <-]. eexists. split; [reflexivity | discriminate].
    + rewrite lookup_insert_ne by assumption. intros Hq. exists n. auto.
  - intros [|y k'] Hdir; [reflexivity|]. cbn [node_at] in *.
    rewrite lookup_insert_ne by congruence. exact Hdir.
Qed.

Lemma write_file_frame (p data : string) (w : world) :
  same_interface w (snd (write_file p data w))
  /\ keeps_paths (disk w) (disk (snd (write_file p data w)))
  /\ requested (snd (write_file p data w)) = requested w.
Proof.
  assert (Hsame : same_interface w w /\ keeps_paths (disk w) (disk w)
                  /\ requested w = requested w)
    by (split; [apply same_interface_refl | split; [apply keeps_paths_refl | reflexivity]]).
  unfold write_file. destruct (has_nul p); [exact Hsame|].
  destruct (key p) as [|x parent]; [exact Hsame|].
  destruct (endswith_char p "/" || is_dot x); [exact Hsame|].
  destruct (dir_key (disk w) (rev parent)) as [k|]; [|exact Hsame].
  destruct (disk w !! (x :: k)) as [[|old]|] eqn:Hold; [exact Hsame | |];
    (split; [repeat split|]; split; [|reflexivity]);
    apply keeps_paths_insert_file; congruence.
Qed.

Lemma gist_download_frame (E : env) (url : string) (w : world) :
  same_interface w (snd (GistInstaller_download E url w))
  /\ disk (snd (GistInstaller_download E url w)) = disk w.
Proof.
  destruct (get_gist_id url) as [gist_id|] eqn:Hid.
  - destruct (String.eqb gist_id "") eqn:He.
    + apply String.eqb_eq in He. subst gist_id.
      unfold GistInstaller_download. rewrite Hid. split; [apply same_interface_refl|reflexivity].
    + apply String.eqb_neq in He.
      rewrite (download_after_files E url gist_id w Hid He).
      destruct (gist_files E gist_id) as [files|]; [|split; [repeat split|reflexivity]].
      destruct (dict_values files) as [values|e]; [|split; [repeat split|reflexivity]].
      destruct (collect_py_files values []) as [py|e]; split; try reflexivity; repeat split.
  - unfold GistInstaller_download. rewrite Hid. split; [apply same_interface_refl|reflexivity].
Qed.

Lemma framed_ret {A} (a : A) : framed (ret a).
Proof. intros w. split; [apply same_interface_refl | apply keeps_paths_refl]. Qed.

Lemma framed_raise {A} (e : exn) : framed (@raise A e).
Proof. intros w. split; [apply same_interface_refl | apply keeps_paths_refl]. Qed.

Lemma framed_lift {A} (o : outcome A) : framed (lift o).
Proof. intros w. split; [apply same_interface_refl | apply keeps_paths_refl]. Qed.

Lemma framed_bind {A B} (m : M A) (k : A -> M B) :
  framed m -> (forall a, framed (k a)) -> framed (bind m k).
Proof.
  intros Hm Hk w. unfold bind. destruct (Hm w) as [Hi Hp].
  destruct (m w) as [[a|e] w1]; simpl in *; [|split; assumption].
  destruct (Hk a w1) as [Hi1 Hp1].
  split; [exact (same_interface_trans _ _ _ Hi Hi1) | exact (keeps_paths_trans _ _ _ Hp Hp1)].
Qed.

Lemma framed_write_file (p data : string) : framed (write_file p data).
Proof. intros w. destruct (write_file_frame p data w) as (Hi & Hk & _). split; assumption. Qed.

Lemma framed_gist_download (E : env) (url : string) : framed (GistInstaller_download E url).
Proof.
  intros w. destruct (gist_download_frame E url w) as [Hi Hd].
  split; [exact Hi | rewrite Hd; apply keeps_paths_refl].
Qed.

Lemma framed_gist_install (E : env) (url target_folder : string) :
  framed (GistInstaller_install E url target_folder).
Proof.
  unfold GistInstaller_install.
  apply framed_bind; [apply framed_gist_download|]. intros [filename content].
  apply framed_bind; [apply framed_lift|]. intros path.
  apply framed_bind; [apply framed_write_file|]. intros _.
  destruct content as [| | |ct| |]; try apply framed_raise.
  destruct (is_ascii_text ct); [apply framed_write_file | apply framed_raise].
Qed.

Lemma gist_install_frame (E : env) (url target_folder : string) (w : world) :
  same_interface w (snd (GistInstaller_install E url target_folder w))
  /\ keeps_paths (disk w) (disk (snd (GistInstaller_install E url target_folder w))).
Proof. apply framed_gist_install. Qed.

(** [_install] never lets an exception out, and shows one alert. *)
Lemma _install_steps (E : env) (c t u target : string) (w : world) :
  _install E c t u target w
  = match dispatch E u target w with
    | (Return _, w1) =>
        (Return tt,
         log_hud (t +:+ " installed") "success"
           (set_sender (Button "  Uninstall  " (Some (DoUninstall c t u))) w1))
    | (Raise e, w1) =>
        (Return tt, log_hud "Installation failed" "error" (log_stderr e w1))
    end.
Proof.
  unfold _install, try_except, bind, dispatch.
  destruct (truthy_id (get_gist_id u)).
  - destruct (GistInstaller_install E u target w) as [[[]|e] w1]; reflexivity.
  - destruct (truthy_user_repo (get_github_user_repo u)).
    + destruct (GitHubRepoInstaller_install E u target w) as [[[]|e] w1]; reflexivity.
    + reflexivity.
Qed.

Lemma repository_install_raises (E : env) (url target : string) (w : world) :
  GitHubRepoInstaller_install E url target w = (Raise TypeError, w).
Proof.
  unfold GitHubRepoInstaller_install, bind. rewrite repository_download_raises. reflexivity.
Qed.

(** The installer that [_install] dispatches to keeps what is on the
    disk and leaves the alerts and the standard error alone. *)
Lemma dispatch_frame (E : env) (u target : string) (w : world) :
  keeps_paths (disk w) (disk (snd (dispatch E u target w)))
  /\ hud (snd (dispatch E u target w)) = hud w
  /\ stderr (snd (dispatch E u target w)) = stderr w.
Proof.
  unfold dispatch. destruct (truthy_id (get_gist_id u)).
  - destruct (gist_install_frame E u target w) as [(_ & _ & Hh & Hs & _) Hk]. auto.
  - destruct (truthy_user_repo (get_github_user_repo u)).
    + rewrite repository_install_raises. split; [apply keeps_paths_refl|split; reflexivity].
    + split; [apply keeps_paths_refl|split; reflexivity].
Qed.

(** X5. The target path is an ordinary one: no NUL character, no
    component [.] or [..]. Whatever the url, [install] creates the
    target folder before it installs, and no failure of the installation
    removes it or leaves [install]: when [install] returns,
    [is_tool_installed] is true, and exactly one alert has been shown,
    [installed] or [Installation failed]. [install] raises, [OSError],
    only when the target folder was missing and could not be created; no
    alert is shown then. *)
Theorem install_leaves_the_folder (E : env) (c t u : string) (w : world) :
  plain_path (get_target_folder E c t) = true ->
  let w' := snd (install E c t u w) in
  match fst (install E c t u w) with
  | Return _ =>
      fst (is_tool_installed E c t w') = Return true
      /\ (hud w' = hud w ++ [(t +:+ " installed", "success")]
          \/ hud w' = hud w ++ [("Installation failed", "error")])
  | Raise e =>
      e = OSError /\ hud w' = hud w
      /\ lookup_path (disk w) (get_target_folder E c t) = None
  end.
Proof.
  intros Hplain w'. subst w'.
  pose proof (plain_path_ordinary _ Hplain) as Hord.
  destruct (ordinary_path_facts _ Hord) as (_ & Hnul & _).
  rewrite (install_steps E c t u Hnul). cbv zeta.
  set (w1 := set_sender _ w).
  assert (Hinstall : forall w2,
    hud w2 = hud w ->
    is_Some (lookup_path (disk w2) (get_target_folder E c t)) ->
    let r := _install E c t u (get_target_folder E c t) w2 in
    match fst r with
    | Return _ =>
        fst (is_tool_installed E c t (snd r)) = Return true
        /\ (hud (snd r) = hud w ++ [(t +:+ " installed", "success")]
            \/ hud (snd r) = hud w ++ [("Installation failed", "error")])
    | Raise e =>
        e = OSError /\ hud (snd r) = hud w
        /\ lookup_path (disk w) (get_target_folder E c t) = None
    end).
  { intros w2 Hhud Hthere r. subst r.
    rewrite _install_steps.
    destruct (dispatch_frame E u (get_target_folder E c t) w2) as (Hkeep & Hh & _).
    destruct (dispatch E u (get_target_folder E c t) w2) as [[[]|e] w3];
      cbn [fst snd] in *; rewrite (is_tool_installed_steps E c t Hnul); simpl.
    - rewrite bool_decide_eq_true_2 by (apply (keeps_paths_some _ _ _ Hkeep Hthere)).
      split; [reflexivity|]. left. rewrite Hh, Hhud. reflexivity.
    - rewrite bool_decide_eq_true_2 by (apply (keeps_paths_some _ _ _ Hkeep Hthere)).
      split; [reflexivity|]. right. rewrite Hh, Hhud. reflexivity. }
  destruct (lookup_path (disk w) (get_target_folder E c t)) as [n|] eqn:Hl.
  - apply (Hinstall w1 eq_refl). simpl. rewrite Hl. eauto.
  - destruct (os_makedirs_cases (get_target_folder E c t) w1 Hord)
      as [(Hr1 & Hd & Hw) | (Hr1 & Hw)];
      destruct (os_makedirs (get_target_folder E c t) w1) as [o w2];
      simpl in Hr1, Hw; subst o.
    + apply (Hinstall w2); [rewrite Hw; reflexivity|].
      simpl in Hd. rewrite Hd. eauto.
    + simpl. rewrite Hw. repeat split.
Qed.

Lemma install_leaves_the_folder_witness :
  let E := gist_api_down in
  let w := fresh ∅ in
  let w' := snd (install E "cat" "tool" gist_url w) in
  plain_path (get_target_folder E "cat" "tool") = true
  /\ hud w' = [("Installation failed", "error")]
  /\ match fst (install E "cat" "tool" gist_url w) with
     | Return _ =>
         fst (is_tool_installed E "cat" "tool" w') = Return true
         /\ (hud w' = hud w ++ [("tool" +:+ " installed", "success")]
             \/ hud w' = hud w ++ [("Installation failed", "error")])
     | Raise e =>
         e = OSError /\ hud w' = hud w
         /\ lookup_path (disk w) (get_target_folder E "cat" "tool") = None
     end.
Proof.
  split; [vm_compute; reflexivity|]. split; [vm_compute; reflexivity|].
  apply (install_leaves_the_folder gist_api_down "cat" "tool" gist_url (fresh ∅)).
  vm_compute; reflexivity.
Defined.

(** X6. A url that the repository pattern matches, and that has no gist
    id, never installs: [_install] sends no request and writes nothing,
    the unpacking of [m.groups] raises [TypeError], which goes to the
    standard error, and the alert is [Installation failed]. *)
Theorem repository_url_never_installs (E : env) (c t u target : string) (w : world) :
  truthy_id (get_gist_id u) = false ->
  re_match false PATTERN_USER_REPO u <> None ->
  _install E c t u target w
  = (Return tt, log_hud "Installation failed" "error" (log_stderr TypeError w)).
Proof.
  intros Hg Hm. rewrite _install_steps. unfold dispatch. rewrite Hg.
  unfold get_github_user_repo.
  destruct (re_match false PATTERN_USER_REPO u) as [m|]; [|congruence].
  simpl. rewrite repository_install_raises. reflexivity.
Qed.

Lemma repository_url_never_installs_witness :
  _install (serving "" "") "cat" "tool" "https://github.com/alice/tool" "/t" (fresh ∅)
  = (Return tt, log_hud "Installation failed" "error" (log_stderr TypeError (fresh ∅))).
Proof.
  apply repository_url_never_installs; [vm_compute; reflexivity|].
  vm_compute. discriminate.
Defined.

Lemma lookup_filter_outside (d : gmap (list string) fnode) (k k' : list string) :
  ~ k `suffix_of` k' -> filter (outside k) d !! k' = d !! k'.
Proof.
  intros Hout. destruct (d !! k') as [n|] eqn:Hn.
  - apply map_lookup_filter_Some. split; [exact Hn | exact Hout].
  - apply map_lookup_filter_None. left. exact Hn.
Qed.

Lemma lookup_filter_below (d : gmap (list string) fnode) (k k' : list string) :
  k `suffix_of` k' -> filter (outside k) d !! k' = None.
Proof.
  intros Hin. apply map_lookup_filter_None. right. intros n _ Hout. apply Hout. exact Hin.
Qed.

Lemma dir_at_filter_outside (d : gmap (list string) fnode) (k : list string) :
  forall k', ~ k `suffix_of` k' -> dir_at (filter (outside k) d) k' = dir_at d k'.
Proof.
  induction k' as [|x k' IH]; intros Hout; simpl; [reflexivity|].
  rewrite lookup_filter_outside by assumption.
  destruct (d !! (x :: k')) as [[|data]|]; try reflexivity.
  apply IH. intros Hs. apply Hout. apply suffix_cons_r. exact Hs.
Qed.

Lemma lookup_path_filter_outside (d : gmap (list string) fnode) (k : list string)
    (q : string) :
  ordinary_path q = true ->
  ~ k `suffix_of` key q ->
  lookup_path (filter (outside k) d) q = lookup_path d q.
Proof.
  intros Hord Hout. rewrite !(lookup_path_ordinary _ q Hord).
  destruct (key q) as [|x above] eqn:Hk; [reflexivity|].
  rewrite dir_at_filter_outside
    by (intros Hs; apply Hout; apply suffix_cons_r; exact Hs).
  rewrite lookup_filter_outside by assumption. reflexivity.
Qed.

(** X7. The target path is an ordinary one: not the root, no NUL
    character, no component [.] or [..]. [uninstall] of a target folder
    that is a directory removes every entry of the disk at or below the
    folder and changes no other entry: every ordinary path that is not
    at or below the folder names what it named before. *)
Theorem uninstall_removes_only_the_folder (E : env) (c t u : string) (w : world) :
  plain_path (get_target_folder E c t) = true ->
  lookup_path (disk w) (get_target_folder E c t) = Some Dir ->
  let w' := snd (uninstall E c t u w) in
  (forall k, key (get_target_folder E c t) `suffix_of` k -> disk w' !! k = None)
  /\ (forall k, ~ key (get_target_folder E c t) `suffix_of` k -> disk w' !! k = disk w !! k)
  /\ (forall q, ordinary_path q = true ->
                ~ key (get_target_folder E c t) `suffix_of` key q ->
                lookup_path (disk w') q = lookup_path (disk w) q).
Proof.
  intros Hplain Hdir w'. subst w'.
  destruct (ordinary_path_facts _ (plain_path_ordinary _ Hplain)) as (_ & Hnul & _).
  rewrite (uninstall_directory E c t u Hnul w Hplain Hdir). simpl.
  split; [|split].
  - intros k. apply lookup_filter_below.
  - intros k. apply lookup_filter_outside.
  - intros q. apply lookup_path_filter_outside.
Qed.

Lemma uninstall_removes_only_the_folder_witness :
  let E := serving "" "" in
  let w' := snd (uninstall E "cat" "tool" "" (fresh disk_with_tool)) in
  disk w' !! ["main.py"; "tool"; "cat"; "bin"; "Documents"; "me"; "home"] = None
  /\ disk w' !! ["cat"; "bin"; "Documents"; "me"; "home"] = Some Dir.
Proof.
  destruct (uninstall_removes_only_the_folder (serving "" "") "cat" "tool" ""
              (fresh disk_with_tool)) as (Hbelow & Hout & _);
    [vm_compute; reflexivity | vm_compute; reflexivity |].
  split.
  - apply Hbelow. exists ["main.py"]. vm_compute; reflexivity.
  - rewrite Hout; [vm_compute; reflexivity|].
    intros [l Hl].
    change (key (get_target_folder (serving "" "") "cat" "tool"))
      with ["tool"; "cat"; "bin"; "Documents"; "me"; "home"] in Hl.
    apply (f_equal (@List.length string)) in Hl.
    rewrite length_app in Hl. simpl in Hl. lia.
Defined.

Lemma install_gives_directory (E : env) (c t u : string) (w : world) :
  ordinary_path (get_target_folder E c t) = true ->
  (forall data, lookup_path (disk w) (get_target_folder E c t) <> Some (File data)) ->
  fst (install E c t u w) = Return tt ->
  lookup_path (disk (snd (install E c t u w))) (get_target_folder E c t) = Some Dir.
Proof.
  intros Hord Hnofile.
  destruct (ordinary_path_facts _ Hord) as (_ & Hnul & _).
  rewrite (install_steps E c t u Hnul). cbv zeta.
  set (w1 := set_sender _ w).
  assert (Hinstall : forall w2,
    lookup_path (disk w2) (get_target_folder E c t) = Some Dir ->
    lookup_path (disk (snd (_install E c t u (get_target_folder E c t) w2)))
      (get_target_folder E c t) = Some Dir).
  { intros w2 Hdir. rewrite _install_steps.
    destruct (dispatch_frame E u (get_target_folder E c t) w2) as (Hkeep & _ & _).
    destruct (Hkeep _ _ Hdir) as (n' & Hn' & Hd). rewrite (Hd eq_refl) in Hn'.
    destruct (dispatch E u (get_target_folder E c t) w2) as [[[]|e] w3]; exact Hn'. }
  destruct (lookup_path (disk w) (get_target_folder E c t)) as [[|data]|] eqn:Hl.
  - intros _. apply Hinstall. exact Hl.
  - contradiction (Hnofile data). reflexivity.
  - destruct (os_makedirs_cases (get_target_folder E c t) w1 Hord)
      as [(Hr1 & Hd & Hw) | (Hr1 & Hw)];
      destruct (os_makedirs (get_target_folder E c t) w1) as [o w2];
      simpl in Hr1, Hw; subst o.
    + intros _. apply Hinstall. exact Hd.
    + discriminate.
Qed.

(** X8. The target path is an ordinary one: not the root, no NUL
    character, no component [.] or [..]. When no regular file stands at
    the target path, an [install] that returns, whatever the url and
    whether the installation worked or failed, leaves the target folder
    as a directory: [is_tool_installed] is true; an [uninstall] after it
    returns, removes everything at and below the folder, and
    [is_tool_installed] is false again. *)
Theorem install_then_uninstall (E : env) (c t u u' : string) (w : world) :
  plain_path (get_target_folder E c t) = true ->
  (forall data, lookup_path (disk w) (get_target_folder E c t) <> Some (File data)) ->
  fst (install E c t u w) = Return tt ->
  let w1 := snd (install E c t u w) in
  let w2 := snd (uninstall E c t u' w1) in
  fst (is_tool_installed E c t w1) = Return true
  /\ fst (uninstall E c t u' w1) = Return tt
  /\ fst (is_tool_installed E c t w2) = Return false
  /\ forall k, key (get_target_folder E c t) `suffix_of` k -> disk w2 !! k = None.
Proof.
  intros Hplain Hnofile Hret w1 w2.
  pose proof (plain_path_ordinary _ Hplain) as Hord.
  destruct (ordinary_path_facts _ Hord) as (_ & Hnul & _).
  pose proof (install_gives_directory E c t u w Hord Hnofile Hret) as Hdir. fold w1 in Hdir.
  subst w2. rewrite !(is_tool_installed_steps E c t Hnul).
  rewrite (uninstall_directory E c t u' Hnul w1 Hplain Hdir). simpl. rewrite Hdir.
  rewrite bool_decide_eq_true_2 by eauto.
  rewrite rmtree_removes by assumption.
  rewrite bool_decide_eq_false_2 by (intros [n Hn]; discriminate).
  repeat split. intros k. apply lookup_filter_below.
Qed.

Lemma install_then_uninstall_witness :
  let E := serving_gist one_python_file in
  let w1 := snd (install E "cat" "tool" gist_url (fresh ∅)) in
  let w2 := snd (uninstall E "cat" "tool" gist_url w1) in
  disk w1 !! ["tool.py"; "tool"; "cat"; "bin"; "Documents"; "me"; "home"]
  = Some (File "print 1")
  /\ fst (is_tool_installed E "cat" "tool" w1) = Return true
  /\ fst (uninstall E "cat" "tool" gist_url w1) = Return tt
  /\ fst (is_tool_installed E "cat" "tool" w2) = Return false
  /\ disk w2 !! ["tool.py"; "tool"; "cat"; "bin"; "Documents"; "me"; "home"] = None.
Proof.
  split; [vm_compute; reflexivity|].
  destruct (install_then_uninstall (serving_gist one_python_file) "cat" "tool"
              gist_url gist_url (fresh ∅)) as (H1 & H2 & H3 & H4).
  - vm_compute; reflexivity.
  - intros data. vm_compute. discriminate.
  - vm_compute; reflexivity.
  - split; [exact H1|]. split; [exact H2|]. split; [exact H3|].
    apply H4. exists ["tool.py"]. vm_compute; reflexivity.
Defined.

Lemma key_target_folder (E : env) (c t : string) :
  simple_name c = true -> simple_name t = true ->
  key (get_target_folder E c t) = t :: c :: key (INSTALLATION_ROOT E).
Proof.
  intros Hc Ht.
  apply simple_name_facts in Hc as (_ & Hc & _ & Hkc).
  apply simple_name_facts in Ht as (_ & Ht & _ & Hkt).
  unfold get_target_folder, os_path_join. simpl.
  rewrite !key_join2, Hkc, Hkt by assumption. reflexivity.
Qed.

Lemma plain_target_folder (E : env) (c t : string) :
  ordinary_path (INSTALLATION_ROOT E) = true ->
  ordinary_name c = true -> ordinary_name t = true ->
  plain_path (get_target_folder E c t) = true.
Proof.
  intros Hroot Hc Ht. unfold plain_path. apply andb_true_iff. split.
  - pose proof Hc as Hc'. pose proof Ht as Ht'.
    apply ordinary_name_facts in Hc' as (Hsc & _). apply ordinary_name_facts in Ht' as (Hst & _).
    pose proof (key_target_folder E c t Hsc Hst) as Hk. unfold key in Hk.
    destruct (components (get_target_folder E c t)); [discriminate Hk | reflexivity].
  - unfold get_target_folder, os_path_join. cbn [foldl].
    apply ordinary_join_name; [apply ordinary_join_name|]; assumption.
Qed.

(** X9. The installation root is an ordinary path, and the category
    and tool names are of one path component each, not [.] or [..] and
    without a NUL character. [uninstall] of one tool leaves the
    installed state of every other tool as it was. *)
Theorem uninstall_spares_other_tools (E : env) (c t u c' t' : string) (w : world) :
  ordinary_path (INSTALLATION_ROOT E) = true ->
  ordinary_name c = true -> ordinary_name t = true ->
  ordinary_name c' = true -> ordinary_name t' = true ->
  (c, t) <> (c', t') ->
  fst (is_tool_installed E c' t' (snd (uninstall E c t u w)))
  = fst (is_tool_installed E c' t' w).
Proof.
  intros Hroot Hc Ht Hc' Ht' Hne.
  pose proof (plain_target_folder E c t Hroot Hc Ht) as Hplain.
  pose proof (plain_target_folder E c' t' Hroot Hc' Ht') as Hplain'.
  pose proof (plain_path_ordinary _ Hplain') as Hord'.
  destruct (ordinary_path_facts _ (plain_path_ordinary _ Hplain)) as (_ & Hnul & _).
  destruct (ordinary_path_facts _ Hord') as (_ & Hnul' & _).
  apply ordinary_name_facts in Hc as (Hc & _). apply ordinary_name_facts in Ht as (Ht & _).
  apply ordinary_name_facts in Hc' as (Hc' & _).
  apply ordinary_name_facts in Ht' as (Ht' & _).
  pose proof (key_target_folder E c t Hc Ht) as Hk.
  pose proof (key_target_folder E c' t' Hc' Ht') as Hk'.
  rewrite !(is_tool_installed_steps E c' t' Hnul').
  destruct (lookup_path (disk w) (get_target_folder E c t)) as [[|data]|] eqn:Hl.
  - rewrite (uninstall_directory E c t u Hnul w Hplain Hl).
    simpl. rewrite lookup_path_filter_outside; [reflexivity | exact Hord' |].
    rewrite Hk, Hk'. intros [l Hl'].
    assert (Hlen : List.length l = 0).
    { apply (f_equal (@List.length string)) in Hl'. rewrite length_app in Hl'.
      simpl in Hl'. lia. }
    destruct l; [|discriminate]. simpl in Hl'. congruence.
  - rewrite (uninstall_file E c t u Hnul w data Hplain Hl). reflexivity.
  - rewrite (uninstall_absent E c t u Hnul w Hl). reflexivity.
Qed.

Lemma uninstall_spares_other_tools_witness :
  fst (is_tool_installed (serving "" "") "cat" "other"
         (snd (uninstall (serving "" "") "cat" "tool" "" (fresh disk_with_tool))))
  = fst (is_tool_installed (serving "" "") "cat" "other" (fresh disk_with_tool)).
Proof.
  apply uninstall_spares_other_tools; try reflexivity. discriminate.
Defined.

(** ** More about the listing parser *)

Lemma definition_step_keys (l : locals) (def : list string) (k : string) :
  is_Some (tools_dict (definition_step l def) !! k) <-> is_Some (tools_dict l !! k).
Proof.
  unfold definition_step.
  destruct (tools_dict l !! nth 0 def "") as [t0|] eqn:Hdef; simpl.
  - destruct (decide (nth 0 def "" = k)) as [<-|Hne].
    + rewrite lookup_insert_eq, Hdef. split; eauto.
    + rewrite lookup_insert_ne by assumption. reflexivity.
  - rewrite lookup_fmap. destruct (tools_dict l !! k); simpl; split; intros [x Hx]; eauto;
      discriminate.
Qed.

Lemma definitions_keep_keys (defs : list (list string)) (k : string) : forall l,
  is_Some (tools_dict (foldl definition_step l defs) !! k) <-> is_Some (tools_dict l !! k).
Proof.
  induction defs as [|def defs IH]; intros l; simpl; [reflexivity|].
  rewrite IH. apply definition_step_keys.
Qed.

Lemma rows_keys (rows : list (list string)) (k : string) : forall l,
  is_Some (tools_dict (foldl row_step l rows) !! k) ->
  is_Some (tools_dict l !! k) \/ exists row, In row rows /\ nth 0 row "" = k.
Proof.
  induction rows as [|row rows IH]; intros l; simpl; [auto|].
  intros H. destruct (IH _ H) as [Hl | (row' & Hin & Hk)].
  - unfold row_step in Hl. simpl in Hl.
    destruct (decide (nth 0 row "" = k)) as [Heq|Hne].
    + right. exists row. auto.
    + rewrite lookup_insert_ne in Hl by assumption. auto.
  - right. exists row'. auto.
Qed.

(** X10. The parser adds no tool of its own: every name in the result
    is the name of a table row of the document. Definition lines alone
    make no entry. *)
Theorem returned_names_are_row_names (md u name : string) (t : tool) :
  snd (parse_md md u) !! name = Some t ->
  exists row, In row (findall true PATTERN_NAME_URL_DESCRIPTION md) /\ nth 0 row "" = name.
Proof.
  intros H. apply parse_md_lookup in H as [H _]. unfold parse_md in H. simpl in H.
  assert (Hs : is_Some (tools_dict
                          (foldl row_step (Locals ∅ u)
                             (findall true PATTERN_NAME_URL_DESCRIPTION md)) !! name)).
  { eapply definitions_keep_keys. eexists. exact H. }
  apply rows_keys in Hs as [[x Hx] | Hrow]; [|exact Hrow].
  simpl in Hx. rewrite lookup_empty in Hx. discriminate.
Qed.

Lemma returned_names_are_row_names_witness :
  exists row, In row (findall true PATTERN_NAME_URL_DESCRIPTION doc_defined)
              /\ nth 0 row "" = "Foo".
Proof.
  apply (returned_names_are_row_names doc_defined listing_url "Foo"
           (Tool "http://x" "A tool")).
  vm_compute; reflexivity.
Defined.

Lemma definitions_keep_url (name v : string) (defs : list (list string)) : forall l t,
  tools_dict l !! name = Some t -> url t = v ->
  Forall (fun def => nth 0 def "" <> name) defs ->
  Forall (fun def => nth 0 def "" <> v) defs ->
  exists t', tools_dict (foldl definition_step l defs) !! name = Some t' /\ url t' = v.
Proof.
  induction defs as [|def defs IH]; intros l t Hl Hurl Hname Hv; simpl.
  - exists t. split; assumption.
  - inversion Hname as [|? ? Hname1 Hname2]; inversion Hv as [|? ? Hv1 Hv2]; subst.
    unfold definition_step at 2.
    destruct (tools_dict l !! nth 0 def "") as [other|] eqn:Hdef.
    + apply (IH _ t); try assumption; [|reflexivity]. simpl.
      rewrite lookup_insert_ne by assumption. exact Hl.
    + apply (IH _ (substitute (nth 0 def "") (nth 1 def "") t)); try assumption.
      * simpl. rewrite lookup_fmap, Hl. reflexivity.
      * unfold substitute. destruct t as [its_url its_description]. simpl in *.
        destruct (decide (its_url = nth 0 def "")) as [Heq|_]; [congruence|].
        destruct (decide _); reflexivity.
Qed.

Lemma rows_define_name (rows : list (list string)) (name : string) : forall l,
  is_Some (tools_dict l !! name) \/ (exists row, In row rows /\ nth 0 row "" = name) ->
  is_Some (tools_dict (foldl row_step l rows) !! name).
Proof.
  induction rows as [|row rows IH]; intros l H; simpl.
  - destruct H as [H | (row & [] & _)]. exact H.
  - apply IH. destruct (decide (nth 0 row "" = name)) as [Heq|Hne].
    + left. unfold row_step. simpl. rewrite Heq, lookup_insert_eq. eauto.
    + destruct H as [H | (row' & [<- | Hin] & Hrow)].
      * left. unfold row_step. simpl. rewrite lookup_insert_ne by assumption. exact H.
      * contradiction.
      * right. exists row'. split; assumption.
Qed.

Lemma agree_but_url_lookup (name : string) (d d' : gmap string tool) (other : string) :
  agree_but_url name d d' -> other <> name -> d !! other = d' !! other.
Proof.
  intros H Hne. specialize (H other).
  destruct (d !! other) as [[u1 ds1]|], (d' !! other) as [[u2 ds2]|]; try contradiction;
    [|reflexivity].
  destruct H as [Hd Hu]. simpl in *. rewrite Hd, (Hu Hne). reflexivity.
Qed.

Lemma definition_step_agree (name : string) (l l' : locals) (def : list string) :
  agree_but_url name (tools_dict l) (tools_dict l') ->
  agree_but_url name (tools_dict (definition_step l def))
                     (tools_dict (definition_step l' def)).
Proof.
  intros H. unfold definition_step. pose proof (H (nth 0 def "")) as Hdef.
  destruct (tools_dict l !! nth 0 def "") as [t0|] eqn:H0,
           (tools_dict l' !! nth 0 def "") as [t0'|] eqn:H0'; try contradiction; simpl.
  - intros k. destruct (decide (nth 0 def "" = k)) as [<-|Hne].
    + rewrite !lookup_insert_eq. simpl. destruct Hdef as [Hd _]. split; [exact Hd | reflexivity].
    + rewrite !lookup_insert_ne by assumption. apply H.
  - intros k. rewrite !lookup_fmap. specialize (H k).
    destruct (tools_dict l !! k) as [[u1 ds1]|], (tools_dict l' !! k) as [[u2 ds2]|];
      simpl; try contradiction; [|exact I].
    destruct H as [Hd Hu]. simpl in Hd, Hu. subst ds2. unfold substitute.
    cbn [url description set_url set_description].
    repeat (destruct (decide _); cbn [url description set_url set_description] in *);
      (split; [congruence | intros Hk; specialize (Hu Hk); congruence]).
Qed.

Lemma definitions_agree (name : string) (defs : list (list string)) : forall l l',
  agree_but_url name (tools_dict l) (tools_dict l') ->
  agree_but_url name (tools_dict (foldl definition_step l defs))
                     (tools_dict (foldl definition_step l' defs)).
Proof.
  induction defs as [|def defs IH]; intros l l' H; simpl; [exact H|].
  apply IH, definition_step_agree, H.
Qed.

(** C10. When a definition line has the name of a tool of the rows as
    its label, the parse gives what the parse of the document without
    that line gives for every other tool, url and description, even for
    a tool whose label or bracketed description is that name; the
    description of the tool itself is the same too. The tool itself gets
    the url of the line: it has it at the end when no later definition
    line has the tool's name or that url as its label, and is returned
    with it when the url is not empty. *)
Theorem definition_named_after_tool (md md' v name link : string)
    (earlier later : list (list string)) :
  findall true PATTERN_NAME_URL_DESCRIPTION md'
  = findall true PATTERN_NAME_URL_DESCRIPTION md ->
  (exists row, In row (findall true PATTERN_NAME_URL_DESCRIPTION md)
               /\ nth 0 row "" = name) ->
  findall true PATTERN_NAME_URL md = earlier ++ [name; link] :: later ->
  findall true PATTERN_NAME_URL md' = earlier ++ later ->
  (forall other, other <> name ->
     snd (parse_md md v) !! other = snd (parse_md md' v) !! other)
  /\ (forall t t',
        tools_dict (fst (parse_md md v)) !! name = Some t ->
        tools_dict (fst (parse_md md' v)) !! name = Some t' ->
        description t = description t')
  /\ (Forall (fun def => nth 0 def "" <> name) later ->
      Forall (fun def => nth 0 def "" <> link) later ->
      exists t, tools_dict (fst (parse_md md v)) !! name = Some t /\ url t = link
                /\ (link <> "" -> snd (parse_md md v) !! name = Some t)).
Proof.
  intros Hrows Hrow Hdefs Hdefs'.
  unfold parse_md. simpl. rewrite Hrows, Hdefs, Hdefs', !foldl_app. simpl.
  set (l0 := foldl row_step (Locals ∅ v) (findall true PATTERN_NAME_URL_DESCRIPTION md)).
  set (l1 := foldl definition_step l0 earlier).
  assert (Hthere : is_Some (tools_dict l1 !! name)).
  { subst l1. apply definitions_keep_keys. subst l0. apply rows_define_name.
    right. exact Hrow. }
  destruct Hthere as [t1 Ht1].
  assert (Hstep : definition_step l1 [name; link]
                  = Locals (<[name := set_url link t1]> (tools_dict l1)) link).
  { unfold definition_step. simpl. rewrite Ht1. reflexivity. }
  rewrite Hstep.
  set (l2 := Locals (<[name := set_url link t1]> (tools_dict l1)) link).
  assert (Hagree : agree_but_url name (tools_dict (foldl definition_step l2 later))
                                       (tools_dict (foldl definition_step l1 later))).
  { apply definitions_agree. intros k. subst l2. simpl.
    destruct (decide (name = k)) as [<-|Hne].
    - rewrite lookup_insert_eq, Ht1. simpl. split; [reflexivity | congruence].
    - rewrite lookup_insert_ne by assumption.
      destruct (tools_dict l1 !! k); [split; reflexivity | exact I]. }
  split; [|split].
  - intros other Hne. rewrite !map_lookup_filter.
    rewrite (agree_but_url_lookup name _ _ other Hagree Hne). reflexivity.
  - intros t t' Ht Ht'. specialize (Hagree name). rewrite Ht, Ht' in Hagree. tauto.
  - intros Hname Hlink.
    destruct (definitions_keep_url name link later l2 (set_url link t1))
      as (t & Ht & Hurl); try assumption.
    + subst l2. simpl. apply lookup_insert_eq.
    + reflexivity.
    + exists t. split; [exact Ht|]. split; [exact Hurl|].
      intros Hne. apply map_lookup_filter_Some. split; [exact Ht|].
      unfold has_url. simpl. congruence.
Qed.

Lemma definition_named_after_tool_witness :
  snd (parse_md doc_named_without listing_url) !! "Bar" = Some (Tool "Foo" "[Foo]")
  /\ snd (parse_md doc_named listing_url) !! "Bar" = Some (Tool "Foo" "[Foo]")
  /\ exists t, tools_dict (fst (parse_md doc_named listing_url)) !! "Foo" = Some t
               /\ url t = "http://x"
               /\ ("http://x" <> "" -> snd (parse_md doc_named listing_url) !! "Foo" = Some t).
Proof.
  assert (Hrows : findall true PATTERN_NAME_URL_DESCRIPTION doc_named_without
                  = findall true PATTERN_NAME_URL_DESCRIPTION doc_named)
    by (vm_compute; reflexivity).
  assert (Hrow : exists row, In row (findall true PATTERN_NAME_URL_DESCRIPTION doc_named)
                             /\ nth 0 row "" = "Foo")
    by (exists ["Foo"; ""; "The tool"]; split; [vm_compute; left; reflexivity | reflexivity]).
  assert (Hdefs : findall true PATTERN_NAME_URL doc_named = [] ++ ["Foo"; "http://x"] :: [])
    by (vm_compute; reflexivity).
  assert (Hdefs' : findall true PATTERN_NAME_URL doc_named_without = [] ++ [])
    by (vm_compute; reflexivity).
  destruct (definition_named_after_tool doc_named doc_named_without listing_url
              "Foo" "http://x" [] [] Hrows Hrow Hdefs Hdefs') as (Hothers & _ & Hfoo).
  split; [vm_compute; reflexivity|].
  split.
  - rewrite (Hothers "Bar") by discriminate. vm_compute; reflexivity.
  - apply Hfoo; constructor.
Defined.

(** C1. The code returns a tool whose label no definition line
    resolves. When the last row of a tool names a label that is not
    empty, and no definition line has that label or the tool's name as
    its label, the tool is in the mapping that the parse returns, with
    the text of the label as its url: the filter under the comment
    [Filter out tools that has no download url] tests only that the url
    field is not empty. *)
Theorem unresolved_label_is_returned (md v name label desc : string)
    (before after : list (list string)) :
  findall true PATTERN_NAME_URL_DESCRIPTION md = before ++ [name; label; desc] :: after ->
  Forall (fun row => nth 0 row "" <> name) after ->
  Forall (fun def => nth 0 def "" <> name) (findall true PATTERN_NAME_URL md) ->
  Forall (fun def => nth 0 def "" <> label) (findall true PATTERN_NAME_URL md) ->
  label <> "" ->
  exists t, snd (parse_md md v) !! name = Some t /\ url t = label.
Proof.
  intros Hrows Hafter Hname Hlabel Hne.
  unfold parse_md. simpl.
  set (l0 := foldl row_step (Locals ∅ v) (findall true PATTERN_NAME_URL_DESCRIPTION md)).
  assert (Hl0 : tools_dict l0 !! name = Some (Tool label (strip desc))).
  { subst l0. rewrite Hrows, foldl_app. simpl.
    rewrite rows_keep_other_names by assumption.
    unfold row_step. simpl. apply lookup_insert_eq. }
  destruct (definitions_keep_url name label _ l0 _ Hl0 eq_refl Hname Hlabel)
    as (t & Ht & Hurl).
  exists t. split; [|exact Hurl].
  apply map_lookup_filter_Some. split; [exact Ht|]. unfold has_url. simpl. congruence.
Qed.

Lemma unresolved_label_is_returned_witness :
  findall true PATTERN_NAME_URL doc_undefined = []
  /\ fst (get_tools_from_md (serving listing_url doc_undefined) listing_url (fresh ∅))
     = Return {[ "Foo" := Tool "f" "A tool" ]}
  /\ exists t, snd (parse_md doc_undefined listing_url) !! "Foo" = Some t /\ url t = "f".
Proof.
  assert (Hdefs : findall true PATTERN_NAME_URL doc_undefined = [])
    by (vm_compute; reflexivity).
  split; [exact Hdefs|]. split; [vm_compute; reflexivity|].
  apply (unresolved_label_is_returned doc_undefined listing_url "Foo" "f" "A tool" [] []).
  - vm_compute; reflexivity.
  - constructor.
  - rewrite Hdefs. constructor.
  - rewrite Hdefs. constructor.
  - discriminate.
Defined.

(** X11. Label resolution. When the last row of a tool names the label
    [label], no row is named [label], one definition line defines
    [label] as [target_url], no earlier definition line has the label
    [label], no later one has the label [target_url], and none has the
    tool's name, then the tool is returned with the url [target_url]
    (which is not empty). *)
Theorem label_is_resolved (md u name label desc target_url : string)
    (before after earlier later : list (list string)) :
  findall true PATTERN_NAME_URL_DESCRIPTION md = before ++ [name; label; desc] :: after ->
  Forall (fun row => nth 0 row "" <> name) after ->
  Forall (fun row => nth 0 row "" <> label)
         (findall true PATTERN_NAME_URL_DESCRIPTION md) ->
  findall true PATTERN_NAME_URL md = earlier ++ [label; target_url] :: later ->
  Forall (fun def => nth 0 def "" <> name) (earlier ++ later) ->
  Forall (fun def => nth 0 def "" <> label) earlier ->
  Forall (fun def => nth 0 def "" <> target_url) later ->
  target_url <> "" ->
  exists t, snd (parse_md md u) !! name = Some t /\ url t = target_url.
Proof.
  intros Hrows Hafter Hnolabel Hdefs Hnoname Hearlier Hlater Hne.
  apply Forall_app in Hnoname as [Hname1 Hname2].
  unfold parse_md. simpl. rewrite Hdefs, foldl_app. simpl.
  set (l0 := foldl row_step (Locals ∅ u) (findall true PATTERN_NAME_URL_DESCRIPTION md)).
  assert (Hl0 : tools_dict l0 !! name = Some (Tool label (strip desc))).
  { subst l0. rewrite Hrows, foldl_app. simpl.
    rewrite rows_keep_other_names by assumption.
    unfold row_step. simpl. apply lookup_insert_eq. }
  assert (Hnone0 : tools_dict l0 !! label = None).
  { destruct (tools_dict l0 !! label) as [x|] eqn:Hx; [|reflexivity].
    assert (Hs : is_Some (tools_dict l0 !! label)) by eauto.
    apply rows_keys in Hs as [[y Hy] | (row & Hin & Hrow)].
    - simpl in Hy. rewrite lookup_empty in Hy. discriminate.
    - rewrite List.Forall_forall in Hnolabel. contradiction (Hnolabel row Hin). }
  destruct (definitions_keep_url name label earlier l0 _ Hl0 eq_refl Hname1 Hearlier)
    as (t1 & Ht1 & Hurl1).
  set (l1 := foldl definition_step l0 earlier) in *.
  assert (Hnone1 : tools_dict l1 !! label = None).
  { destruct (tools_dict l1 !! label) as [x|] eqn:Hx; [|reflexivity].
    assert (Hs : is_Some (tools_dict l1 !! label)) by eauto.
    apply definitions_keep_keys in Hs. rewrite Hnone0 in Hs. destruct Hs; discriminate. }
  set (l2 := definition_step l1 [label; target_url]).
  assert (Hl2 : exists t2, tools_dict l2 !! name = Some t2 /\ url t2 = target_url).
  { subst l2. unfold definition_step. simpl. rewrite Hnone1. simpl.
    rewrite lookup_fmap, Ht1. simpl. eexists. split; [reflexivity|].
    unfold substitute. destruct t1 as [its_url its_description]. simpl in Hurl1. subst.
    destruct (decide (label = label)); [|congruence].
    destruct (decide _); reflexivity. }
  destruct Hl2 as (t2 & Ht2 & Hurl2).
  destruct (definitions_keep_url name target_url later l2 t2 Ht2 Hurl2 Hname2 Hlater)
    as (t3 & Ht3 & Hurl3).
  exists t3. split; [|exact Hurl3].
  apply map_lookup_filter_Some. split; [exact Ht3|].
  unfold has_url. simpl. rewrite Hurl3. exact Hne.
Qed.

Lemma label_is_resolved_witness :
  exists t, snd (parse_md doc_defined listing_url) !! "Foo" = Some t /\ url t = "http://x".
Proof.
  apply (label_is_resolved doc_defined listing_url "Foo" "f" "A tool" "http://x" [] [] [] []).
  - vm_compute; reflexivity.
  - constructor.
  - assert (Hr : findall true PATTERN_NAME_URL_DESCRIPTION doc_defined
                 = [["Foo"; "f"; "A tool"]]) by (vm_compute; reflexivity).
    rewrite Hr. repeat constructor. discriminate.
  - vm_compute; reflexivity.
  - constructor.
  - constructor.
  - constructor.
  - discriminate.
Defined.

Lemma cache_miss_repeats_witness :
  let E := serving listing_url doc_defined in
  let w1 := snd (get_tools_from_md E listing_url (fresh ∅)) in
  cached_tools_dict w1 !! listing_url = None
  /\ cached_tools_dict w1 !! "http://x" = Some (snd (parse_md doc_defined listing_url))
  /\ requested (snd (get_tools_from_md E listing_url w1)) = [listing_url; listing_url].
Proof.
  apply (cache_miss_repeats (serving listing_url doc_defined) listing_url (fresh ∅)
           (Response doc_defined doc_defined) [] "f" "http://x").
  - apply lookup_empty.
  - vm_compute; reflexivity.
  - vm_compute; reflexivity.
  - discriminate.
Defined.

(** X13. A document without a table row and without a definition line
    leaves the variable [url] alone: the empty result is cached under
    the url of the document, and the next call for it returns the empty
    result from the cache, with no request and no other change. *)
Theorem listing_without_entries_is_cached (E : env) (u : string) (w : world) (r : response) :
  cached_tools_dict w !! u = None -> http_get E u = Some r ->
  findall true PATTERN_NAME_URL_DESCRIPTION (text r) = [] ->
  findall true PATTERN_NAME_URL (text r) = [] ->
  let w1 := snd (get_tools_from_md E u w) in
  get_tools_from_md E u w = (Return ∅, set_cache <[u := ∅]> (log_request u w))
  /\ get_tools_from_md E u w1 = (Return ∅, w1).
Proof.
  intros Hmiss Hget Hrows Hdefs w1. subst w1.
  rewrite (get_tools_from_md_miss E u w r Hmiss Hget).
  unfold parse_md. rewrite Hrows, Hdefs. simpl.
  rewrite map_filter_empty. split; [reflexivity|].
  apply get_tools_from_md_hit. simpl. apply lookup_insert_eq.
Qed.

Lemma listing_without_entries_is_cached_witness :
  let E := serving listing_url doc_prose in
  let w1 := snd (get_tools_from_md E listing_url (fresh ∅)) in
  get_tools_from_md E listing_url (fresh ∅)
  = (Return ∅, set_cache <[listing_url := ∅]> (log_request listing_url (fresh ∅)))
  /\ get_tools_from_md E listing_url w1 = (Return ∅, w1).
Proof.
  apply (listing_without_entries_is_cached (serving listing_url doc_prose) listing_url
           (fresh ∅) (Response doc_prose doc_prose)).
  - apply lookup_empty.
  - vm_compute; reflexivity.
  - vm_compute; reflexivity.
  - vm_compute; reflexivity.
Defined.

(** ** More about the extraction *)

Lemma startswith_append (base rest : string) : startswith (base +:+ rest) base = true.
Proof.
  induction base as [|a base IH]; simpl; [destruct rest; reflexivity|].
  rewrite Ascii.eqb_refl. exact IH.
Qed.

Lemma drop_chars_append (base rest : string) :
  drop_chars (String.length base) (base +:+ rest) = rest.
Proof. induction base as [|a base IH]; simpl; [destruct rest; reflexivity | exact IH]. Qed.

Lemma after_first_here (sep s : string) :
  startswith s sep = true -> after_first sep s = Some (drop_chars (String.length sep) s).
Proof. intros H. destruct s; cbn [after_first]; rewrite H; reflexivity. Qed.

Lemma split1_last_prefix (base rest : string) : split1_last (base +:+ rest) base = rest.
Proof.
  unfold split1_last.
  rewrite after_first_here by apply startswith_append.
  apply drop_chars_append.
Qed.

(** X14. A member whose name is the wrapper directory followed by a
    name of one path component, not [.] or [..] and without a NUL
    character, is written, with its data, as the file of that name in
    the target folder, when the target folder has an ordinary path, is a
    directory and has no directory of that name; nothing else changes. *)
Theorem member_under_wrapper_is_written (members : list (string * string))
    (base_dir target_folder rel data : string) (w : world) :
  zip_read members (base_dir +:+ rel) = Some data ->
  ordinary_name rel = true ->
  ordinary_path target_folder = true ->
  lookup_path (disk w) target_folder = Some Dir ->
  disk w !! (rel :: key target_folder) <> Some Dir ->
  extract_member members base_dir target_folder (base_dir +:+ rel) w
  = (Return tt, set_disk (<[rel :: key target_folder := File data]> (disk w)) w).
Proof.
  intros Hread Hordn Hord Htarget Hnot.
  pose proof (ordinary_join_name target_folder rel Hord Hordn) as Hjoin.
  apply ordinary_name_facts in Hordn as (Hsimple & _ & _).
  apply simple_name_facts in Hsimple as (Hn1 & Hn2 & Hn3 & Hn4).
  apply (lookup_path_dir_at _ _ Hord) in Htarget.
  rewrite (extract_member_steps _ _ _ _ data w Hread), split1_last_prefix. cbv zeta.
  rewrite (proj2 (String.eqb_neq rel "") Hn1).
  rewrite endswith_join2, Hn3 by assumption.
  apply (write_file_at target_folder rel rel [] data w); assumption.
Qed.

Lemma member_under_wrapper_is_written_witness :
  extract_member (archive_with_lib_entry "" "print 1" "" "print 2") "tool-master/" "/t"
    "tool-master/main.py" (fresh disk_before_extract)
  = (Return tt,
     set_disk (<["main.py" :: key "/t" := File "print 1"]> disk_before_extract)
              (fresh disk_before_extract)).
Proof.
  apply (member_under_wrapper_is_written (archive_with_lib_entry "" "print 1" "" "print 2")
           "tool-master/" "/t" "main.py" "print 1" (fresh disk_before_extract)).
  - reflexivity.
  - reflexivity.
  - reflexivity.
  - vm_compute; reflexivity.
  - vm_compute. discriminate.
Defined.

(** X15. The target folder does not confine the extraction: a member
    whose name, after the wrapper directory, starts with a slash is
    written at that absolute path, whatever the target folder is. *)
Theorem absolute_member_leaves_the_folder (members : list (string * string))
    (base_dir target_folder rel data : string) (w : world) :
  zip_read members (base_dir +:+ rel) = Some data ->
  startswith rel "/" = true -> endswith_char rel "/" = false ->
  extract_member members base_dir target_folder (base_dir +:+ rel) w
  = write_file rel data w.
Proof.
  intros Hread Habs Hend.
  rewrite (extract_member_steps _ _ _ _ data w Hread), split1_last_prefix. cbv zeta.
  assert (Hne : String.eqb rel "" = false) by (destruct rel; [discriminate|reflexivity]).
  rewrite Hne. unfold join2. rewrite Habs, Hend. reflexivity.
Qed.

Lemma absolute_member_leaves_the_folder_witness :
  let w' := snd (extract_member archive_with_absolute_name "tool-master/"
                   "/home/me/Documents/bin/cat/tool"
                   "tool-master//home/me/Documents/site.py" (fresh disk_with_empty_tool)) in
  disk w' !! ["site.py"; "Documents"; "me"; "home"] = Some (File "import os").
Proof.
  cbv zeta.
  pose proof (absolute_member_leaves_the_folder archive_with_absolute_name "tool-master/"
                "/home/me/Documents/bin/cat/tool" "/home/me/Documents/site.py" "import os"
                (fresh disk_with_empty_tool) eq_refl eq_refl eq_refl) as H.
  change ("tool-master/" +:+ "/home/me/Documents/site.py")
    with "tool-master//home/me/Documents/site.py" in H.
  rewrite H. vm_compute; reflexivity.
Defined.

(** ** The categories *)

Lemma get_categories_steps (E : env) (w : world) :
  get_categories E w
  = (match http_get E (contents_url E) with
     | Some r =>
         match json_loads E (text r) with
         | Some v =>
             match iterate v with
             | Return items => categories_loop items ∅
             | Raise e => Raise e
             end
         | None => Raise ValueError
         end
     | None => Raise ConnectionError
     end, log_request (contents_url E) w).
Proof.
  unfold get_categories, GitHubAPI_contents, bind, requests_get, modify, lift, raise, ret,
    contents_url.
  simpl. destruct (http_get E _) as [r|]; [|reflexivity]. simpl.
  destruct (json_loads E (text r)) as [v|]; [|reflexivity].
  destruct (iterate v) as [items|e]; [|reflexivity].
  destruct (categories_loop items ∅); reflexivity.
Qed.

Lemma category_step_from (items : list json) (content : json)
    (categories categories' : gmap string Category.entry) :
  In content items ->
  (forall k e, categories !! k = Some e -> from_entry items k e) ->
  category_step categories content = Return categories' ->
  forall k e, categories' !! k = Some e -> from_entry items k e.
Proof.
  intros Hin Hinv. unfold category_step.
  destruct (subscript content "name") as [[| | |name| |]|e0] eqn:Hname; try discriminate.
  destruct (endswith name ".md" && negb (String.eqb name "README.md")) eqn:Hcond;
    [|intros [= <-]; exact Hinv].
  apply andb_true_iff in Hcond as [Hmd Hreadme].
  apply negb_true_iff, String.eqb_neq in Hreadme.
  destruct (subscript content "download_url") as [u|e0] eqn:Hu; [|discriminate].
  destruct (subscript content "sha") as [h|e0] eqn:Hh; [|discriminate].
  intros [= <-] k e.
  destruct (decide (os_path_splitext_root name = k)) as [Hk|Hk].
  - rewrite <- Hk, lookup_insert_eq. intros [= <-].
    exists content, name. repeat split; assumption.
  - rewrite lookup_insert_ne by assumption. apply Hinv.
Qed.

Lemma categories_loop_from (items : list json) : forall rest categories categories',
  (forall content, In content rest -> In content items) ->
  (forall k e, categories !! k = Some e -> from_entry items k e) ->
  categories_loop rest categories = Return categories' ->
  forall k e, categories' !! k = Some e -> from_entry items k e.
Proof.
  induction rest as [|content rest IH]; intros categories categories' Hsub Hinv; simpl.
  - intros [= <-]. exact Hinv.
  - destruct (category_step categories content) as [cs|e0] eqn:Hstep; [|discriminate].
    apply IH; [intros c0 Hc0; apply Hsub; right; exact Hc0|].
    apply (category_step_from items content categories cs); auto.
    apply Hsub. left. reflexivity.
Qed.

(** X16. Every category that [get_categories] returns comes from an
    item of the listing whose name ends in [.md] and is not [README.md]:
    the category is that name without its extension, and its url and
    sha are the [download_url] and the [sha] of the item. *)
Theorem categories_come_from_md_entries (E : env) (w : world)
    (categories : gmap string Category.entry) (k : string) (e : Category.entry) :
  fst (get_categories E w) = Return categories -> categories !! k = Some e ->
  exists r v items,
    http_get E (contents_url E) = Some r /\ json_loads E (text r) = Some v
    /\ iterate v = Return items /\ from_entry items k e.
Proof.
  rewrite get_categories_steps. simpl.
  destruct (http_get E (contents_url E)) as [r|] eqn:Hget; [|discriminate].
  destruct (json_loads E (text r)) as [v|] eqn:Hjson; [|discriminate].
  destruct (iterate v) as [items|e0] eqn:Hiter; [|discriminate].
  intros Hloop Hk. exists r, v, items.
  split; [reflexivity|]. split; [exact Hjson|]. split; [exact Hiter|].
  apply (categories_loop_from items items ∅ categories); auto.
  intros k0 e1. rewrite lookup_empty. discriminate.
Qed.

Lemma categories_come_from_md_entries_witness :
  exists r v items,
    http_get (serving_contents (JArr repository_contents))
      (contents_url (serving_contents (JArr repository_contents))) = Some r
    /\ json_loads (serving_contents (JArr repository_contents)) (text r) = Some v
    /\ iterate v = Return items
    /\ from_entry items "Games" (Category.Entry (JStr "https://raw/Games.md") (JStr "a1")).
Proof.
  apply (categories_come_from_md_entries (serving_contents (JArr repository_contents))
           (fresh ∅)
           (<["Utilities" := Category.Entry (JStr "https://raw/Utilities.md") (JStr "d4")]>
              (<["Games" := Category.Entry (JStr "https://raw/Games.md") (JStr "a1")]> ∅))).
  - vm_compute; reflexivity.
  - vm_compute; reflexivity.
Defined.

Lemma length_append (a b : string) :
  String.length (a +:+ b) = String.length a + String.length b.
Proof. induction a as [|x a IH]; simpl; congruence. Qed.

Lemma take_chars_append (a b : string) : take_chars (String.length a) (a +:+ b) = a.
Proof. induction a as [|x a IH]; simpl; [destruct b; reflexivity | congruence]. Qed.

Lemma basename_from_simple (p : string) : forall cur,
  forallb (fun a => negb (Ascii.eqb a "/")) (list_ascii_of_string p) = true ->
  basename_from cur p = cur +:+ p.
Proof.
  induction p as [|a p IH]; intros cur Hp; simpl in *; [rewrite append_end; reflexivity|].
  apply andb_true_iff in Hp as [Ha Hp]. apply negb_true_iff in Ha. rewrite Ha.
  rewrite IH by assumption. rewrite append_assoc. reflexivity.
Qed.

Lemma last_dot_md (x : string) : forall i best,
  last_dot (x +:+ ".md") i best = Some (i + String.length x).
Proof.
  induction x as [|a x IH]; intros i best; simpl.
  - rewrite Nat.add_0_r. reflexivity.
  - rewrite IH. f_equal. lia.
Qed.

Lemma noslash_append (a b : string) :
  forallb (fun c => negb (Ascii.eqb c "/")) (list_ascii_of_string (a +:+ b))
  = forallb (fun c => negb (Ascii.eqb c "/")) (list_ascii_of_string a)
    && forallb (fun c => negb (Ascii.eqb c "/")) (list_ascii_of_string b).
Proof.
  induction a as [|x a IH]; simpl; [reflexivity|]. rewrite IH. apply andb_assoc.
Qed.

(** The name [x.md] has the root [x], for a name [x] of one path
    component that is not made of dots. *)
Lemma splitext_root_md (x : string) :
  simple_name x = true -> all_dots x = false ->
  os_path_splitext_root (x +:+ ".md") = x.
Proof.
  unfold simple_name. intros Hx Hdots. apply andb_true_iff in Hx as [_ Hx].
  unfold os_path_splitext_root, os_path_basename.
  rewrite basename_from_simple by (rewrite noslash_append, Hx; reflexivity).
  change ("" +:+ (x +:+ ".md")) with (x +:+ ".md").
  rewrite Nat.sub_diag. simpl take_chars.
  change ("" +:+ splitext_root (x +:+ ".md")) with (splitext_root (x +:+ ".md")).
  unfold splitext_root. rewrite last_dot_md. simpl Nat.add.
  rewrite take_chars_append, Hdots. reflexivity.
Qed.

Lemma endswith_md (x : string) : endswith (x +:+ ".md") ".md" = true.
Proof.
  unfold endswith. rewrite length_append. simpl String.length.
  replace (String.length x + 3 - 3) with (String.length x) by lia.
  rewrite drop_chars_append, String.eqb_refl.
  rewrite andb_true_r. apply Nat.leb_le. lia.
Qed.

Lemma category_key_md (content : json) (x : string) :
  subscript content "name" = Return (JStr (x +:+ ".md")) ->
  simple_name x = true -> all_dots x = false -> x <> "README" ->
  category_key content = Some x.
Proof.
  intros Hname Hx Hdots Hreadme. unfold category_key. rewrite Hname, endswith_md.
  assert (Hne : String.eqb (x +:+ ".md") "README.md" = false).
  { apply String.eqb_neq. intros Heq. apply Hreadme.
    rewrite <- (splitext_root_md x Hx Hdots), Heq. reflexivity. }
  rewrite Hne. simpl. rewrite splitext_root_md by assumption. reflexivity.
Qed.

Lemma category_step_entry (categories : gmap string Category.entry) (content : json) :
  is_entry content = true ->
  exists categories',
    category_step categories content = Return categories'
    /\ (forall k, category_key content <> Some k -> categories' !! k = categories !! k)
    /\ (forall k, category_key content = Some k ->
           exists u h, subscript content "download_url" = Return u
                       /\ subscript content "sha" = Return h
                       /\ categories' !! k = Some (Category.Entry u h)).
Proof.
  unfold is_entry, category_step, category_key.
  destruct (subscript content "name") as [[| | |name| |]|e0]; try discriminate.
  destruct (subscript content "download_url") as [u|e0]; [|discriminate].
  destruct (subscript content "sha") as [h|e0]; [|discriminate].
  intros _. destruct (endswith name ".md" && negb (String.eqb name "README.md")).
  - eexists. split; [reflexivity|]. split.
    + intros k Hk. apply lookup_insert_ne. congruence.
    + intros k [= <-]. exists u, h. rewrite lookup_insert_eq. auto.
  - eexists. split; [reflexivity|]. split; [reflexivity | discriminate].
Qed.

Lemma categories_loop_entries (items : list json) : forall categories,
  forallb is_entry items = true ->
  exists categories',
    categories_loop items categories = Return categories'
    /\ forall k, Forall (fun content => category_key content <> Some k) items ->
                 categories' !! k = categories !! k.
Proof.
  induction items as [|content items IH]; intros categories Hall; simpl.
  - eexists. split; [reflexivity | reflexivity].
  - simpl in Hall. apply andb_true_iff in Hall as [Hc Hall].
    destruct (category_step_entry categories content Hc) as (cs & Hstep & Hother & _).
    rewrite Hstep. destruct (IH cs Hall) as (cs' & Hloop & Hkeep).
    exists cs'. split; [exact Hloop|].
    intros k Hk. inversion Hk as [|? ? Hk1 Hk2]; subst.
    rewrite Hkeep by assumption. apply Hother. exact Hk1.
Qed.

Lemma categories_loop_app (l1 l2 : list json) : forall categories,
  categories_loop (l1 ++ l2) categories
  = match categories_loop l1 categories with
    | Return cs => categories_loop l2 cs
    | Raise e => Raise e
    end.
Proof.
  induction l1 as [|c l1 IH]; intros categories; simpl; [reflexivity|].
  destruct (category_step categories c); [apply IH | reflexivity].
Qed.

(** X17. When the listing of the repository is a list of file
    descriptions (objects with a text [name], a [download_url] and a
    [sha]), [get_categories] returns, and a file [x.md], where [x] is a
    name of one component, not made of dots and not [README], is the
    category [x] with that file's url and sha, unless a later file of
    the list has the same category. *)
Theorem md_entry_is_a_category (E : env) (w : world) (r : response)
    (before after : list json) (content download_url sha : json) (x : string) :
  http_get E (contents_url E) = Some r ->
  json_loads E (text r) = Some (JArr (before ++ content :: after)) ->
  forallb is_entry (before ++ content :: after) = true ->
  subscript content "name" = Return (JStr (x +:+ ".md")) ->
  subscript content "download_url" = Return download_url ->
  subscript content "sha" = Return sha ->
  simple_name x = true -> all_dots x = false -> x <> "README" ->
  Forall (fun later => category_key later <> Some x) after ->
  exists categories,
    get_categories E w = (Return categories, log_request (contents_url E) w)
    /\ categories !! x = Some (Category.Entry download_url sha).
Proof.
  intros Hget Hjson Hall Hname Hu Hh Hx Hdots Hreadme Hlater.
  rewrite get_categories_steps, Hget, Hjson. simpl iterate. cbv iota.
  rewrite forallb_app in Hall. apply andb_true_iff in Hall as [Hbefore Hrest].
  simpl in Hrest. apply andb_true_iff in Hrest as [Hc Hafter].
  rewrite categories_loop_app.
  destruct (categories_loop_entries before ∅ Hbefore) as (cs1 & Hloop1 & _).
  rewrite Hloop1. simpl.
  destruct (category_step_entry cs1 content Hc) as (cs2 & Hstep & _ & Hkey).
  rewrite Hstep.
  destruct (categories_loop_entries after cs2 Hafter) as (cs3 & Hloop3 & Hkeep).
  rewrite Hloop3. exists cs3. split; [reflexivity|].
  rewrite (Hkeep x Hlater).
  destruct (Hkey x (category_key_md content x Hname Hx Hdots Hreadme))
    as (u' & h' & Hu' & Hh' & Hcs2).
  rewrite Hcs2. congruence.
Qed.

Lemma md_entry_is_a_category_witness :
  let E := serving_contents (JArr repository_contents) in
  exists categories,
    get_categories E (fresh ∅) = (Return categories, log_request (contents_url E) (fresh ∅))
    /\ categories !! "Games"
       = Some (Category.Entry (JStr "https://raw/Games.md") (JStr "a1")).
Proof.
  apply (md_entry_is_a_category (serving_contents (JArr repository_contents)) (fresh ∅)
           (Response "[...]" "[...]") []
           [content_entry "README.md" "https://raw/README.md" "b2";
            content_entry "LICENSE" "https://raw/LICENSE" "c3";
            content_entry "Utilities.md" "https://raw/Utilities.md" "d4"]
           (content_entry "Games.md" "https://raw/Games.md" "a1")
           (JStr "https://raw/Games.md") (JStr "a1") "Games").
  - vm_compute; reflexivity.
  - reflexivity.
  - reflexivity.
  - reflexivity.
  - reflexivity.
  - reflexivity.
  - reflexivity.
  - reflexivity.
  - discriminate.
  - repeat constructor; vm_compute; discriminate.
Defined.

Lemma get_categories_failures (E : env) (w : world) :
  get_categories E w
  = (match http_get E (contents_url E) with
     | None => Raise ConnectionError
     | Some r =>
         match json_loads E (text r) with
         | None => Raise ValueError
         | Some v =>
             if not_a_listing v then Raise TypeError
             else fst (get_categories E w)
         end
     end, log_request (contents_url E) w).
Proof.
  rewrite get_categories_steps. simpl.
  destruct (http_get E (contents_url E)) as [r|]; [|reflexivity].
  destruct (json_loads E (text r)) as [v|]; [|reflexivity].
  destruct v as [|b|n|s|items|members]; simpl; try reflexivity.
  - destruct s as [|a s]; [reflexivity|]. simpl.
    unfold category_step. simpl. reflexivity.
  - destruct members as [|[k0 v0] members]; [reflexivity|]. simpl.
    unfold category_step. simpl. reflexivity.
Qed.

(** X18. When the answer for the listing of the repository decodes to
    something that is not a list and not empty (an object with a
    message, as the API sends when it refuses; a number; a text),
    [get_categories] raises [TypeError] and only the request is logged:
    the keys of an object and the characters of a text are iterated as
    if they were file descriptions. *)
Theorem listing_that_is_no_list (E : env) (w : world) (r : response) (v : json) :
  http_get E (contents_url E) = Some r -> json_loads E (text r) = Some v ->
  not_a_listing v = true ->
  get_categories E w = (Raise TypeError, log_request (contents_url E) w).
Proof.
  intros Hget Hjson Hv. rewrite get_categories_failures, Hget, Hjson, Hv. reflexivity.
Qed.

Lemma listing_that_is_no_list_witness :
  get_categories (serving_contents api_refusal) (fresh ∅)
  = (Raise TypeError, log_request (contents_url (serving_contents api_refusal)) (fresh ∅)).
Proof.
  apply (listing_that_is_no_list (serving_contents api_refusal) (fresh ∅)
           (Response "[...]" "[...]") api_refusal); [vm_compute; reflexivity | reflexivity..].
Defined.
